(** * NeeevAI timetable generator: a shallow embedding of [src/lib/generator.js]

    The engine of the repository is [generateTimetable]: a deterministic
    greedy assignment of (class, subject) requirements to grid cells,
    followed by a seeded local-swap optimizer that is scored by
    [computeDiagnostics].  This file embeds those functions and proves
    properties of them.  It also embeds the CSV views of
    [src/lib/exporter.js], the learned penalties of [src/lib/learn.js], the
    validator of [src/lib/validator.js] and the availability grids of the
    setup page.

    Conventions of the embedding.
    - Identifiers (subject, teacher, class, resource ids) are JavaScript
      strings; they are byte strings here, compared as JavaScript compares
      ASCII strings.
    - A grid cell is [option Entry]: [None] stands for [null] and for the
      [undefined] read outside an array; both are falsy and the source
      never tells them apart.
    - JavaScript numbers that the source uses as integers are [Z] (or [nat]
      for array indices and loop bounds); [x | 0] and [x >>> 0] are written
      out as wrap-around.  The one real floating point computation, the
      index draw of the optimizer, is done on the kernel's binary64 floats.
    - Objects and [Map]s that the source only looks keys up in are [gmap]s;
      those it iterates ([Object.entries], [Map.entries]) are association
      lists kept in JavaScript's iteration order.  An object is the list of
      its own entries: the key [__proto__], under which an assignment
      makes none, is excluded where a statement depends on it.
    - A read [grid[d][p]] in a row the grid does not have is a TypeError in
      the source; the generator never does one, and statements about the
      evaluator on arbitrary timetables ask for the rows. *)

From Stdlib Require Import ZArith List Bool Ascii String Lia.
From Stdlib Require Import PrimFloat FloatOps Uint63.
From Stdlib Require OrderedTypeEx.
From stdpp Require Import base option list gmap strings sorting pretty.

Local Open Scope string_scope.
Local Open Scope nat_scope.

(** ** JavaScript helpers *)

Module Js.

(** [x | 0] : ToInt32. *)
Definition toInt32 (z : Z) : Z :=
  let m := (z mod 4294967296)%Z in
  if (m <? 2147483648)%Z then m else (m - 4294967296)%Z.

(** [x >>> 0] : ToUint32. *)
Definition toUint32 (z : Z) : Z := (z mod 4294967296)%Z.

(** Truthiness of a string and of an optional (possibly undefined) string. *)
Definition truthyStr (s : string) : bool := negb (String.eqb s "").

Definition truthy (o : option string) : bool :=
  match o with Some s => truthyStr s | None => false end.

(** [String.prototype.toLowerCase] on ASCII letters. *)
Definition lowerAscii (c : ascii) : ascii :=
  let n := nat_of_ascii c in
  if (65 <=? n) && (n <=? 90) then ascii_of_nat (n + 32) else c.

Fixpoint toLowerCase (s : string) : string :=
  match s with
  | EmptyString => EmptyString
  | String c r => String (lowerAscii c) (toLowerCase r)
  end.

(** [hay.includes(needle)]. *)
Definition includes (hay needle : string) : bool :=
  match String.index 0 needle hay with Some _ => true | None => false end.

(** [arr[i] = v] on an array: writing past the end grows the array, the
    skipped positions read as [hole]. *)
Definition arraySet {A} (hole : A) (l : list A) (i : nat) (v : A) : list A :=
  if i <? length l then <[i:=v]> l
  else l ++ replicate (i - length l) hole ++ [v].

(** First [Some] produced by [f] over [l], in list order: the shape of a
    [for] loop whose body returns from the enclosing function. *)
Fixpoint findMap {A B} (f : A -> option B) (l : list A) : option B :=
  match l with
  | [] => None
  | x :: r => match f x with Some y => Some y | None => findMap f r end
  end.

(** [Array.prototype.sort(cmp)] is stable; for a comparator that is a
    consistent ordering the result is the stable insertion sort. *)
Fixpoint insertBy {A} (cmp : A -> A -> Z) (x : A) (l : list A) : list A :=
  match l with
  | [] => [x]
  | y :: r => if (cmp x y <=? 0)%Z then x :: y :: r else y :: insertBy cmp x r
  end.

Fixpoint sortBy {A} (cmp : A -> A -> Z) (l : list A) : list A :=
  match l with
  | [] => []
  | x :: r => insertBy cmp x (sortBy cmp r)
  end.

(** The default comparator of [sort()] on strings. *)
Definition cmpStr (a b : string) : Z :=
  match String.compare a b with Lt => (-1)%Z | Eq => 0%Z | Gt => 1%Z end.

(** *** Insertion-ordered maps ([Map]) *)

Section AList.
Context {K V : Type} `{EqDecision K}.

Fixpoint alGet (m : list (K * V)) (k : K) : option V :=
  match m with
  | [] => None
  | (k', v) :: r => if decide (k = k') then Some v else alGet r k
  end.

Fixpoint alReplace (m : list (K * V)) (k : K) (v : V) : list (K * V) :=
  match m with
  | [] => []
  | (k', v') :: r =>
      if decide (k = k') then (k', v) :: r else (k', v') :: alReplace r k v
  end.

(** [m.set(k, v)]: an existing key keeps its place, a new one goes last. *)
Definition mapSet (m : list (K * V)) (k : K) (v : V) : list (K * V) :=
  match alGet m k with
  | Some _ => alReplace m k v
  | None => m ++ [(k, v)]
  end.
End AList.

(** *** Plain objects

    [Object.entries] lists the keys that are array indices first, in
    ascending numeric order, and then the other keys in insertion order. *)

Definition isDigit (c : ascii) : bool :=
  let n := nat_of_ascii c in (48 <=? n) && (n <=? 57).

Fixpoint digitsVal (s : string) (acc : N) : option N :=
  match s with
  | EmptyString => Some acc
  | String c r =>
      if isDigit c
      then digitsVal r (10 * acc + N.of_nat (nat_of_ascii c - 48))%N
      else None
  end.

(** The canonical numeric strings "0", "1", ..., "4294967294". *)
Definition arrayIndex (s : string) : option N :=
  match s with
  | EmptyString => None
  | String c EmptyString => digitsVal s 0%N
  | String c _ =>
      if Ascii.eqb c "0"%char then None
      else match digitsVal s 0%N with
           | Some n => if (n <=? 4294967294)%N then Some n else None
           | None => None
           end
  end.

Definition keyBefore (k k' : string) : bool :=
  match arrayIndex k, arrayIndex k' with
  | Some n, Some n' => (n <? n')%N
  | Some _, None => true
  | None, _ => false
  end.

Fixpoint objInsert {V} (o : list (string * V)) (k : string) (v : V)
  : list (string * V) :=
  match o with
  | [] => [(k, v)]
  | (k', v') :: r =>
      if keyBefore k k' then (k, v) :: o else (k', v') :: objInsert r k v
  end.

(** [o[k] = v], for a key other than [__proto__]: under that key the
    assignment goes to the setter of [Object.prototype], which replaces the
    prototype when [v] is an object and does nothing otherwise, and in
    neither case makes an entry of [o]. *)
Definition objSet {V} (o : list (string * V)) (k : string) (v : V)
  : list (string * V) :=
  match alGet o k with
  | Some _ => alReplace o k v
  | None => objInsert o k v
  end.

End Js.

(** ** Data model *)

Record Subject := mkSubject {
  sub_id : string;
  sub_name : string;
  sub_weeklyPeriods : option Z;
  sub_lab : bool;
  sub_doublePeriod : bool;
  sub_resourceType : option string
}.

Record Teacher := mkTeacher {
  tch_id : string;
  tch_subjects : list string;
  tch_maxLoad : Z;
  tch_availability : list (list bool)
}.

(** [res_availability = None]: the resource has no availability matrix. *)
Record Resource := mkResource {
  res_id : string;
  res_type : string;
  res_availability : option (list (list bool))
}.

(** [cls_subjects] is the class's subject -> weekly count object, in
    [Object.keys] order. *)
Record SchoolClass := mkClass {
  cls_id : string;
  cls_subjects : list (string * Z)
}.

Record SchoolConfig := mkConfig {
  workingDays : nat;
  periodsPerDay : nat;
  subjects : list Subject;
  teachers : list Teacher;
  classes : list SchoolClass;
  resources : list Resource
}.

(** [None] is an option that was left out. *)
Record Options := mkOptions {
  optimizeIterations : option Z;
  seed : option Z
}.

(** A non-null grid cell.  The greedy pass writes
    [{subjectId, teacherId, resourceId?, double?, headOfDouble?}] and
    [{subjectId, unassigned: true}]; a field that is absent or [undefined]
    is [None] (or [false] for the two flags the source only tests). *)
Record Entry := mkEntry {
  subjectId : string;
  teacherId : option string;
  resourceId : option string;
  double : bool;
  headOfDouble : option bool;
  unassigned : bool
}.

Abbreviation Cell := (option Entry).
Abbreviation Grid := (list (list (option Entry))).
Abbreviation Timetable := (list (string * list (list (option Entry)))).

#[global] Instance Entry_eq_dec : EqDecision Entry.
Proof. solve_decision. Defined.

(** [{ ...e, headOfDouble: h }]. *)
Definition withHead (e : Entry) (h : option bool) : Entry :=
  mkEntry (subjectId e) (teacherId e) (resourceId e) (double e) h (unassigned e).

(** [grid[d][p]] on a grid that has the row [d]; the generator only reads
    rows [d < workingDays], which every grid built by [makeEmptyGrid] has.
    On a grid without the row the read of the source throws a TypeError:
    see [rowsThere] for the evaluator, which can be given any timetable. *)
Definition cellAt (g : Grid) (d p : nat) : Cell :=
  match g !! d with
  | Some row => match row !! p with Some c => c | None => None end
  | None => None
  end.

(** [grid[d][p] = v]. *)
Definition setCell (g : Grid) (d p : nat) (v : Cell) : Grid :=
  match g !! d with
  | Some row => <[d := Js.arraySet None row p v]> g
  | None => g
  end.

(** [timetable[cid][d][p]]. *)
Definition cell (tt : Timetable) (cid : string) (d p : nat) : Cell :=
  match Js.alGet tt cid with
  | Some g => cellAt g d p
  | None => None
  end.

(** [timetable[cid][d][p] = v]: the grid object is shared with the
    timetable, so the write is seen through it. *)
Definition ttSet (tt : Timetable) (cid : string) (d p : nat) (v : Cell)
  : Timetable :=
  match Js.alGet tt cid with
  | Some g => Js.alReplace tt cid (setCell g d p v)
  | None => tt
  end.

(** ** createRng *)

Module Rng.

(** [createRng(seed)]: the initial state [(seed >>> 0) || 42]. *)
Definition createRng (seed : Z) : Z :=
  let s := Js.toUint32 seed in
  if (s =? 0)%Z then 42%Z else s.

(** [next()]: the new state, which is also the value returned.  The
    product stays below 2^53, so the source's arithmetic is exact. *)
Definition next (s : Z) : Z :=
  Js.toUint32 (1664525 * s + 1013904223)%Z.

Definition floatOfZ (z : Z) : float := PrimFloat.of_uint63 (Uint63.of_Z z).

(** [nextFloat()] on the value [s] that [next()] returned. *)
Definition toFloat (s : Z) : float :=
  PrimFloat.div (floatOfZ s) (floatOfZ 4294967295).

(** [Math.floor] of a finite float (0 for NaN and infinities, which the
    draw below cannot produce). *)
Definition floor (f : float) : Z :=
  match Prim2SF f with
  | SpecFloat.S754_finite sgn m e =>
      if sgn then (- (Z.pos m * 2 ^ Z.max 0 e) / 2 ^ Z.max 0 (- e))%Z
      else (Z.pos m * 2 ^ Z.max 0 e / 2 ^ Z.max 0 (- e))%Z
  | _ => 0%Z
  end.

(** [Math.floor(rng.nextFloat() * len)] given the value [s] of [next()]. *)
Definition index (s : Z) (len : nat) : nat :=
  Z.to_nat (floor (PrimFloat.mul (toFloat s) (floatOfZ (Z.of_nat len)))).

End Rng.

(** ** buildIndex and the small helpers *)

Record Index := mkIndex {
  subjectsById : gmap string Subject;
  teachersById : gmap string Teacher;
  resourcesByType : gmap string (list Resource)
}.

(** [m.set(x.id, x)] for each element in turn: a later element wins. *)
Definition indexById {A} (key : A -> string) (l : list A) : gmap string A :=
  fold_left (fun (m : gmap string A) x => <[key x := x]> m) l ∅.

Definition groupByType (l : list Resource) : gmap string (list Resource) :=
  fold_left
    (fun (m : gmap string (list Resource)) r =>
       <[res_type r := (default [] (m !! res_type r) ++ [r])%list]> m) l ∅.

Definition buildIndex (data : SchoolConfig) : Index :=
  mkIndex (indexById sub_id (subjects data))
          (indexById tch_id (teachers data))
          (groupByType (resources data)).

Definition inferSubjectResourceType (subject : Subject) : option string :=
  if Js.truthy (sub_resourceType subject) then sub_resourceType subject
  else if sub_lab subject then
    if Js.includes (Js.toLowerCase (sub_name subject)) "computer"
    then Some "computer_lab" else Some "lab"
  else None.

Definition makeEmptyGrid (days periods : nat) (fill : Cell) : Grid :=
  replicate days (replicate periods fill).

(** [grid.map((row) => row.slice())]: on values, a copy. *)
Definition cloneGrid (grid : Grid) : Grid := map (fun row => row) grid.

(** ** computeDiagnostics *)

Record Diag := mkDiag {
  unassignedCount : Z;
  penaltyScore : Z;
  teacherLoads : list (string * Z)
}.

(** The accumulators of the first pass: the two counters, the load [Map]
    and [teacherDayUsage] (teacher -> day -> one boolean per period). *)
Record DiagAcc := mkAcc {
  acc_unassigned : Z;
  acc_penalty : Z;
  acc_loads : list (string * Z);
  acc_usage : list (string * list (nat * list bool))
}.

Definition addPenalty (n : Z) (a : DiagAcc) : DiagAcc :=
  mkAcc (acc_unassigned a) (acc_penalty a + n) (acc_loads a) (acc_usage a).

Definition markUsage (periods : nat) (tid : string) (d p : nat)
    (u : list (string * list (nat * list bool)))
  : list (string * list (nat * list bool)) :=
  let u1 := match Js.alGet u tid with Some _ => u | None => Js.mapSet u tid [] end in
  let dayMap := default [] (Js.alGet u1 tid) in
  let dayMap1 :=
    match Js.alGet dayMap d with
    | Some _ => dayMap
    | None => Js.mapSet dayMap d (replicate periods false)
    end in
  let dayArr := default [] (Js.alGet dayMap1 d) in
  Js.alReplace u1 tid (Js.alReplace dayMap1 d (Js.arraySet false dayArr p true)).

(** The [if (entry.teacherId) { ... }] block. *)
Definition recordTeacher (periods : nat) (entry : Entry) (d p : nat)
    (a : DiagAcc) : DiagAcc :=
  match teacherId entry with
  | Some tid =>
      if Js.truthyStr tid then
        mkAcc (acc_unassigned a) (acc_penalty a)
              (Js.mapSet (acc_loads a) tid
                 (default 0%Z (Js.alGet (acc_loads a) tid) + 1)%Z)
              (markUsage periods tid d p (acc_usage a))
      else a
  | None => a
  end.

(** The test of the [if (p + 1 < periods) { ... }] block. *)
Definition sameSubjectNext (periods : nat) (grid : Grid) (d p : nat)
    (entry : Entry) : bool :=
  (p + 1 <? periods) &&
  match cellAt grid d (p + 1) with
  | Some next =>
      negb (unassigned next) && Js.truthyStr (subjectId entry) &&
      Js.truthyStr (subjectId next) &&
      String.eqb (subjectId entry) (subjectId next)
  | None => false
  end.

(** One turn of the innermost loop. *)
Definition cellStep (periods : nat) (grid : Grid) (d : nat)
    (a : DiagAcc) (p : nat) : DiagAcc :=
  match cellAt grid d p with
  | None => a
  | Some entry =>
      if unassigned entry then
        mkAcc (acc_unassigned a + 1) (acc_penalty a + 20) (acc_loads a) (acc_usage a)
      else
        let a1 := recordTeacher periods entry d p a in
        if sameSubjectNext periods grid d p entry then addPenalty 10 a1 else a1
  end.

Definition gridPass (days periods : nat) (a : DiagAcc) (kg : string * Grid)
  : DiagAcc :=
  fold_left
    (fun a d => fold_left (cellStep periods (snd kg) d) (seq 0 periods) a)
    (seq 0 days) a.

(** [for (p = 1; p + 1 < dayArr.length; p++) if (busy, free, busy) ...]. *)
Definition gapsOfDay (dayArr : list bool) : Z :=
  fold_left
    (fun n p =>
       if nth (p - 1) dayArr false && negb (nth p dayArr false)
          && nth (p + 1) dayArr false
       then (n + 5)%Z else n)
    (seq 1 (length dayArr - 2)) 0%Z.

Definition gapPenalty (usage : list (string * list (nat * list bool))) : Z :=
  fold_left
    (fun n tu => fold_left (fun n du => (n + gapsOfDay (snd du))%Z) (snd tu) n)
    usage 0%Z.

(** [teacherLoadsObj[k] = v] over the entries of the load map.  The values
    are numbers, so under the key [__proto__] the assignment does nothing
    and the load of a teacher of that id gets no entry. *)
Definition loadsObject (loads : list (string * Z)) : list (string * Z) :=
  fold_left
    (fun o kv =>
       if String.eqb (fst kv) "__proto__" then o
       else Js.objSet o (fst kv) (snd kv))
    loads [].

Definition diagPass1 (timetable : Timetable) (data : SchoolConfig) : DiagAcc :=
  fold_left (gridPass (workingDays data) (periodsPerDay data)) timetable
            (mkAcc 0 0 [] []).

Definition computeDiagnostics (timetable : Timetable) (data : SchoolConfig)
  : Diag :=
  let a := diagPass1 timetable data in
  mkDiag (acc_unassigned a)
         (acc_penalty a + gapPenalty (acc_usage a))
         (loadsObject (acc_loads a)).

(** The reads [grid[d][p]] of the first pass, in the order of its loops:
    each needs the row [grid[d]], and throws a TypeError where the grid has
    none.  [rowsThere] says that every one of them finds its row. *)
Definition rowsThere (days periods : nat) (timetable : Timetable) : bool :=
  forallb
    (fun kg : string * Grid =>
       forallb
         (fun d =>
            forallb (fun _ : nat => match snd kg !! d with
                                    | Some _ => true
                                    | None => false
                                    end)
                    (seq 0 periods))
         (seq 0 days))
    timetable.

(** [computePenalty], the exported entry to the evaluator, which is given
    timetables the generator did not build: [d.penaltyScore || 0], and
    [None] for the TypeError of a read in a row that is not there. *)
Definition computePenalty (timetable : Timetable) (data : SchoolConfig)
  : option Z :=
  if rowsThere (workingDays data) (periodsPerDay data) timetable
  then Some (penaltyScore (computeDiagnostics timetable data))
  else None.

(** ** The greedy slot assigner *)

(** [teacherSchedule] and [resourceSchedule]: id -> day -> set of periods. *)
Abbreviation Schedule := (gmap string (gmap nat (gset nat))).

(** [(schedule.get(id) || new Map()).get(day) || new Set()]. *)
Definition usedSet (schedule : Schedule) (id : string) (day : nat) : gset nat :=
  default ∅ (default ∅ (schedule !! id) !! day).

Definition teacherCanTeach (teacher : Teacher) (sid : string) : bool :=
  bool_decide (sid ∈ tch_subjects teacher).

(** [dayArr[p] === true] for every wanted period. *)
Definition allAvailable (dayArr : list bool) (periods : list nat) : bool :=
  forallb (fun p => default false (dayArr !! p)) periods.

Definition checkTeacherAvailability (teacher : Teacher) (day : nat)
    (periods : list nat) : bool :=
  match tch_availability teacher !! day with
  | Some dayArr => allAvailable dayArr periods
  | None => false
  end.

Definition slotsAreFree (grid : Grid) (day : nat) (periods : list nat) : bool :=
  forallb (fun p => bool_decide (cellAt grid day p = None)) periods.

Definition teacherFreeSchedule (teacherSchedule : Schedule) (tid : string)
    (day : nat) (periods : list nat) : bool :=
  forallb (fun p => negb (bool_decide (p ∈ usedSet teacherSchedule tid day)))
          periods.

(** [occupyTeacherSchedule] and [occupyResource] have one and the same
    body. *)
Definition occupy (schedule : Schedule) (id : string) (day : nat)
    (periods : list nat) : Schedule :=
  let dayMap := default ∅ (schedule !! id) in
  let used := default ∅ (dayMap !! day) in
  <[id := <[day := fold_left (fun s p => {[p]} ∪ s) periods used]> dayMap]>
    schedule.

Abbreviation occupyTeacherSchedule := occupy.
Abbreviation occupyResource := occupy.

Definition resourceFree (resource : Resource) (day : nat) (periods : list nat)
  : bool :=
  match res_availability resource with
  | None => true
  | Some av =>
      match av !! day with
      | Some dayArr => allAvailable dayArr periods
      | None => false
      end
  end.

Definition resourceOccupied (resourceSchedule : Schedule) (rid : string)
    (day : nat) (periods : list nat) : bool :=
  existsb (fun p => bool_decide (p ∈ usedSet resourceSchedule rid day)) periods.

Definition totalTeacherLoad (loads : gmap string Z) (tid : string) : Z :=
  default 0%Z (loads !! tid).

Definition incTeacherLoad (loads : gmap string Z) (tid : string) (by_ : Z)
  : gmap string Z :=
  <[tid := (default 0%Z (loads !! tid) + by_)%Z]> loads.

(** The three structures [tryAssignSlot] updates besides the class grid. *)
Record Booking := mkBooking {
  teacherSchedule : Schedule;
  resourceSchedule : Schedule;
  loads : gmap string Z
}.

Definition spanOf (requiresDouble : bool) : nat := if requiresDouble then 2 else 1.

(** [requiresDouble ? [p, p + 1] : [p]]. *)
Definition periodsAt (requiresDouble : bool) (p : nat) : list nat :=
  if requiresDouble then [p; p + 1] else [p].

(** The values of [p] the loop [for (p = 0; p + periodSpan - 1 < periodCount; p++)]
    visits. *)
Definition startPeriods (requiresDouble : bool) (periodCount : nat) : list nat :=
  List.filter (fun p => p + spanOf requiresDouble - 1 <? periodCount)
              (seq 0 periodCount).

(** What a successful search of [tryAssignSlot] has in hand at [// Assign]. *)
Record Placement := mkPlacement {
  pl_day : nat;
  pl_period : nat;
  pl_teacher : string;
  pl_resource : option Resource
}.

Section TryAssignSlot.

(** The fields of [args] that stay the same over the whole greedy pass. *)
Variable teacherList : list string.
Variable teachersById : gmap string Teacher.
Variable maxLoadByTeacher : gmap string Z.
Variable dayCount periodCount : nat.
Variable availableResources : gmap string (list Resource).

(** The [if (resourceType) { ... }] block: [None] is its [continue],
    [Some chosenResource] otherwise. *)
Definition chooseResource (resourceType : option string) (bk : Booking)
    (d : nat) (periods : list nat) : option (option Resource) :=
  if Js.truthy resourceType then
    match
      List.find
        (fun r => resourceFree r d periods &&
                  negb (resourceOccupied (resourceSchedule bk) (res_id r) d periods))
        (default [] (availableResources !! default "" resourceType))
    with
    | Some r => Some (Some r)
    | None => None
    end
  else Some None.

(** The body of the teacher loop. *)
Definition tryTeacher (sid : string) (requiresDouble : bool)
    (resourceType : option string) (bk : Booking) (d p : nat)
    (tid : string) : option Placement :=
  let periods := periodsAt requiresDouble p in
  match teachersById !! tid with
  | None => None
  | Some t =>
      if negb (teacherCanTeach t sid) then None
      else if negb (checkTeacherAvailability t d periods) then None
      else if negb (teacherFreeSchedule (teacherSchedule bk) tid d periods) then None
      else if (default 0 (maxLoadByTeacher !! tid) <?
               totalTeacherLoad (loads bk) tid + Z.of_nat (spanOf requiresDouble))%Z
      then None
      else match chooseResource resourceType bk d periods with
           | Some chosen => Some (mkPlacement d p tid chosen)
           | None => None
           end
  end.

(** The first loop nest: days, start periods, teachers. *)
Definition findPlacement (classGrid : Grid) (sid : string)
    (requiresDouble : bool) (resourceType : option string) (bk : Booking)
  : option Placement :=
  Js.findMap
    (fun d =>
       Js.findMap
         (fun p =>
            if slotsAreFree classGrid d (periodsAt requiresDouble p)
            then Js.findMap (tryTeacher sid requiresDouble resourceType bk d p)
                            teacherList
            else None)
         (startPeriods requiresDouble periodCount))
    (seq 0 dayCount).

(** The second loop nest: the first free span of the class grid. *)
Definition findFreeSpan (classGrid : Grid) (requiresDouble : bool)
  : option (nat * nat) :=
  Js.findMap
    (fun d =>
       Js.findMap
         (fun p =>
            if slotsAreFree classGrid d (periodsAt requiresDouble p)
            then Some (d, p) else None)
         (startPeriods requiresDouble periodCount))
    (seq 0 dayCount).

Definition assignedEntry (sid : string) (requiresDouble : bool)
    (pl : Placement) : Entry :=
  mkEntry sid (Some (pl_teacher pl)) (res_id <$> pl_resource pl)
          requiresDouble (if requiresDouble then Some true else None) false.

Definition unassignedEntry (sid : string) : Entry :=
  mkEntry sid None None false None true.

(** The writes after [// Assign]. *)
Definition commit (classGrid : Grid) (sid : string) (requiresDouble : bool)
    (bk : Booking) (pl : Placement) : Grid * Booking :=
  let d := pl_day pl in
  let p := pl_period pl in
  let periods := periodsAt requiresDouble p in
  let entry := assignedEntry sid requiresDouble pl in
  let g1 := setCell classGrid d p (Some entry) in
  let g2 := if requiresDouble
            then setCell g1 d (p + 1) (Some (withHead entry (Some false)))
            else g1 in
  let ts := occupyTeacherSchedule (teacherSchedule bk) (pl_teacher pl) d periods in
  let rs := match pl_resource pl with
            | Some r => occupyResource (resourceSchedule bk) (res_id r) d periods
            | None => resourceSchedule bk
            end in
  (g2, mkBooking ts rs
         (incTeacherLoad (loads bk) (pl_teacher pl) (Z.of_nat (spanOf requiresDouble)))).

Definition markUnassigned (classGrid : Grid) (sid : string)
    (requiresDouble : bool) (d p : nat) : Grid :=
  let un := unassignedEntry sid in
  let g1 := setCell classGrid d p (Some un) in
  if requiresDouble then setCell g1 d (p + 1) (Some un) else g1.

(** [tryAssignSlot(args)]: its result and the grid and bookkeeping it
    leaves behind. *)
Definition tryAssignSlot (classGrid : Grid) (sid : string)
    (requiresDouble : bool) (resourceType : option string) (bk : Booking)
  : bool * Grid * Booking :=
  match findPlacement classGrid sid requiresDouble resourceType bk with
  | Some pl =>
      let '(g, bk') := commit classGrid sid requiresDouble bk pl in
      (true, g, bk')
  | None =>
      match findFreeSpan classGrid requiresDouble with
      | Some (d, p) => (false, markUnassigned classGrid sid requiresDouble d p, bk)
      | None => (false, classGrid, bk)
      end
  end.

End TryAssignSlot.

(** ** The optimizer's helpers *)

Record Slot := mkSlot {
  classId : string;
  day : nat;
  period : nat;
  entry : Entry
}.

(** The test [e.double && e.headOfDouble === false]. *)
Definition secondHalf (e : Entry) : bool :=
  double e && bool_decide (headOfDouble e = Some false).

Definition collectAssignedSlots (timetable : Timetable) (data : SchoolConfig)
  : list Slot :=
  flat_map
    (fun kg : string * Grid =>
       flat_map
         (fun d =>
            flat_map
              (fun p =>
                 match cellAt (snd kg) d p with
                 | None => []
                 | Some e =>
                     if unassigned e then []
                     else if secondHalf e then []
                     else [mkSlot (fst kg) d p e]
                 end)
              (seq 0 (periodsPerDay data)))
         (seq 0 (workingDays data)))
    timetable.

(** [destFree(targetGrid, day, perArr, exceptEntry)].  Every non-null cell
    holds an object of its own (each write stores a fresh literal or spread
    copy), so [x === exceptEntry] holds exactly when [x] is read from the
    cell [exceptAt] that [exceptEntry] was read from. *)
Definition destFree (targetGrid : Grid) (day : nat) (perArr : list nat)
    (exceptEntry : Entry) (exceptAt : nat * nat) : bool :=
  forallb
    (fun p =>
       match cellAt targetGrid day p with
       | None => true
       | Some x =>
           bool_decide ((day, p) = exceptAt) ||
           (double exceptEntry && double x &&
            String.eqb (subjectId x) (subjectId exceptEntry) &&
            bool_decide (teacherId x = teacherId exceptEntry))
       end)
    perArr.

Definition clashes (movingEntry e : Entry) : bool :=
  (Js.truthy (teacherId e) && Js.truthy (teacherId movingEntry) &&
   bool_decide (teacherId e = teacherId movingEntry)) ||
  (Js.truthy (resourceId movingEntry) && Js.truthy (resourceId e) &&
   bool_decide (resourceId e = resourceId movingEntry)).

Definition teacherHasConflict (timetable : Timetable) (movingEntry : Entry)
    (destClassId : string) (day : nat) (perArr : list nat) : bool :=
  existsb
    (fun p =>
       existsb
         (fun kg : string * Grid =>
            if String.eqb (fst kg) destClassId then false
            else match cellAt (snd kg) day p with
                 | None => false
                 | Some e => if unassigned e then false else clashes movingEntry e
                 end)
         timetable)
    perArr.

(** [swapFeasible(a, b, timetable, data, indices)].  The two entries are
    read from the grid; the pool was collected from the same timetable, so
    they are there (the [None] branches stand for a [TypeError]). *)
Definition swapFeasible (a b : Slot) (timetable : Timetable)
    (data : SchoolConfig) : bool :=
  let periods := periodsPerDay data in
  match Js.alGet timetable (classId a), Js.alGet timetable (classId b) with
  | Some Agrid, Some Bgrid =>
      match cellAt Agrid (day a) (period a), cellAt Bgrid (day b) (period b) with
      | Some Aentry, Some Bentry =>
          let Aperiods := periodsAt (double Aentry) (period a) in
          let Bperiods := periodsAt (double Bentry) (period b) in
          if double Aentry && (periods <=? period a + 1) then false
          else if double Bentry && (periods <=? period b + 1) then false
          else if negb (destFree Bgrid (day a) Aperiods Bentry (day b, period b))
          then false
          else if negb (destFree Agrid (day b) Bperiods Aentry (day a, period a))
          then false
          else if teacherHasConflict timetable Aentry (classId b) (day b) Bperiods
          then false
          else if teacherHasConflict timetable Bentry (classId a) (day a) Aperiods
          then false
          else true
      | _, _ => false
      end
  | _, _ => false
  end.

(** [moveEntry(srcGrid, src, dstGrid, dst)] of [applySwap], the two grids
    being [timetable[src.classId]] and [timetable[dst.classId]]. *)
Definition moveEntry (tt : Timetable) (src dst : Slot) : Timetable :=
  match cell tt (classId src) (day src) (period src) with
  | None => tt
  | Some e =>
      let tt1 := ttSet tt (classId src) (day src) (period src) None in
      let tt2 := if double e
                 then ttSet tt1 (classId src) (day src) (period src + 1) None
                 else tt1 in
      let tt3 := ttSet tt2 (classId dst) (day dst) (period dst)
                   (Some (withHead e (if double e then Some true else None))) in
      if double e
      then ttSet tt3 (classId dst) (day dst) (period dst + 1)
                 (Some (withHead e (Some false)))
      else tt3
  end.

Definition applySwap (a b : Slot) (timetable : Timetable) : Timetable :=
  moveEntry (moveEntry timetable a b) b a.

(** ** generateTimetable *)

(** One element of [required]. *)
Record Requirement := mkReq {
  req_classId : string;
  req_subjectId : string;
  req_requiresDouble : bool;
  req_weeklyPeriods : Z;
  req_resourceType : option string;
  req_priorityLab : bool
}.

(** [subjectsById.get(sid) || { id: sid, name: sid }]. *)
Definition subjectOrStub (idx : Index) (sid : string) : Subject :=
  default (mkSubject sid sid None false false None) (subjectsById idx !! sid).

(** [x || y] on numbers. *)
Definition orElse (x : option Z) (y : Z) : Z :=
  match x with
  | Some w => if (w =? 0)%Z then y else w
  | None => y
  end.

(** The requirements one key of [cls.subjects] contributes. *)
Definition requirementsOf (idx : Index) (cid : string) (kv : string * Z)
  : list Requirement :=
  let sid := fst kv in
  let count := Js.toInt32 (snd kv) in
  let subj := subjectOrStub idx sid in
  let resourceType := inferSubjectResourceType subj in
  replicate (Z.to_nat count)
    (mkReq cid sid (sub_doublePeriod subj)
           (orElse (sub_weeklyPeriods subj) count)
           resourceType (Js.truthy resourceType)).

Definition flattenRequired (idx : Index) (data : SchoolConfig)
  : list Requirement :=
  flat_map
    (fun cls => flat_map (requirementsOf idx (cls_id cls)) (cls_subjects cls))
    (classes data).

Definition firstFlag (x y : bool) : Z :=
  if Bool.eqb x y then 0%Z else if x then (-1)%Z else 1%Z.

Definition orderStr (x y : string) : Z :=
  if String.ltb x y then (-1)%Z else 1%Z.

(** The comparator given to [required.sort]. *)
Definition compareRequired (a b : Requirement) : Z :=
  let a1 := firstFlag (req_requiresDouble a) (req_requiresDouble b) in
  if negb (a1 =? 0)%Z then a1 else
  let a2 := firstFlag (req_priorityLab a) (req_priorityLab b) in
  if negb (a2 =? 0)%Z then a2 else
  let a3 := (Js.toInt32 (req_weeklyPeriods b) - Js.toInt32 (req_weeklyPeriods a))%Z in
  if negb (a3 =? 0)%Z then a3 else
  if negb (String.eqb (req_classId a) (req_classId b))
  then orderStr (req_classId a) (req_classId b) else
  if negb (String.eqb (req_subjectId a) (req_subjectId b))
  then orderStr (req_subjectId a) (req_subjectId b) else 0%Z.

(** [timetable[c.id] = makeEmptyGrid(days, periods, null)] for every class,
    for class ids other than [__proto__] (see [Js.objSet]). *)
Definition emptyTimetable (data : SchoolConfig) : Timetable :=
  fold_left
    (fun tt c =>
       Js.objSet tt (cls_id c)
                 (makeEmptyGrid (workingDays data) (periodsPerDay data) None))
    (classes data) [].

Definition maxLoads (data : SchoolConfig) : gmap string Z :=
  fold_left (fun (m : gmap string Z) t => <[tch_id t := tch_maxLoad t]> m)
            (teachers data) ∅.

Definition teacherOrder (data : SchoolConfig) : list string :=
  Js.sortBy Js.cmpStr (map tch_id (teachers data)).

(** The state of the greedy loop: the timetable and the bookkeeping. *)
Abbreviation GreedyState := (Timetable * Booking)%type.

(** One turn of [for (const slot of required)].  [classGrid] is the grid
    object of the timetable, so what [tryAssignSlot] writes is written to
    the timetable. *)
Definition assignStep (idx : Index) (data : SchoolConfig) (st : GreedyState)
    (slot : Requirement) : GreedyState :=
  match Js.alGet (fst st) (req_classId slot) with
  | None => st
  | Some classGrid =>
      let '(_, g, bk) :=
        tryAssignSlot (teacherOrder data) (teachersById idx) (maxLoads data)
          (workingDays data) (periodsPerDay data) (resourcesByType idx)
          classGrid (req_subjectId slot) (req_requiresDouble slot)
          (req_resourceType slot) (snd st) in
      (Js.alReplace (fst st) (req_classId slot) g, bk)
  end.

Definition required (data : SchoolConfig) : list Requirement :=
  Js.sortBy compareRequired (flattenRequired (buildIndex data) data).

(** Everything [generateTimetable] does up to the comment
    [// Local-swap optimizer]. *)
Definition greedyState (data : SchoolConfig) : GreedyState :=
  fold_left (assignStep (buildIndex data) data) (required data)
            (emptyTimetable data, mkBooking ∅ ∅ ∅).

Definition greedy (data : SchoolConfig) : Timetable := fst (greedyState data).

(** [Math.max(0, options.optimizeIterations ?? 200)]. *)
Definition iterationsOf (options : Options) : nat :=
  Z.to_nat (Z.max 0 (default 200%Z (optimizeIterations options))).

(** [(options && options.seed) || 42]. *)
Definition seedOf (options : Options) : Z := orElse (seed options) 42.

Definition totalPenalty (timetable : Timetable) (data : SchoolConfig) : Z :=
  penaltyScore (computeDiagnostics timetable data).

(** The variables the optimizer loop updates. *)
Record OptState := mkOpt {
  opt_timetable : Timetable;
  opt_rng : Z;
  opt_best : Z
}.

(** One turn of the optimizer loop; [None] is its [break]. *)
Definition optStep (data : SchoolConfig) (st : OptState) : option OptState :=
  let tt := opt_timetable st in
  let pool := collectAssignedSlots tt data in
  if length pool <? 2 then None
  else
    let s1 := Rng.next (opt_rng st) in
    let s2 := Rng.next s1 in
    let skip := Some (mkOpt tt s2 (opt_best st)) in
    match pool !! Rng.index s1 (length pool), pool !! Rng.index s2 (length pool) with
    | Some a, Some b =>
        if String.eqb (classId a) (classId b) && (day a =? day b)
           && (period a =? period b)
        then skip
        else if negb (swapFeasible a b tt data) then skip
        else
          let Agr := cloneGrid (default [] (Js.alGet tt (classId a))) in
          let Bgr := cloneGrid (default [] (Js.alGet tt (classId b))) in
          let swapped := applySwap a b tt in
          let newPenalty := totalPenalty swapped data in
          if (newPenalty <? opt_best st)%Z
          then Some (mkOpt swapped s2 newPenalty)
          else Some (mkOpt (Js.objSet (Js.objSet swapped (classId a) Agr)
                                      (classId b) Bgr)
                           s2 (opt_best st))
    | _, _ => skip
    end.

(** The loop run for [n] turns (or until its [break]). *)
Fixpoint optLoop (data : SchoolConfig) (n : nat) (st : OptState) : OptState :=
  match n with
  | 0 => st
  | S n' =>
      match optStep data st with
      | Some st' => optLoop data n' st'
      | None => st
      end
  end.

Definition optInit (data : SchoolConfig) (options : Options) : OptState :=
  mkOpt (greedy data) (Rng.createRng (seedOf options))
        (totalPenalty (greedy data) data).

(** [{ ...diag, timeTakenMs, timeMs }]. *)
Record Diagnostics := mkDiagnostics {
  diag : Diag;
  timeTakenMs : Z;
  timeMs : Z
}.

Record Result := mkResult {
  timetable : Timetable;
  diagnostics : Diagnostics
}.

(** [generateTimetable(schoolData, options)]; [t0] and [t1] are what the
    two calls of [Date.now()] return. *)
Definition generateTimetable (schoolData : SchoolConfig) (options : Options)
    (t0 t1 : Z) : Result :=
  let final :=
    optLoop schoolData (iterationsOf options) (optInit schoolData options) in
  let tt := opt_timetable final in
  mkResult tt (mkDiagnostics (computeDiagnostics tt schoolData) (t1 - t0) (t1 - t0)).

(** ** The generator, given what its two sorts return

    [required.sort(cmp)] and [teachers.map(t => t.id).sort()] are the two
    places where the result could depend on the engine: which order elements
    that compare as equal are left in is up to its sorting algorithm.  Here
    [reqs] stands for [required] after the sort and [order] for
    [teacherOrder]; everything else is as in [generateTimetable]. *)

Definition assignStepBy (order : list string) (idx : Index)
    (data : SchoolConfig) (st : GreedyState) (slot : Requirement)
  : GreedyState :=
  match Js.alGet (fst st) (req_classId slot) with
  | None => st
  | Some classGrid =>
      let '(_, g, bk) :=
        tryAssignSlot order (teachersById idx) (maxLoads data)
          (workingDays data) (periodsPerDay data) (resourcesByType idx)
          classGrid (req_subjectId slot) (req_requiresDouble slot)
          (req_resourceType slot) (snd st) in
      (Js.alReplace (fst st) (req_classId slot) g, bk)
  end.

Definition greedyBy (reqs : list Requirement) (order : list string)
    (data : SchoolConfig) : Timetable :=
  fst (fold_left (assignStepBy order (buildIndex data) data) reqs
                 (emptyTimetable data, mkBooking ∅ ∅ ∅)).

Definition generateTimetableBy (reqs : list Requirement) (order : list string)
    (schoolData : SchoolConfig) (options : Options) (t0 t1 : Z) : Result :=
  let start := greedyBy reqs order schoolData in
  let final :=
    optLoop schoolData (iterationsOf options)
            (mkOpt start (Rng.createRng (seedOf options))
                   (totalPenalty start schoolData)) in
  let tt := opt_timetable final in
  mkResult tt (mkDiagnostics (computeDiagnostics tt schoolData) (t1 - t0) (t1 - t0)).

(** A list in the order a sort with comparator [cmp] leaves it in: no
    element compares as greater than a later one. *)
Definition sortedBy {A} (cmp : A -> A -> Z) (l : list A) : Prop :=
  StronglySorted (fun a b => (cmp a b <= 0)%Z) l.

(** ** Measures and predicates used in the statements *)

Definition rowAt (row : list Cell) (p : nat) : Cell := default None (row !! p).

(** The class [c] has a grid in [tt] and that grid has a row [d]: the
    condition under which the source's [timetable[c][d][p] = v] is a write
    and not an error. *)
Definition inShape (tt : Timetable) (c : string) (d : nat) : Prop :=
  exists g, Js.alGet tt c = Some g /\ d < length g.

Definition hits (P : Entry -> bool) (c : Cell) : nat :=
  match c with Some e => if P e then 1 else 0 | None => 0 end.

Definition countRow (P : Entry -> bool) (row : list Cell) : nat :=
  sum_list_with (hits P) row.

Definition countGrid (P : Entry -> bool) (g : Grid) : nat :=
  sum_list_with (countRow P) g.

Definition countCells (P : Entry -> bool) (tt : Timetable) : nat :=
  sum_list_with (fun kg => countGrid P (snd kg)) tt.

(** The keys of the timetable object are distinct and every grid has one
    row per working day. *)
Definition wfTT (days : nat) (tt : Timetable) : Prop :=
  NoDup tt.*1 /\ forall c g, Js.alGet tt c = Some g -> length g = days.

(** No teacher and no resource is in two classes' cells at one (day, period). *)
Definition noDoubleBooking (tt : Timetable) : Prop :=
  forall c1 c2 d p e1 e2,
    c1 <> c2 -> cell tt c1 d p = Some e1 -> cell tt c2 d p = Some e2 ->
    (forall t, teacherId e1 = Some t -> teacherId e2 <> Some t) /\
    (forall r, resourceId e1 = Some r -> resourceId e2 <> Some r).

(** The head of a double period is followed by its second half. *)
Definition paired (tt : Timetable) : Prop :=
  forall c d p e,
    cell tt c d p = Some e -> double e = true -> headOfDouble e <> Some false ->
    cell tt c d (p + 1) = Some (withHead e (Some false)).

(** Every booking of [tt'] is a booking of [tt], cell by cell. *)
Definition dominated (tt' tt : Timetable) : Prop :=
  tt'.*1 = tt.*1 /\
  forall c d p e',
    cell tt' c d p = Some e' ->
    exists e, cell tt c d p = Some e /\ subjectId e = subjectId e' /\
              teacherId e = teacherId e' /\ resourceId e = resourceId e'.

Definition posOf (s : Slot) : string * nat * nat := (classId s, day s, period s).
Definition nextOf (s : Slot) : string * nat * nat := (classId s, day s, period s + 1).

(** What every turn of the loop keeps true; [tt0] is the timetable the loop
    started from. *)
Definition OptInv (data : SchoolConfig) (tt0 : Timetable) (st : OptState) : Prop :=
  wfTT (workingDays data) (opt_timetable st) /\
  paired (opt_timetable st) /\
  dominated (opt_timetable st) tt0 /\
  opt_best st = totalPenalty (opt_timetable st) data.

(** [timetable[c][d][p] = e1] and, for a double, [timetable[c][d][p + 1] = e2]:
    the writes of one greedy step, seen on the timetable. *)
Definition writeSpan (tt : Timetable) (c : string) (d p : nat) (rd : bool)
    (e1 e2 : Entry) : Timetable :=
  let tt1 := ttSet tt c d p (Some e1) in
  if rd then ttSet tt1 c d (p + 1) (Some e2) else tt1.

Definition hasTeacher (t : string) (e : Entry) : bool :=
  bool_decide (teacherId e = Some t).

Definition hasSubject (s : string) (e : Entry) : bool :=
  String.eqb (subjectId e) s.

(** Every cell that names a teacher (or resource) is in the schedule map. *)
Definition scheduled (schedule : Schedule) (key : Entry -> option string)
    (tt : Timetable) : Prop :=
  forall c d p e t,
    cell tt c d p = Some e -> key e = Some t -> p ∈ usedSet schedule t d.

(** What the greedy pass keeps true. *)
Definition GreedyInv (data : SchoolConfig) (st : GreedyState) : Prop :=
  wfTT (workingDays data) (fst st) /\
  paired (fst st) /\
  scheduled (teacherSchedule (snd st)) teacherId (fst st) /\
  scheduled (resourceSchedule (snd st)) resourceId (fst st) /\
  noDoubleBooking (fst st) /\
  (forall t, Z.of_nat (countCells (hasTeacher t) (fst st)) =
             totalTeacherLoad (loads (snd st)) t) /\
  (forall t, totalTeacherLoad (loads (snd st)) t = 0%Z \/
             (totalTeacherLoad (loads (snd st)) t <=
              default 0 (maxLoads data !! t))%Z).

(** ** Two small schools, used for the concrete runs

    [demoSchool]: one day of four periods; class [c1] has Math ([s1],
    teacher [t1]) once a week, class [c2] has Art ([s2], teacher [t2]) twice;
    [t2] is not available in the first period. *)

Definition demoMath : Teacher :=
  mkTeacher "t1" ["s1"] 20 [[true; true; true; true]].

Definition demoArt : Teacher :=
  mkTeacher "t2" ["s2"] 20 [[false; true; true; true]].

Definition demoSchool : SchoolConfig :=
  mkConfig 1 4
    [mkSubject "s1" "Math" (Some 1%Z) false false None;
     mkSubject "s2" "Art" (Some 2%Z) false false None]
    [demoMath; demoArt]
    [mkClass "c1" [("s1", 1%Z)]; mkClass "c2" [("s2", 2%Z)]]
    [].

Definition mathLesson : Entry := mkEntry "s1" (Some "t1") None false None false.
Definition artLesson : Entry := mkEntry "s2" (Some "t2") None false None false.

(** [doubleSchool]: one day of two periods, one class with one weekly
    double period of Science. *)
Definition doubleSchool : SchoolConfig :=
  mkConfig 1 2
    [mkSubject "sc" "Science" (Some 1%Z) false true None]
    [mkTeacher "t1" ["sc"] 20 [[true; true]]]
    [mkClass "c1" [("sc", 1%Z)]]
    [].

(** [twinSchool]: one day of three periods, one class with three weekly
    periods of one subject, and two teacher records with the same id, the
    first with a maximal load of 1, the second with one of 5. *)
Definition twinFirst : Teacher := mkTeacher "t" ["s1"] 1 [[true; true; true]].

Definition twinSchool : SchoolConfig :=
  mkConfig 1 3
    [mkSubject "s1" "Math" (Some 3%Z) false false None]
    [twinFirst; mkTeacher "t" ["s1"] 5 [[true; true; true]]]
    [mkClass "c1" [("s1", 3%Z)]]
    [].

(** ** The penalty, counted cell by cell *)

(** Number of (class, day, period) positions of the scanned window at which
    [f] holds. *)
Definition windowCount (f : Grid -> nat -> nat -> bool) (days periods : nat)
    (tt : Timetable) : nat :=
  sum_list_with
    (fun kg : string * Grid =>
       sum_list_with
         (fun d => sum_list_with (fun p => if f (snd kg) d p then 1 else 0)
                                 (seq 0 periods))
         (seq 0 days))
    tt.

Definition isMarker (c : Cell) : bool :=
  match c with Some e => unassigned e | None => false end.

(** Two assigned entries with the same, non-empty, subject id. *)
Definition sameSubject (x y : Cell) : bool :=
  match x, y with
  | Some e, Some n =>
      negb (unassigned e) && negb (unassigned n) &&
      Js.truthyStr (subjectId e) && String.eqb (subjectId e) (subjectId n)
  | _, _ => false
  end.

(** The two halves of one double period: head, then second half, of one
    subject and teacher. *)
Definition halvesOfDouble (x y : Cell) : bool :=
  match x, y with
  | Some e, Some n =>
      double e && double n &&
      bool_decide (headOfDouble e = Some true) &&
      bool_decide (headOfDouble n = Some false) &&
      String.eqb (subjectId e) (subjectId n) &&
      bool_decide (teacherId e = teacherId n)
  | _, _ => false
  end.

(** The adjacent pairs the evaluator charges: periods [p] and [p + 1] of one
    class and day, both inside the day. *)
Definition adjacentPair (periods : nat) (g : Grid) (d p : nat) : bool :=
  (p + 1 <? periods) && sameSubject (cellAt g d p) (cellAt g d (p + 1)).

(** The adjacent pairs as the specification words them: the same, except
    that the two halves of a double period are left out. *)
Definition adjacentPairSpec (periods : nat) (g : Grid) (d p : nat) : bool :=
  adjacentPair periods g d p &&
  negb (halvesOfDouble (cellAt g d p) (cellAt g d (p + 1))).

(** Cells of the grid of class [c] at which [P] holds. *)
Definition gridCount (P : Entry -> bool) (tt : Timetable) (c : string) : nat :=
  countGrid P (default [] (Js.alGet tt c)).

(** Cells of class [c] that carry subject [sid], assigned or marker. *)
Definition subjectCells (tt : Timetable) (c sid : string) : nat :=
  gridCount (hasSubject sid) tt c.


(** The number of requirements a weekly count of [n] expands to:
    [count = n | 0] turns of [for (i = 0; i < count; i++)]. *)
Definition unitsOf (n : Z) : nat := Z.to_nat (Js.toInt32 n).

(** All the requirements of a class. *)
Definition weeklyDemand (cls : SchoolClass) : nat :=
  sum_list_with (fun kv => unitsOf (snd kv)) (cls_subjects cls).



Definition forClass (c : string) (r : Requirement) : bool :=
  String.eqb (req_classId r) c.

Definition forSubject (c sid : string) (r : Requirement) : bool :=
  String.eqb (req_classId r) c && String.eqb (req_subjectId r) sid.

Definition b2z (b : bool) : Z := if b then 1%Z else 0%Z.

(** What a requirement may add to the cells of class [c] and subject [sid]. *)
Definition spanFor (c sid : string) (r : Requirement) : nat :=
  if forSubject c sid r then spanOf (req_requiresDouble r) else 0.

(** The requirement that one key of [cls.subjects] is expanded to. *)
Definition requirementFor (idx : Index) (cid : string) (kv : string * Z)
  : Requirement :=
  let subj := subjectOrStub idx (fst kv) in
  mkReq cid (fst kv) (sub_doublePeriod subj)
        (orElse (sub_weeklyPeriods subj) (Js.toInt32 (snd kv)))
        (inferSubjectResourceType subj)
        (Js.truthy (inferSubjectResourceType subj)).


(** ** The optimizer on a store of row arrays

    The functions above treat a class grid as a value.  In the source a
    grid is an array of row arrays, [cloneGrid] copies the rows, [applySwap]
    writes into the rows of the live grids and a rejected swap puts the two
    cloned grids back into the timetable object.  The module below runs the
    optimizer loop with the rows in a store, so that what is shared and what
    is copied is explicit: the store is the list of all row arrays made so
    far, the address of a row is its index, a grid is the list of the
    addresses of its rows. *)

Module Heap.

Abbreviation Store := (list (list (option Entry))).
Abbreviation GridRef := (list nat).
Abbreviation TimetableRef := (list (string * list nat)).

Definition rowOf (st : Store) (a : nat) : list Cell := default [] (st !! a).

(** The grid and the timetable that references denote in a store. *)
Definition gridView (st : Store) (g : GridRef) : Grid := rowOf st <$> g.

Definition view (st : Store) (tt : TimetableRef) : Timetable :=
  (fun kg => (fst kg, gridView st (snd kg))) <$> tt.

(** [grid.map((row) => row.slice())]: every row is copied to a new array. *)
Fixpoint clone (st : Store) (g : GridRef) : GridRef * Store :=
  match g with
  | [] => ([], st)
  | a :: r =>
      let '(r', st') := clone (st ++ [rowOf st a]) r in
      (length st :: r', st')
  end.

(** [grid[d][p] = v]: a write into the row array at [grid[d]]. *)
Definition write (st : Store) (g : GridRef) (d p : nat) (v : Cell) : Store :=
  match g !! d with
  | Some a => <[a := Js.arraySet None (rowOf st a) p v]> st
  | None => st
  end.

(** [timetable[c][d][p] = v]. *)
Definition writeAt (st : Store) (tt : TimetableRef) (c : string) (d p : nat)
    (v : Cell) : Store :=
  match Js.alGet tt c with
  | Some g => write st g d p v
  | None => st
  end.

(** [moveEntry] of [applySwap], writing into the store. *)
Definition move (st : Store) (tt : TimetableRef) (src dst : Slot) : Store :=
  match cell (view st tt) (classId src) (day src) (period src) with
  | None => st
  | Some e =>
      let st1 := writeAt st tt (classId src) (day src) (period src) None in
      let st2 := if double e
                 then writeAt st1 tt (classId src) (day src) (period src + 1) None
                 else st1 in
      let st3 := writeAt st2 tt (classId dst) (day dst) (period dst)
                   (Some (withHead e (if double e then Some true else None))) in
      if double e
      then writeAt st3 tt (classId dst) (day dst) (period dst + 1)
                   (Some (withHead e (Some false)))
      else st3
  end.

Definition swap (a b : Slot) (st : Store) (tt : TimetableRef) : Store :=
  move (move st tt a b) tt b a.

(** The variables of the optimizer loop, with the store. *)
Record State := mkState {
  store : Store;
  refs : TimetableRef;
  rng : Z;
  best : Z
}.

(** One turn of the optimizer loop.  The functions that only read
    ([collectAssignedSlots], [swapFeasible], [computeDiagnostics]) are run
    on what the references denote. *)
Definition step (data : SchoolConfig) (s : State) : option State :=
  let tt := view (store s) (refs s) in
  let pool := collectAssignedSlots tt data in
  if length pool <? 2 then None
  else
    let s1 := Rng.next (rng s) in
    let s2 := Rng.next s1 in
    let skip := Some (mkState (store s) (refs s) s2 (best s)) in
    match pool !! Rng.index s1 (length pool), pool !! Rng.index s2 (length pool) with
    | Some a, Some b =>
        if String.eqb (classId a) (classId b) && (day a =? day b)
           && (period a =? period b)
        then skip
        else if negb (swapFeasible a b tt data) then skip
        else
          let '(Agr, st1) :=
            clone (store s) (default [] (Js.alGet (refs s) (classId a))) in
          let '(Bgr, st2) :=
            clone st1 (default [] (Js.alGet (refs s) (classId b))) in
          let st3 := swap a b st2 (refs s) in
          let newPenalty := totalPenalty (view st3 (refs s)) data in
          if (newPenalty <? best s)%Z
          then Some (mkState st3 (refs s) s2 newPenalty)
          else Some (mkState st3
                       (Js.objSet (Js.objSet (refs s) (classId a) Agr)
                                  (classId b) Bgr)
                       s2 (best s))
    | _, _ => skip
    end.

Fixpoint run (data : SchoolConfig) (n : nat) (s : State) : State :=
  match n with
  | 0 => s
  | S n' =>
      match step data s with
      | Some s' => run data n' s'
      | None => s
      end
  end.

(** A timetable laid out in a store: the rows in order, every grid with
    rows of its own. *)
Fixpoint layout (off : nat) (tt : Timetable) : TimetableRef :=
  match tt with
  | [] => []
  | kg :: r =>
      (fst kg, seq off (length (snd kg))) :: layout (off + length (snd kg)) r
  end.

(** The state in which the loop starts: the greedy timetable, each row an
    array of its own as [makeEmptyGrid] made them. *)
Definition init (data : SchoolConfig) (options : Options) : State :=
  mkState (mjoin (greedy data).*2) (layout 0 (greedy data))
          (Rng.createRng (seedOf options))
          (totalPenalty (greedy data) data).

(** No row is shared between two places of the timetable, and every row
    of the timetable is in the store. *)
Definition separate (st : Store) (tt : TimetableRef) : Prop :=
  NoDup (mjoin tt.*2) /\ Forall (fun a => a < length st) (mjoin tt.*2).

End Heap.

(** The state on the store and the state on values describe the same run. *)
Definition sameRun (hs : Heap.State) (vs : OptState) : Prop :=
  Heap.separate (Heap.store hs) (Heap.refs hs) /\
  Heap.view (Heap.store hs) (Heap.refs hs) = opt_timetable vs /\
  Heap.rng hs = opt_rng vs /\ Heap.best hs = opt_best vs.

(** ** Predicates on whole timetables *)

(** [Q] holds of every non-empty cell, given with its place. *)
Definition everyCell (Q : string -> nat -> nat -> Entry -> Prop)
    (tt : Timetable) : Prop :=
  forall c d p e, cell tt c d p = Some e -> Q c d p e.

(** Every non-empty cell of [tt'] holds what [tt] holds in the same cell,
    the [headOfDouble] field apart. *)
Definition onlyEmptied (tt' tt : Timetable) : Prop :=
  tt'.*1 = tt.*1 /\
  forall c d p e',
    cell tt' c d p = Some e' ->
    exists e, cell tt c d p = Some e /\ withHead e None = withHead e' None.

(** [labSchool]: two days of three periods, two classes, a double-period
    laboratory subject, a computer subject and two rooms. *)
Definition labSchool : SchoolConfig :=
  mkConfig 2 3
    [mkSubject "cs" "Computer Science" (Some 2%Z) true false None;
     mkSubject "ch" "Chemistry" (Some 1%Z) true true None;
     mkSubject "en" "English" (Some 2%Z) false false None]
    [mkTeacher "ta" ["cs"; "en"] 4 [[true; true; true]; [true; true; true]];
     mkTeacher "tb" ["ch"; "en"] 4 [[true; true; true]; [false; true; true]]]
    [mkClass "c1" [("cs", 2%Z); ("ch", 1%Z); ("en", 1%Z)];
     mkClass "c2" [("en", 2%Z); ("cs", 1%Z)]]
    [mkResource "r1" "lab" None;
     mkResource "r2" "computer_lab"
       (Some [[true; true; false]; [true; true; true]])].

(** Every row of every grid has at least [n] cells. *)
Definition rowsAtLeast (n : nat) (tt : Timetable) : Prop :=
  forall c g, Js.alGet tt c = Some g -> Forall (fun row => n <= length row) g.

(** ** What [tryAssignSlot] looks for *)

Section Fits.
Variable teachersById : gmap string Teacher.
Variable maxLoadByTeacher : gmap string Z.
Variable availableResources : gmap string (list Resource).

(** Resource [r] can serve a requirement of type [rt] at day [d], periods
    [ps]: it is listed under the type, its own matrix allows it and no
    earlier assignment occupies it. *)
Definition roomFits (rt : option string) (bk : Booking) (d : nat)
    (ps : list nat) (r : Resource) : Prop :=
  r ∈ default [] (availableResources !! default "" rt) /\
  resourceFree r d ps = true /\
  resourceOccupied (resourceSchedule bk) (res_id r) d ps = false.

(** Teacher [tid] can take the requirement at day [d], start period [p]:
    the teacher is known, teaches the subject, is available and not yet
    booked at the periods, stays within the maximal load, and a resource
    is there if one is needed. *)
Definition teacherFits (sid : string) (rd : bool) (rt : option string)
    (bk : Booking) (d p : nat) (tid : string) : Prop :=
  exists T,
    teachersById !! tid = Some T /\
    teacherCanTeach T sid = true /\
    checkTeacherAvailability T d (periodsAt rd p) = true /\
    teacherFreeSchedule (teacherSchedule bk) tid d (periodsAt rd p) = true /\
    (totalTeacherLoad (loads bk) tid + Z.of_nat (spanOf rd) <=
     default 0 (maxLoadByTeacher !! tid))%Z /\
    (Js.truthy rt = true -> exists r, roomFits rt bk d (periodsAt rd p) r).
End Fits.

(** [(d, p)] comes before [(d', p')] in the order of the two loops. *)
Definition earlier (d p d' p' : nat) : Prop := d < d' \/ (d = d' /\ p < p').

(** ** The teachers of the evaluator *)

(** The teacher the first pass of [computeDiagnostics] records for a cell:
    the cell holds an assigned entry whose [teacherId] is truthy. *)
Definition teaches (g : Grid) (d p : nat) : option string :=
  match cellAt g d p with
  | Some e =>
      if unassigned e then None
      else match teacherId e with
           | Some t => if Js.truthyStr t then Some t else None
           | None => None
           end
  | None => None
  end.

(** The (teacher, day, period) triples recorded, in the order of the loops. *)
Definition recorded (days periods : nat) (tt : Timetable)
  : list (string * nat * nat) :=
  flat_map
    (fun kg : string * Grid =>
       flat_map
         (fun d =>
            flat_map
              (fun p => match teaches (snd kg) d p with
                        | Some t => [(t, d, p)]
                        | None => []
                        end)
              (seq 0 periods))
         (seq 0 days))
    tt.

(** Teacher [t] has a lesson, in some class, at day [d], period [p]. *)
Definition busyAt (tt : Timetable) (t : string) (d p : nat) : bool :=
  existsb (fun kg : string * Grid => bool_decide (teaches (snd kg) d p = Some t)) tt.

(** The idle gaps of teacher [t] on day [d]: the periods [p], not the first
    and not the last of the day, at which [t] is free between two lessons. *)
Definition idleGaps (periods : nat) (tt : Timetable) (t : string) (d : nat) : nat :=
  sum_list_with
    (fun p => if busyAt tt t d (p - 1) && negb (busyAt tt t d p)
                 && busyAt tt t d (p + 1)
              then 1 else 0)
    (seq 1 (periods - 2)).

(** One recorded triple, on the load map and on the usage map. *)
Definition bumpLoad (m : list (string * Z)) (ev : string * nat * nat)
  : list (string * Z) :=
  Js.mapSet m ev.1.1 (default 0%Z (Js.alGet m ev.1.1) + 1)%Z.

Definition bumpUsage (periods : nat) (u : list (string * list (nat * list bool)))
    (ev : string * nat * nat) : list (string * list (nat * list bool)) :=
  markUsage periods ev.1.1 ev.1.2 ev.2 u.

(** The lessons of teacher [t] in the scanned window, over all classes. *)
Definition lessonsOf (days periods : nat) (tt : Timetable) (t : string) : nat :=
  windowCount (fun g d p => bool_decide (teaches g d p = Some t)) days periods tt.

(** [teacherDayUsage.get(t)?.get(d)]. *)
Definition usageOf (u : list (string * list (nat * list bool))) (t : string)
    (d : nat) : option (list bool) :=
  match Js.alGet u t with
  | Some dayMap => Js.alGet dayMap d
  | None => None
  end.

(** The pattern assigned, free, assigned around position [p] of a day's
    array, counted over the positions the second pass visits. *)
Definition gapCount (dayArr : list bool) : nat :=
  sum_list_with
    (fun p => if nth (p - 1) dayArr false && negb (nth p dayArr false)
                 && nth (p + 1) dayArr false
              then 1 else 0)
    (seq 1 (length dayArr - 2)).

(** The array of booleans the first pass ends with for teacher [t] and day
    [d], built from the recorded triples. *)
Definition markAt (t : string) (d : nat) (a : list bool)
    (ev : string * nat * nat) : list bool :=
  if decide (ev.1.1 = t /\ ev.1.2 = d) then Js.arraySet false a ev.2 true else a.

Definition concerns (t : string) (d : nat) (ev : string * nat * nat) : bool :=
  bool_decide (ev.1.1 = t /\ ev.1.2 = d).

(** ** exporter.js

    [generateCSVRowsForView] reads a timetable only through optional
    chaining ([timetable?.[id]], [grid?.[d]?.[p]], [Object.entries(timetable
    || {})]): a timetable that is [null] or [undefined] behaves as the empty
    object, which is the empty list here. *)

Module Exporter.

(** The [options] argument; [None] is a field left out. *)
Record ViewOptions := mkViewOptions {
  vo_days : option nat;
  vo_periods : option nat;
  vo_dayNames : option (list string)
}.

(** [x || y] on counts: a missing value and 0 are falsy. *)
Definition orCount (x : option nat) (y : nat) : nat :=
  match x with
  | Some (S n) => S n
  | _ => y
  end.

(** [timetable && Object.values(timetable)[0]]. *)
Definition firstGrid (timetable : Timetable) : option Grid :=
  snd <$> head timetable.

Definition inferDays (timetable : Timetable) : nat :=
  orCount (length <$> firstGrid timetable) 5.

Definition inferPeriods (timetable : Timetable) : nat :=
  orCount (length <$> (firstGrid timetable ≫= head)) 6.

Definition cellToString (e : Cell) (includeTeacher : bool) : string :=
  match e with
  | None => ""
  | Some e =>
      if unassigned e then ""
      else
        let subj := subjectId e in
        let t := if includeTeacher then default "" (teacherId e) else "" in
        if includeTeacher && Js.truthyStr t then subj ++ " (" ++ t ++ ")"
        else subj
  end.

Definition weekDays : list string :=
  ["Mon"; "Tue"; "Wed"; "Thu"; "Fri"; "Sat"; "Sun"].

(** [dayNames[d] || `D${d + 1}`]. *)
Definition dayLabel (dayNames : list string) (d : nat) : string :=
  match dayNames !! d with
  | Some s => if Js.truthyStr s then s else "D" ++ pretty (d + 1)
  | None => "D" ++ pretty (d + 1)
  end.

(** The header row: ['Day', 'P1', ..., 'Pn']. *)
Definition header (periods : nat) : list string :=
  "Day" :: map (fun i => "P" ++ pretty (i + 1)) (seq 0 periods).

(** The loop over [Object.entries(timetable)] of the teacher and room
    views: the first class whose cell at (d, p) is an assigned entry with
    the wanted id gives the text, and the loop breaks. *)
Definition firstMatch (key : Entry -> option string) (timetable : Timetable)
    (id : string) (d p : nat) : string :=
  default ""
    (Js.findMap
       (fun kg : string * Grid =>
          match cellAt (snd kg) d p with
          | Some e =>
              if negb (unassigned e) && bool_decide (key e = Some id)
              then Some (fst kg ++ ":" ++ subjectId e)
              else None
          | None => None
          end)
       timetable).

Definition generateCSVRowsForView (timetable : Timetable)
    (viewType id : string) (options : ViewOptions) : list (list string) :=
  let days := orCount (vo_days options) (inferDays timetable) in
  let periods := orCount (vo_periods options) (inferPeriods timetable) in
  let dayNames := default (take days weekDays) (vo_dayNames options) in
  let body (f : nat -> nat -> string) :=
    map (fun d => dayLabel dayNames d :: map (f d) (seq 0 periods)) (seq 0 days) in
  header periods ::
  if String.eqb viewType "class" then
    body (fun d p =>
            cellToString
              (match Js.alGet timetable id with
               | Some grid => cellAt grid d p
               | None => None
               end) false)
  else if String.eqb viewType "teacher" then
    body (firstMatch teacherId timetable id)
  else if String.eqb viewType "room" then
    body (firstMatch resourceId timetable id)
  else body (fun _ _ => "").

(** The three characters [escapeCSV] looks for. *)
Definition quote : ascii := "034"%char.
Definition comma : ascii := ","%char.
Definition newline : ascii := "010"%char.

(** The test of [escapeCSV]'s regular expression: the string holds a quote,
    a comma or a newline. *)
Fixpoint needsQuotes (s : string) : bool :=
  match s with
  | EmptyString => false
  | String c r =>
      Ascii.eqb c quote || Ascii.eqb c comma || Ascii.eqb c newline
      || needsQuotes r
  end.

(** The [replace] of [escapeCSV]: every quote is written twice. *)
Fixpoint doubleQuotes (s : string) : string :=
  match s with
  | EmptyString => EmptyString
  | String c r =>
      if Ascii.eqb c quote then String quote (String quote (doubleQuotes r))
      else String c (doubleQuotes r)
  end.

Definition escapeCSV (value : string) : string :=
  if needsQuotes value
  then String quote (doubleQuotes value ++ String quote EmptyString)
  else value.

(** [parts.join(sep)]. *)
Fixpoint join (sep : string) (parts : list string) : string :=
  match parts with
  | [] => ""
  | [x] => x
  | x :: r => x ++ sep ++ join sep r
  end.

(** The text [downloadCSV] puts in the file. *)
Definition csvText (rows : list (list string)) : string :=
  join (String newline EmptyString)
       (map (fun r => join (String comma EmptyString) (map escapeCSV r)) rows).

(** How a reader of CSV sees a text: a quote switches between outside and
    inside a quoted field; [unquoted sep inQ s] counts the occurrences of
    [sep] outside quoted fields and [closes inQ s] is the state at the end. *)
Fixpoint unquoted (sep : ascii) (inQ : bool) (s : string) : nat :=
  match s with
  | EmptyString => 0
  | String c r =>
      if Ascii.eqb c quote then unquoted sep (negb inQ) r
      else (if Ascii.eqb c sep && negb inQ then 1 else 0) + unquoted sep inQ r
  end.

Fixpoint closes (inQ : bool) (s : string) : bool :=
  match s with
  | EmptyString => inQ
  | String c r => if Ascii.eqb c quote then closes (negb inQ) r else closes inQ r
  end.

End Exporter.

(** ** learn.js

    The edit log is what [logEdit] of the pages stored: entries with
    [before] and [after] (a lesson or [null]) and a [location] whose
    [period] is a period index.  A field of a lesson may be missing, [null]
    or a string; [!==] tells the three apart. *)

Module Learn.

Inductive Field :=
  | Missing
  | Null
  | Str (s : string).

#[global] Instance Field_eq_dec : EqDecision Field.
Proof. solve_decision. Defined.

Definition truthyField (f : Field) : bool :=
  match f with
  | Str s => Js.truthyStr s
  | _ => false
  end.

(** [String(f)]. *)
Definition fieldString (f : Field) : string :=
  match f with
  | Str s => s
  | Null => "null"
  | Missing => "undefined"
  end.

Record Lesson := mkLesson {
  l_subjectId : Field;
  l_teacherId : Field
}.

(** [location]: [None] if the entry has none; [period = None] if
    [Number(location.period)] is not finite, [Some n] if it is the
    index [n]. *)
Record Location := mkLocation {
  loc_period : option nat
}.

Record LogEntry := mkLogEntry {
  before : option Lesson;
  after : option Lesson;
  location : option Location
}.

(** An object of objects of numbers as association lists with distinct
    keys, kept in the order the keys were added (JavaScript lists the
    keys that are array indices first); the loops over the entries only
    write under the key they read, so the order has no effect on what a
    lookup finds. *)
Abbreviation Nested := (list (string * list (string * Z))).

(** The names every object inherits from [Object.prototype]: for these
    [mapObj[a]] is truthy although [mapObj] has no such entry. *)
Definition inherited : list string :=
  ["constructor"; "__defineGetter__"; "__defineSetter__"; "hasOwnProperty";
   "__lookupGetter__"; "__lookupSetter__"; "isPrototypeOf";
   "propertyIsEnumerable"; "toString"; "valueOf"; "__proto__";
   "toLocaleString"].

(** [incNested(mapObj, a, b)], for a key [a] that is not inherited. *)
Definition incNested (mapObj : Nested) (a b : string) : Nested :=
  let m1 := match Js.alGet mapObj a with
            | Some _ => mapObj
            | None => Js.objSet mapObj a []
            end in
  let inner := default [] (Js.alGet m1 a) in
  Js.alReplace m1 a (Js.objSet inner b (default 0%Z (Js.alGet inner b) + 1)%Z).

(** The test that counts a move away:
    [before && (after == null || before.subjectId !== after.subjectId
                || before.teacherId !== after.teacherId)]. *)
Definition movedAway (e : LogEntry) : option Lesson :=
  match before e with
  | None => None
  | Some b =>
      match after e with
      | None => Some b
      | Some a =>
          if negb (bool_decide (l_subjectId b = l_subjectId a))
             || negb (bool_decide (l_teacherId b = l_teacherId a))
          then Some b else None
      end
  end.

Record Aggregates := mkAggregates {
  teacherPeriodMoves : Nested;
  subjectPeriodMoves : Nested
}.

(** One turn of the loop of [getAggregates]; [None] is a [null] entry. *)
Definition aggregateStep (acc : Aggregates) (entry : option LogEntry)
  : Aggregates :=
  match entry with
  | None => acc
  | Some e =>
      match location e with
      | None => acc
      | Some loc =>
          match loc_period loc with
          | None => acc
          | Some period =>
              match movedAway e with
              | None => acc
              | Some b =>
                  let t := if truthyField (l_teacherId b)
                           then incNested (teacherPeriodMoves acc)
                                  (fieldString (l_teacherId b)) (pretty period)
                           else teacherPeriodMoves acc in
                  let s := if truthyField (l_subjectId b)
                           then incNested (subjectPeriodMoves acc)
                                  (fieldString (l_subjectId b)) (pretty period)
                           else subjectPeriodMoves acc in
                  mkAggregates t s
              end
          end
      end
  end.

(** [getAggregates()], given what [loadEditLogs()] returns. *)
Definition getAggregates (logs : list (option LogEntry)) : Aggregates :=
  fold_left aggregateStep logs (mkAggregates [] []).

(** [if (!out[id]) out[id] = {}; out[id][Number(per)] = v]: [per] is the
    decimal string of an index, which [Number] and the property access
    turn back into itself. *)
Definition setNested (out : Nested) (id per : string) (v : Z) : Nested :=
  let o1 := match Js.alGet out id with
            | Some _ => out
            | None => Js.objSet out id []
            end in
  Js.alReplace o1 id (Js.objSet (default [] (Js.alGet o1 id)) per v).

(** The two loops of [getPreferencePenalties] over one aggregate. *)
Definition penaltiesOf (weight : Z) (moves : Nested) : Nested :=
  fold_left
    (fun out (kv : string * list (string * Z)) =>
       fold_left
         (fun out (pc : string * Z) =>
            if (2 <=? snd pc)%Z
            then setNested out (fst kv) (fst pc) (snd pc * weight)%Z
            else out)
         (snd kv) out)
    moves [].

Record Penalties := mkPenalties {
  teacherPeriods : Nested;
  subjectPeriods : Nested
}.

Definition getPreferencePenalties (logs : list (option LogEntry)) : Penalties :=
  let agg := getAggregates logs in
  mkPenalties (penaltiesOf 5 (teacherPeriodMoves agg))
              (penaltiesOf 3 (subjectPeriodMoves agg)).

(** [obj[a]?.[b]]. *)
Definition lookup2 (m : Nested) (a b : string) : option Z :=
  match Js.alGet m a with
  | Some inner => Js.alGet inner b
  | None => None
  end.

(** The log entries that count as a move away from [id] at period [n]. *)
Definition movesFrom (field : Lesson -> Field) (id : string) (n : nat)
    (logs : list (option LogEntry)) : nat :=
  sum_list_with
    (fun entry : option LogEntry =>
       match entry with
       | Some e =>
           match location e, movedAway e with
           | Some loc, Some b =>
               if bool_decide (loc_period loc = Some n)
                  && bool_decide (field b = Str id)
               then 1 else 0
           | _, _ => 0
           end
       | None => 0
       end)
    logs.

(** No id of the log is a name inherited from [Object.prototype]. *)
Definition plainIds (logs : list (option LogEntry)) : Prop :=
  forall e b s,
    Some e ∈ logs -> before e = Some b ->
    l_teacherId b = Str s \/ l_subjectId b = Str s -> s ∉ inherited.

(** Both levels keep their keys distinct. *)
Definition wfNested (m : Nested) : Prop :=
  NoDup m.*1 /\ forall a inner, Js.alGet m a = Some inner -> NoDup inner.*1.

(** A small log: Math with [t1] was twice moved away from period 2 (once
    cleared, once replaced), once confirmed unchanged; one entry is [null]. *)
Definition demoLogs : list (option LogEntry) :=
  let math := mkLesson (Str "s1") (Str "t1") in
  [Some (mkLogEntry (Some math) None (Some (mkLocation (Some 2))));
   Some (mkLogEntry (Some math) (Some (mkLesson (Str "s2") Null))
                    (Some (mkLocation (Some 2))));
   None;
   Some (mkLogEntry (Some math) (Some math) (Some (mkLocation (Some 2))))].

End Learn.

(** ** validator.js

    [validateSchoolData] is given whatever the form or [JSON.parse]
    produced, so its argument is an untyped value here.  Of a number the
    validator only asks whether it is [<= 0], [< 0] or equal to the length
    of an array: a number is a whole number, a number that is not whole
    (with its sign; the infinities are among them) or [NaN].  The text a
    template literal makes of an arbitrary value, [String(v)], is left
    open as [toStr]. *)

Module Validator.

Inductive Num :=
  | Whole (z : Z)
  | Broken (positive : bool)
  | NaN.

Inductive Value :=
  | Undefined
  | Null
  | Bool (b : bool)
  | Number (n : Num)
  | Text (s : string)
  | Arr (items : list Value)
  | Obj (fields : list (string * Value)).

(** [!!v]. *)
Definition truthy (v : Value) : bool :=
  match v with
  | Undefined | Null => false
  | Bool b => b
  | Number (Whole z) => negb (z =? 0)%Z
  | Number (Broken _) => true
  | Number NaN => false
  | Text s => Js.truthyStr s
  | Arr _ | Obj _ => true
  end.

(** [typeof v === 'object']. *)
Definition isObject (v : Value) : bool :=
  match v with
  | Null | Arr _ | Obj _ => true
  | _ => false
  end.

(** [v.k] for one of the field names the validator reads, on a value
    that passed the object test. *)
Definition field (v : Value) (k : string) : Value :=
  match v with
  | Obj o => default Undefined (Js.alGet o k)
  | _ => Undefined
  end.

Definition leq0 (n : Num) : bool :=
  match n with
  | Whole z => (z <=? 0)%Z
  | Broken positive => negb positive
  | NaN => false
  end.

Definition lt0 (n : Num) : bool :=
  match n with
  | Whole z => (z <? 0)%Z
  | Broken positive => negb positive
  | NaN => false
  end.

(** [!(typeof v !== 'number' || v <= 0)]. *)
Definition positiveNumber (v : Value) : bool :=
  match v with
  | Number n => negb (leq0 n)
  | _ => false
  end.

(** [!(typeof v !== 'number' || v < 0)]. *)
Definition nonNegativeNumber (v : Value) : bool :=
  match v with
  | Number n => negb (lt0 n)
  | _ => false
  end.

(** [!(typeof v !== 'string' || !v)]. *)
Definition nonEmptyString (v : Value) : bool :=
  match v with
  | Text s => Js.truthyStr s
  | _ => false
  end.

(** [len === v] for the length [len] of an array. *)
Definition isLength (len : nat) (v : Value) : bool :=
  match v with
  | Number (Whole z) => (z =? Z.of_nat len)%Z
  | _ => false
  end.

(** [!(!Array.isArray(v) || v.length === 0)]. *)
Definition nonEmptyArray (v : Value) : bool :=
  match v with
  | Arr (_ :: _) => true
  | _ => false
  end.

Definition isBoolean (v : Value) : bool :=
  match v with
  | Bool _ => true
  | _ => false
  end.

(** [Object.keys(v)] with the values, for a truthy value of type object. *)
Definition entriesOf (v : Value) : list (string * Value) :=
  match v with
  | Obj o => o
  | Arr items => imap (fun i x => (pretty i, x)) items
  | _ => []
  end.

(** One error if the test fails. *)
Definition unless (ok : bool) (message : string) : list string :=
  if ok then [] else [message].

(** The index of the first element that is not a boolean. *)
Fixpoint firstNonBoolean (p : nat) (cells : list Value) : option nat :=
  match cells with
  | [] => None
  | c :: r => if isBoolean c then firstNonBoolean (S p) r else Some p
  end.

Section Validate.
Variable toStr : Value -> string.

Local Notation "l ++ₗ k" := (@app string l k) (at level 60, right associativity).

Definition checkSubject (i : nat) (s : Value) : list string :=
  let at_ := "subjects[" ++ pretty i ++ "]" in
  if negb (truthy s) || negb (isObject s) then [at_ ++ ": invalid"]
  else
    unless (nonEmptyString (field s "id")) (at_ ++ ".id") ++ₗ
    unless (nonEmptyString (field s "name")) (at_ ++ ".name") ++ₗ
    unless (nonNegativeNumber (field s "weeklyPeriods")) (at_ ++ ".weeklyPeriods").

Definition checkDay (i : nat) (periodsPerDay : Value) (d : nat)
    (dayArr : Value) : list string :=
  let at_ := "teachers[" ++ pretty i ++ "].availability[" ++ pretty d ++ "]" in
  match dayArr with
  | Arr cells =>
      if isLength (length cells) periodsPerDay then
        match firstNonBoolean 0 cells with
        | Some p => [at_ ++ "[" ++ pretty p ++ "]: boolean"]
        | None => []
        end
      else [at_ ++ ": " ++ toStr periodsPerDay ++ " periods"]
  | _ => [at_ ++ ": " ++ toStr periodsPerDay ++ " periods"]
  end.

Definition checkAvailability (i : nat) (workingDays periodsPerDay : Value)
    (availability : Value) : list string :=
  let message :=
    "teachers[" ++ pretty i ++ "].availability: " ++ toStr workingDays ++ " days" in
  match availability with
  | Arr rows =>
      if isLength (length rows) workingDays
      then mjoin (imap (checkDay i periodsPerDay) rows)
      else [message]
  | _ => [message]
  end.

Definition checkTeacher (workingDays periodsPerDay : Value) (i : nat)
    (t : Value) : list string :=
  let at_ := "teachers[" ++ pretty i ++ "]" in
  if negb (truthy t) || negb (isObject t) then [at_ ++ ": invalid"]
  else
    unless (nonEmptyString (field t "id")) (at_ ++ ".id") ++ₗ
    unless (nonEmptyString (field t "name")) (at_ ++ ".name") ++ₗ
    unless (nonEmptyArray (field t "subjects")) (at_ ++ ".subjects") ++ₗ
    unless (positiveNumber (field t "maxLoad")) (at_ ++ ".maxLoad") ++ₗ
    checkAvailability i workingDays periodsPerDay (field t "availability").

(** The part of [checkClass] on [c.subjects]. *)
Definition checkMapping (at_ : string) (subjects : Value) : list string :=
  if negb (truthy subjects) || negb (isObject subjects)
  then [at_ ++ ".subjects: mapping"]
  else
    unless (negb (bool_decide (entriesOf subjects = [])))
           (at_ ++ ".subjects: empty") ++ₗ
    mjoin (map (fun kv : string * Value =>
                  unless (nonNegativeNumber (snd kv))
                         (at_ ++ ".subjects['" ++ fst kv ++ "']"))
               (entriesOf subjects)).

Definition checkClass (i : nat) (c : Value) : list string :=
  let at_ := "classes[" ++ pretty i ++ "]" in
  if negb (truthy c) || negb (isObject c) then [at_ ++ ": invalid"]
  else
    unless (nonEmptyString (field c "id")) (at_ ++ ".id") ++ₗ
    unless (nonEmptyString (field c "name")) (at_ ++ ".name") ++ₗ
    checkMapping at_ (field c "subjects").

(** [if (!Array.isArray(v) || v.length === 0) push(...) else v.forEach(...)]. *)
Definition eachOf (name : string) (check : nat -> Value -> list string)
    (v : Value) : list string :=
  match v with
  | Arr (x :: r) => mjoin (imap check (x :: r))
  | _ => [name ++ ": non-empty array"]
  end.

Record Verdict := mkVerdict {
  valid : bool;
  errors : list string
}.

Definition validateSchoolData (obj : Value) : Verdict :=
  if negb (truthy obj) || negb (isObject obj)
  then mkVerdict false ["Invalid data object"]
  else
    let workingDays := field obj "workingDays" in
    let periodsPerDay := field obj "periodsPerDay" in
    let errors :=
      unless (positiveNumber workingDays) "workingDays: positive number" ++ₗ
      unless (positiveNumber periodsPerDay) "periodsPerDay: positive number" ++ₗ
      eachOf "subjects" checkSubject (field obj "subjects") ++ₗ
      eachOf "teachers" (checkTeacher workingDays periodsPerDay)
             (field obj "teachers") ++ₗ
      eachOf "classes" checkClass (field obj "classes") in
    mkVerdict (bool_decide (errors = [])) errors.
End Validate.

(** What a valid configuration looks like. *)
Definition record (v : Value) : Prop := truthy v = true /\ isObject v = true.

Definition subjectOk (s : Value) : Prop :=
  record s /\ nonEmptyString (field s "id") = true /\
  nonEmptyString (field s "name") = true /\
  nonNegativeNumber (field s "weeklyPeriods") = true.

(** An array of [days] arrays of [periods] booleans each. *)
Definition matrix (days periods : nat) (v : Value) : Prop :=
  exists rows,
    v = Arr rows /\ length rows = days /\
    Forall (fun r => exists cells,
                r = Arr cells /\ length cells = periods /\
                Forall (fun c => isBoolean c = true) cells) rows.

Definition teacherOk (days periods : nat) (t : Value) : Prop :=
  record t /\ nonEmptyString (field t "id") = true /\
  nonEmptyString (field t "name") = true /\
  nonEmptyArray (field t "subjects") = true /\
  positiveNumber (field t "maxLoad") = true /\
  matrix days periods (field t "availability").

Definition classOk (c : Value) : Prop :=
  record c /\ nonEmptyString (field c "id") = true /\
  nonEmptyString (field c "name") = true /\
  record (field c "subjects") /\
  entriesOf (field c "subjects") <> [] /\
  Forall (fun kv : string * Value => nonNegativeNumber (snd kv) = true)
         (entriesOf (field c "subjects")).

Definition wellFormed (obj : Value) : Prop :=
  record obj /\
  exists (days periods : nat) (subjects teachers classes : list Value),
    0 < days /\ 0 < periods /\
    field obj "workingDays" = Number (Whole (Z.of_nat days)) /\
    field obj "periodsPerDay" = Number (Whole (Z.of_nat periods)) /\
    field obj "subjects" = Arr subjects /\ subjects <> [] /\
    Forall subjectOk subjects /\
    field obj "teachers" = Arr teachers /\ teachers <> [] /\
    Forall (teacherOk days periods) teachers /\
    field obj "classes" = Arr classes /\ classes <> [] /\
    Forall classOk classes.

End Validator.


(** ** The availability grids of the setup page

    [makeDefaultAvailability] and the [ensureGrid] of [normalizeFormData],
    for a whole number of days and of periods, on the values of the
    validator. *)

Module Setup.
Import Validator.

Definition makeDefaultAvailability (days periods : nat) : Value :=
  Arr (replicate days (Arr (replicate periods (Bool true)))).

(** [v ?? true]; [None] is the [undefined] read past the end of a row. *)
Definition orTrue (v : option Value) : Value :=
  match v with
  | None | Some Undefined | Some Null => Bool true
  | Some x => x
  end.

Definition ensureGrid (workingDays periodsPerDay : nat) (grid : Value) : Value :=
  match grid with
  | Arr rows =>
      if bool_decide (length rows = workingDays) then
        Arr (map (fun d =>
                    let row := match rows !! d with
                               | Some (Arr r) => r
                               | _ => []
                               end in
                    Arr (map (fun p => orTrue (row !! p)) (seq 0 periodsPerDay)))
                 (seq 0 workingDays))
      else makeDefaultAvailability workingDays periodsPerDay
  | _ => makeDefaultAvailability workingDays periodsPerDay
  end.

(** A cell that [ensureGrid] turns into, or leaves, a boolean. *)
Definition booleanOrAbsent (v : Value) : bool :=
  match v with
  | Bool _ | Null | Undefined => true
  | _ => false
  end.

(** Every cell of every row that is an array is a boolean or absent. *)
Definition repairable (grid : Value) : Prop :=
  forall rows d cells,
    grid = Arr rows -> rows !! d = Some (Arr cells) ->
    Forall (fun c => booleanOrAbsent c = true) cells.

(** Three days of two periods: a short row, a row that is no array and a
    row with a [null]. *)
Definition patchyGrid : Value :=
  Arr [Arr [Bool false]; Text "free"; Arr [Null; Bool false; Bool true]].

End Setup.

(** * Properties *)

(** ** Association lists *)

Section AListFacts.
Context {K V : Type} `{EqDecision K}.
Implicit Types (m : list (K * V)) (k : K) (v : V).

Lemma alGet_alReplace m k v k' :
  Js.alGet (Js.alReplace m k v) k' =
  if decide (k = k') then (fun _ => v) <$> Js.alGet m k else Js.alGet m k'.
Proof.
  induction m as [|[k0 v0] m IH]; simpl.
  - by case_decide.
  - destruct (decide (k = k0)) as [->|Hk]; simpl.
    + destruct (decide (k' = k0)) as [->|Hk'].
      * by rewrite decide_True.
      * rewrite decide_False; [done | congruence].
    + destruct (decide (k' = k0)) as [->|Hk'].
      * by rewrite decide_False.
      * apply IH.
Qed.

Lemma alReplace_keys m k v : (Js.alReplace m k v).*1 = m.*1.
Proof.
  induction m as [|[k0 v0] m IH]; simpl; [done|].
  case_decide; csimpl; [done | by rewrite IH].
Qed.

Lemma alReplace_id m k v : Js.alGet m k = Some v -> Js.alReplace m k v = m.
Proof.
  induction m as [|[k0 v0] m IH]; simpl; [done|].
  case_decide; [by intros [= ->] | intros; by rewrite IH].
Qed.

Lemma alReplace_alReplace m k v v' :
  Js.alReplace (Js.alReplace m k v) k v' = Js.alReplace m k v'.
Proof.
  induction m as [|[k0 v0] m IH]; simpl; [done|].
  case_decide; simpl; rewrite ?decide_True, ?decide_False by done; [done|].
  by rewrite IH.
Qed.

Lemma alGet_Some_elem m k v : Js.alGet m k = Some v -> (k, v) ∈ m.
Proof.
  induction m as [|[k0 v0] m IH]; simpl; [done|].
  case_decide; [intros [= ->]; subst; left | intros; right; auto].
Qed.

Lemma alGet_None m k : Js.alGet m k = None <-> k ∉ m.*1.
Proof.
  induction m as [|[k0 v0] m IH]; csimpl.
  - split; [set_solver | done].
  - case_decide; subst; split; try done; set_solver.
Qed.

Lemma elem_alGet m k v : NoDup m.*1 -> (k, v) ∈ m -> Js.alGet m k = Some v.
Proof.
  induction m as [|[k0 v0] m IH]; csimpl; [set_solver|].
  rewrite NoDup_cons. intros [Hk0 Hnd] Hin.
  apply elem_of_cons in Hin as [[= -> ->]|Hin].
  - by rewrite decide_True.
  - rewrite decide_False; [auto|]. intros ->. apply Hk0.
    apply list_elem_of_fmap. by exists (k0, v).
Qed.

(** Two association lists with the same keys, in the same order and
    without repetition, that agree on every lookup are equal. *)
Lemma alist_ext m m' :
  NoDup m.*1 -> m.*1 = m'.*1 ->
  (forall k, Js.alGet m k = Js.alGet m' k) -> m = m'.
Proof.
  revert m'. induction m as [|[k0 v0] m IH]; intros [|[k1 v1] m']; csimpl;
    try done.
  rewrite NoDup_cons. intros [Hk0 Hnd] [= <- Hks] Hget.
  pose proof (Hget k0) as H0. rewrite !decide_True in H0 by done.
  injection H0 as <-. f_equal. apply IH; [done..|].
  intros k. destruct (decide (k = k0)) as [->|Hne].
  - transitivity (@None V); [|symmetry]; apply alGet_None; [done|].
    by rewrite <- Hks.
  - specialize (Hget k). by rewrite !decide_False in Hget.
Qed.

Lemma mapSet_keys_NoDup m k v : NoDup m.*1 -> NoDup (Js.mapSet m k v).*1.
Proof.
  unfold Js.mapSet. destruct (Js.alGet m k) eqn:E; intros Hnd.
  - by rewrite alReplace_keys.
  - rewrite fmap_app. apply NoDup_app. split; [done|]. split.
    + intros x Hx. simpl. apply alGet_None in E. set_solver.
    + simpl. apply NoDup_singleton.
Qed.
End AListFacts.

Lemma objInsert_keys {V} (o : list (string * V)) k v :
  (Js.objInsert o k v).*1 ≡ₚ k :: o.*1.
Proof.
  induction o as [|[k0 v0] o IH]; csimpl; [done|].
  case_match; csimpl; [done|]. rewrite IH. apply Permutation_swap.
Qed.

Lemma objSet_keys_NoDup {V} (o : list (string * V)) k v :
  NoDup o.*1 -> NoDup (Js.objSet o k v).*1.
Proof.
  unfold Js.objSet. destruct (Js.alGet o k) eqn:E; intros Hnd.
  - by rewrite alReplace_keys.
  - rewrite objInsert_keys. apply NoDup_cons. split; [|done].
    by apply alGet_None.
Qed.

Lemma alGet_objInsert {V} (o : list (string * V)) k v k' :
  Js.alGet o k = None ->
  Js.alGet (Js.objInsert o k v) k' =
  if decide (k = k') then Some v else Js.alGet o k'.
Proof.
  induction o as [|[k0 v0] o IH]; simpl.
  - intros _. destruct (decide (k' = k)), (decide (k = k')); congruence.
  - destruct (decide (k = k0)) as [|Hk]; [done|]. intros Hget.
    destruct (Js.keyBefore k k0); simpl.
    + destruct (decide (k' = k)), (decide (k = k')); congruence.
    + rewrite IH by done.
      destruct (decide (k' = k0)), (decide (k = k')); congruence.
Qed.

Lemma alGet_objSet {V} (o : list (string * V)) k v k' :
  Js.alGet (Js.objSet o k v) k' =
  if decide (k = k') then Some v else Js.alGet o k'.
Proof.
  unfold Js.objSet. destruct (Js.alGet o k) eqn:E.
  - rewrite alGet_alReplace, E. done.
  - by apply alGet_objInsert.
Qed.

(** Assigning to a key the object already has replaces the value in place. *)
Lemma objSet_present {V} (o : list (string * V)) k v :
  k ∈ o.*1 -> Js.objSet o k v = Js.alReplace o k v.
Proof.
  intros Hin. unfold Js.objSet. destruct (Js.alGet o k) eqn:E; [done|].
  by apply alGet_None in E.
Qed.

(** ** Loops that return early, and sorting *)

Lemma findMap_Some {A B} (f : A -> option B) l y :
  Js.findMap f l = Some y -> exists x, x ∈ l /\ f x = Some y.
Proof.
  induction l as [|x l IH]; simpl; [done|].
  destruct (f x) eqn:E.
  - intros [= ->]. exists x. split; [left | done].
  - intros Hy. destruct (IH Hy) as (x' & ? & ?). exists x'. split; [by right | done].
Qed.

Lemma findMap_None {A B} (f : A -> option B) l :
  Js.findMap f l = None -> forall x, x ∈ l -> f x = None.
Proof.
  induction l as [|x l IH]; simpl; [set_solver|].
  destruct (f x) eqn:E; [done|]. intros Hn x' [->|Hin]%elem_of_cons; auto.
Qed.

Lemma insertBy_perm {A} (cmp : A -> A -> Z) x l : Js.insertBy cmp x l ≡ₚ x :: l.
Proof.
  induction l as [|y l IH]; simpl; [done|].
  case_match; [done|]. rewrite IH. apply Permutation_swap.
Qed.

Lemma sortBy_perm {A} (cmp : A -> A -> Z) l : Js.sortBy cmp l ≡ₚ l.
Proof.
  induction l as [|x l IH]; simpl; [done|].
  by rewrite insertBy_perm, IH.
Qed.

(** ** Reading and writing grid cells *)

Lemma cellAt_rowAt g d p : cellAt g d p = rowAt (default [] (g !! d)) p.
Proof. unfold cellAt, rowAt. by destruct (g !! d) as [row|]. Qed.

Lemma rowAt_arraySet row p v p' :
  rowAt (Js.arraySet None row p v) p' = if decide (p = p') then v else rowAt row p'.
Proof.
  unfold rowAt, Js.arraySet. destruct (Nat.ltb_spec p (length row)) as [Hlt|Hge].
  - destruct (decide (p = p')) as [<-|Hne].
    + by rewrite list_lookup_insert_eq.
    + by rewrite list_lookup_insert_ne.
  - destruct (decide (p = p')) as [<-|Hne].
    + rewrite lookup_app_r by lia.
      rewrite lookup_app_r by (rewrite length_replicate; lia).
      rewrite length_replicate. by replace (p - length row - (p - length row)) with 0 by lia.
    + destruct (decide (p' < length row)) as [Hin|Hout].
      * by rewrite lookup_app_l.
      * rewrite lookup_app_r by lia. rewrite (lookup_ge_None_2 row) by lia.
        destruct (decide (p' < p)) as [Hlo|Hhi].
        -- rewrite lookup_app_l by (rewrite length_replicate; lia).
           by rewrite lookup_replicate_2 by lia.
        -- rewrite lookup_app_r by (rewrite length_replicate; lia).
           rewrite length_replicate.
           destruct (p' - length row - (p - length row)) eqn:E; [lia | done].
Qed.

Lemma length_setCell g d p v : length (setCell g d p v) = length g.
Proof. unfold setCell. destruct (g !! d); [apply length_insert | done]. Qed.

Lemma cellAt_setCell g d p v d' p' :
  cellAt (setCell g d p v) d' p' =
  if decide (d = d' /\ p = p' /\ d < length g) then v else cellAt g d' p'.
Proof.
  unfold setCell. destruct (g !! d) as [row|] eqn:E.
  - pose proof (lookup_lt_Some _ _ _ E) as Hlt. rewrite !cellAt_rowAt.
    destruct (decide (d = d')) as [<-|Hne].
    + rewrite list_lookup_insert_eq by done. rewrite E. simpl.
      rewrite rowAt_arraySet. destruct (decide (p = p')).
      * by rewrite decide_True.
      * rewrite decide_False; [done | tauto].
    + rewrite list_lookup_insert_ne by done. rewrite decide_False; [done | tauto].
  - apply lookup_ge_None_1 in E. rewrite decide_False; [done | lia].
Qed.

Lemma alGet_ttSet tt c d p v c' :
  Js.alGet (ttSet tt c d p v) c' =
  if decide (c = c') then (fun g => setCell g d p v) <$> Js.alGet tt c
  else Js.alGet tt c'.
Proof.
  unfold ttSet. destruct (Js.alGet tt c) as [g|] eqn:E.
  - rewrite alGet_alReplace, E. done.
  - case_decide; [by subst | done].
Qed.

Lemma ttSet_keys tt c d p v : (ttSet tt c d p v).*1 = tt.*1.
Proof. unfold ttSet. destruct (Js.alGet tt c); [apply alReplace_keys | done]. Qed.

Lemma inShape_ttSet tt c d p v c' d' :
  inShape (ttSet tt c d p v) c' d' <-> inShape tt c' d'.
Proof.
  unfold inShape. setoid_rewrite alGet_ttSet. destruct (decide (c = c')) as [<-|].
  - destruct (Js.alGet tt c) as [g|]; simpl.
    + split; intros (g' & [= <-] & Hd); eexists; split; try done.
      * by rewrite length_setCell in Hd.
      * by rewrite length_setCell.
    + split; intros (? & ? & ?); done.
  - done.
Qed.

Lemma cell_ttSet tt c d p v c' d' p' :
  inShape tt c d ->
  cell (ttSet tt c d p v) c' d' p' =
  if decide ((c, d, p) = (c', d', p')) then v else cell tt c' d' p'.
Proof.
  intros (g & Hg & Hd). unfold cell. rewrite alGet_ttSet.
  destruct (decide (c = c')) as [<-|Hc].
  - rewrite Hg. simpl. rewrite cellAt_setCell.
    destruct (decide (d = d' /\ p = p' /\ d < length g)) as [(<- & <- & _)|Hn].
    + by rewrite decide_True.
    + rewrite decide_False; [done|]. intros [= <- <-]. tauto.
  - rewrite decide_False; [done | congruence].
Qed.

(** ** Counting cells *)

Lemma sum_list_with_insert {A} (f : A -> nat) (l : list A) i x y :
  l !! i = Some x ->
  sum_list_with f (<[i:=y]> l) + f x = sum_list_with f l + f y.
Proof.
  revert i. induction l as [|z l IH]; intros [|i]; simpl; try done.
  - intros [= ->]. lia.
  - intros Hi. specialize (IH _ Hi). lia.
Qed.

Lemma sum_list_with_zero {A} (f : A -> nat) (l : list A) :
  (forall x, x ∈ l -> f x = 0) -> sum_list_with f l = 0.
Proof.
  induction l as [|x l IH]; simpl; [done|]. intros H.
  rewrite (H x), IH; [done | | left]. intros y Hy. apply H. by right.
Qed.

Lemma countRow_arraySet P row p v :
  countRow P (Js.arraySet None row p v) + hits P (rowAt row p) =
  countRow P row + hits P v.
Proof.
  unfold countRow, rowAt, Js.arraySet.
  destruct (Nat.ltb_spec p (length row)) as [Hlt|Hge].
  - destruct (lookup_lt_is_Some_2 _ _ Hlt) as [c Hc]. rewrite Hc. simpl.
    by apply sum_list_with_insert.
  - rewrite (lookup_ge_None_2 row) by done. simpl.
    rewrite !sum_list_with_app.
    rewrite (sum_list_with_zero _ (replicate _ _)); [simpl; lia|].
    by intros x [-> _]%elem_of_replicate.
Qed.

Lemma countGrid_setCell P g d p v :
  countGrid P (setCell g d p v) + hits P (cellAt g d p) =
  countGrid P g + (if decide (d < length g) then hits P v else 0).
Proof.
  unfold countGrid, setCell. rewrite cellAt_rowAt.
  destruct (g !! d) as [row|] eqn:E; simpl.
  - rewrite decide_True by by eapply lookup_lt_Some.
    pose proof (countRow_arraySet P row p v) as Hrow.
    pose proof (sum_list_with_insert (countRow P) g d row
                  (Js.arraySet None row p v) E).
    lia.
  - apply lookup_ge_None_1 in E. rewrite decide_False by lia.
    unfold rowAt. simpl. lia.
Qed.

Lemma countCells_alReplace P tt c g g' :
  Js.alGet tt c = Some g ->
  countCells P (Js.alReplace tt c g') + countGrid P g =
  countCells P tt + countGrid P g'.
Proof.
  unfold countCells. induction tt as [|[k0 g0] tt IH]; simpl; [done|].
  case_decide; csimpl.
  - intros [= ->]. lia.
  - intros Hg. specialize (IH Hg). lia.
Qed.

Lemma countCells_ttSet P tt c d p v :
  inShape tt c d ->
  countCells P (ttSet tt c d p v) + hits P (cell tt c d p) =
  countCells P tt + hits P v.
Proof.
  intros (g & Hg & Hd). unfold ttSet, cell. rewrite Hg.
  pose proof (countCells_alReplace P tt c g (setCell g d p v) Hg).
  pose proof (countGrid_setCell P g d p v) as Hs.
  rewrite decide_True in Hs by done. lia.
Qed.

(** ** What [applySwap] does to the cells

    [moveEntry] is four writes; the last write to a cell is the one read. *)

Ltac case_decides :=
  repeat match goal with
         | |- context [decide ?P] => destruct (decide P)
         end;
  try reflexivity;
  try (exfalso; intuition (simplify_eq; eauto; lia)).

Lemma withHead_withHead e h h' : withHead (withHead e h) h' = withHead e h'.
Proof. done. Qed.

Lemma inShape_moveEntry tt src dst c d :
  inShape (moveEntry tt src dst) c d <-> inShape tt c d.
Proof.
  unfold moveEntry. destruct (cell tt _ _ _) as [e|]; [|done].
  destruct (double e); by rewrite !inShape_ttSet.
Qed.

Lemma moveEntry_keys tt src dst : (moveEntry tt src dst).*1 = tt.*1.
Proof.
  unfold moveEntry. destruct (cell tt _ _ _) as [e|]; [|done].
  destruct (double e); by rewrite !ttSet_keys.
Qed.

Lemma cell_moveEntry tt src dst e c d p :
  inShape tt (classId src) (day src) -> inShape tt (classId dst) (day dst) ->
  cell tt (classId src) (day src) (period src) = Some e ->
  cell (moveEntry tt src dst) c d p =
    if decide (double e = true /\ (c, d, p) = nextOf dst)
    then Some (withHead e (Some false))
    else if decide ((c, d, p) = posOf dst)
    then Some (withHead e (if double e then Some true else None))
    else if decide (double e = true /\ (c, d, p) = nextOf src) then None
    else if decide ((c, d, p) = posOf src) then None
    else cell tt c d p.
Proof.
  intros Hs Hd He. unfold moveEntry, nextOf, posOf. rewrite He.
  destruct (double e) eqn:Hdbl.
  - rewrite !cell_ttSet by by rewrite ?inShape_ttSet.
    case_decides.
  - rewrite !cell_ttSet by by rewrite ?inShape_ttSet.
    case_decides.
Qed.

Lemma cell_applySwap tt a b e c d p :
  inShape tt (classId a) (day a) -> inShape tt (classId b) (day b) ->
  cell tt (classId a) (day a) (period a) = Some e ->
  cell (applySwap a b tt) c d p =
    if decide (double e = true /\ (c, d, p) = nextOf a)
    then Some (withHead e (Some false))
    else if decide ((c, d, p) = posOf a)
    then Some (withHead e (if double e then Some true else None))
    else if decide (double e = true /\ (c, d, p) = nextOf b) then None
    else if decide ((c, d, p) = posOf b) then None
    else cell tt c d p.
Proof.
  intros Ha Hb He. unfold applySwap.
  set (e1 := withHead e (if double e then Some true else None)).
  assert (cell (moveEntry tt a b) (classId b) (day b) (period b) = Some e1) as H1.
  { rewrite (cell_moveEntry tt a b e) by done. unfold nextOf, posOf.
    rewrite decide_False by (intros [_ [=]]; lia). by rewrite decide_True. }
  rewrite (cell_moveEntry _ b a e1) by by rewrite ?inShape_moveEntry.
  rewrite (cell_moveEntry tt a b e) by done.
  change (double e1) with (double e). unfold e1. rewrite !withHead_withHead.
  case_decides.
Qed.

Lemma wfTT_ttSet days tt c d p v : wfTT days tt -> wfTT days (ttSet tt c d p v).
Proof.
  intros [Hnd Hlen]. split; [by rewrite ttSet_keys|].
  intros c' g'. rewrite alGet_ttSet. case_decide; [|apply Hlen].
  destruct (Js.alGet tt c) as [g|] eqn:E; [|done]. intros [= <-].
  rewrite length_setCell. eauto.
Qed.

Lemma wfTT_moveEntry days tt src dst :
  wfTT days tt -> wfTT days (moveEntry tt src dst).
Proof.
  intros Hwf. unfold moveEntry. destruct (cell tt _ _ _) as [e|]; [|done].
  destruct (double e); auto using wfTT_ttSet.
Qed.

Lemma wfTT_applySwap days tt a b : wfTT days tt -> wfTT days (applySwap a b tt).
Proof. intros. by do 2 apply wfTT_moveEntry. Qed.

Lemma wfTT_inShape days tt c g d :
  wfTT days tt -> Js.alGet tt c = Some g -> d < days -> inShape tt c d.
Proof. intros [_ Hlen] Hg Hd. exists g. split; [done|]. by rewrite (Hlen _ _ Hg). Qed.

Lemma alGet_moveEntry_other tt src dst k :
  k <> classId src -> k <> classId dst ->
  Js.alGet (moveEntry tt src dst) k = Js.alGet tt k.
Proof.
  intros Hs Hd. unfold moveEntry. destruct (cell tt _ _ _) as [e|]; [|done].
  destruct (double e); rewrite !alGet_ttSet; by rewrite !decide_False.
Qed.

(** ** The pool of the optimizer *)

Lemma secondHalf_false e :
  secondHalf e = false -> double e = true -> headOfDouble e <> Some false.
Proof.
  unfold secondHalf. intros H Hd. rewrite Hd in H. simpl in H.
  by apply bool_decide_eq_false in H.
Qed.

Lemma pool_elem tt data a :
  NoDup tt.*1 -> a ∈ collectAssignedSlots tt data ->
  exists g, Js.alGet tt (classId a) = Some g /\
            day a < workingDays data /\ period a < periodsPerDay data /\
            cell tt (classId a) (day a) (period a) = Some (entry a) /\
            unassigned (entry a) = false /\ secondHalf (entry a) = false.
Proof.
  intros Hnd Hin. unfold collectAssignedSlots in Hin.
  apply list_elem_of_In, in_flat_map in Hin as ([k g] & Hkg & Hin).
  apply in_flat_map in Hin as (d & Hd & Hin).
  apply in_flat_map in Hin as (p & Hp & Hin).
  apply in_seq in Hd, Hp. simpl in Hin.
  destruct (cellAt g d p) as [e|] eqn:Hc; [|done].
  destruct (unassigned e) eqn:Hu; [done|].
  destruct (secondHalf e) eqn:Hh; [done|].
  destruct Hin as [<-|[]]. simpl. exists g.
  assert (Js.alGet tt k = Some g) as Hg
    by by apply elem_alGet; [|apply list_elem_of_In].
  unfold cell. rewrite Hg. repeat split; try done; lia.
Qed.

Lemma pool_inShape days tt data a :
  wfTT days tt -> workingDays data = days ->
  a ∈ collectAssignedSlots tt data -> inShape tt (classId a) (day a).
Proof.
  intros Hwf <- Hin. destruct (pool_elem _ _ _ (proj1 Hwf) Hin) as (g & Hg & Hd & _).
  by eapply wfTT_inShape.
Qed.

(** ** One applied swap: it only takes bookings away *)

Section Swap.
Variable data : SchoolConfig.
Variable tt : Timetable.
Variables a b : Slot.
Hypothesis Hwf : wfTT (workingDays data) tt.
Hypothesis Hpaired : paired tt.
Hypothesis Ha : a ∈ collectAssignedSlots tt data.
Hypothesis Hb : b ∈ collectAssignedSlots tt data.

Lemma applySwap_dominated : dominated (applySwap a b tt) tt.
Proof.
  split; [unfold applySwap; by rewrite !moveEntry_keys|].
  destruct (pool_elem _ _ _ (proj1 Hwf) Ha) as (ga & Hga & Hda & Hpa & Hca & Hua & Hha).
  intros c d p e'.
  rewrite (cell_applySwap tt a b (entry a)); [|by eapply pool_inShape..|done].
  pose proof (secondHalf_false _ Hha) as Hhead.
  unfold nextOf, posOf. repeat case_decide.
  - intros [= <-]. destruct_and!. simplify_eq.
    exists (withHead (entry a) (Some false)).
    split; [apply Hpaired; auto | done].
  - intros [= <-]. simplify_eq. eauto.
  - done.
  - done.
  - eauto.
Qed.

Lemma applySwap_paired : paired (applySwap a b tt).
Proof.
  destruct (pool_elem _ _ _ (proj1 Hwf) Ha) as (ga & Hga & Hda & Hpa & Hca & Hua & Hha).
  destruct (pool_elem _ _ _ (proj1 Hwf) Hb) as (gb & Hgb & Hdb & Hpb & Hcb & Hub & Hhb).
  assert (forall x e, x ∈ collectAssignedSlots tt data ->
                      cell tt (classId x) (day x) (period x) = Some e ->
                      double e = true -> headOfDouble e = Some false -> False)
    as Hnot2.
  { intros x e Hx He Hdbl Hhod.
    destruct (pool_elem _ _ _ (proj1 Hwf) Hx) as (? & _ & _ & _ & Hcx & _ & Hhx).
    rewrite He in Hcx. injection Hcx as ->.
    by apply (secondHalf_false _ Hhx). }
  intros c d p e.
  assert (inShape tt (classId a) (day a)) as Hsa by by eapply pool_inShape.
  assert (inShape tt (classId b) (day b)) as Hsb by by eapply pool_inShape.
  rewrite !(fun c d p => cell_applySwap tt a b (entry a) c d p Hsa Hsb Hca).
  unfold nextOf, posOf.
  destruct (decide (double (entry a) = true ∧ (c, d, p) = (classId a, day a, period a + 1)))
    as [[Hdbl [= -> -> ->]]|Hn1].
  { intros [= <-] _ Hhod. done. }
  destruct (decide ((c, d, p) = (classId a, day a, period a))) as [[= -> -> ->]|Hn2].
  { intros [= <-] Hdbl _. simpl in Hdbl. rewrite decide_True by done.
    rewrite Hdbl. done. }
  destruct (decide (double (entry a) = true ∧ (c, d, p) = (classId b, day b, period b + 1)))
    as [|Hn3]; [done|].
  destruct (decide ((c, d, p) = (classId b, day b, period b))) as [|Hn4]; [done|].
  intros He Hdbl Hhod. pose proof (Hpaired _ _ _ _ He Hdbl Hhod) as Hnext.
  rewrite decide_False by (intros [_ [= -> -> ?]]; apply Hn2; f_equal; lia).
  destruct (decide ((c, d, p + 1) = (classId a, day a, period a))) as [[= -> -> Hp]|_].
  { exfalso. rewrite Hp in Hnext. by eapply (Hnot2 a). }
  rewrite decide_False by (intros [_ [= -> -> ?]]; apply Hn4; f_equal; lia).
  destruct (decide ((c, d, p + 1) = (classId b, day b, period b))) as [[= -> -> Hp]|_].
  { exfalso. rewrite Hp in Hnext. by eapply (Hnot2 b). }
  done.
Qed.
End Swap.

(** ** A rejected swap: the two snapshots put the timetable back *)

Lemma cloneGrid_id g : cloneGrid g = g.
Proof. unfold cloneGrid. apply map_id. Qed.

Lemma restore_after_swap days tt a b ga gb :
  wfTT days tt ->
  Js.alGet tt (classId a) = Some ga -> Js.alGet tt (classId b) = Some gb ->
  Js.objSet (Js.objSet (applySwap a b tt) (classId a) (cloneGrid ga))
            (classId b) (cloneGrid gb) = tt.
Proof.
  intros [Hnd Hlen] Hga Hgb. rewrite !cloneGrid_id.
  assert ((applySwap a b tt).*1 = tt.*1) as Hkeys
    by (unfold applySwap; by rewrite !moveEntry_keys).
  assert (forall c g, Js.alGet tt c = Some g -> c ∈ tt.*1) as Hin.
  { intros c g Hg. destruct (decide (c ∈ tt.*1)) as [|Hn]; [done|].
    apply alGet_None in Hn. congruence. }
  symmetry. apply alist_ext; [done| |].
  - rewrite (objSet_present (applySwap a b tt)) by (rewrite Hkeys; eauto).
    rewrite objSet_present by (rewrite alReplace_keys, Hkeys; eauto).
    by rewrite !alReplace_keys.
  - intros k. rewrite !alGet_objSet.
    destruct (decide (classId b = k)) as [<-|Hkb]; [done|].
    destruct (decide (classId a = k)) as [<-|Hka]; [done|].
    unfold applySwap. by rewrite !alGet_moveEntry_other.
Qed.

(** ** One turn of the optimizer loop *)

Lemma optStep_cases data st st' :
  wfTT (workingDays data) (opt_timetable st) ->
  optStep data st = Some st' ->
  (opt_timetable st' = opt_timetable st /\ opt_best st' = opt_best st) \/
  (exists a b,
      a ∈ collectAssignedSlots (opt_timetable st) data /\
      b ∈ collectAssignedSlots (opt_timetable st) data /\
      swapFeasible a b (opt_timetable st) data = true /\
      opt_timetable st' = applySwap a b (opt_timetable st) /\
      opt_best st' = totalPenalty (opt_timetable st') data /\
      (opt_best st' < opt_best st)%Z).
Proof.
  intros Hwf. unfold optStep.
  set (tt := opt_timetable st). set (pool := collectAssignedSlots tt data).
  destruct (length pool <? 2); [done|].
  destruct (pool !! _) as [a|] eqn:Ea; [|intros [= <-]; by left].
  destruct (pool !! Rng.index (Rng.next (Rng.next _)) _) as [b|] eqn:Eb;
    [|intros [= <-]; by left].
  apply list_elem_of_lookup_2 in Ea, Eb.
  destruct (_ && _); [intros [= <-]; by left|].
  destruct (swapFeasible a b tt data) eqn:Hf; [|intros [= <-]; by left].
  simpl. destruct (Z.ltb_spec (totalPenalty (applySwap a b tt) data) (opt_best st)).
  - intros [= <-]. right. exists a, b. by repeat split.
  - intros [= <-]. left. simpl. split; [|done].
    destruct (pool_elem _ _ _ (proj1 Hwf) Ea) as (ga & Hga & _).
    destruct (pool_elem _ _ _ (proj1 Hwf) Eb) as (gb & Hgb & _).
    fold tt in Hga, Hgb. rewrite Hga, Hgb. simpl. by eapply restore_after_swap.
Qed.

Lemma optStep_best data st st' :
  optStep data st = Some st' -> (opt_best st' <= opt_best st)%Z.
Proof.
  unfold optStep. repeat case_match; intros [= <-]; simpl; lia.
Qed.

(** The state after one more turn is a step from the state before it. *)
Lemma optLoop_S data n st :
  optLoop data (S n) st =
  match optStep data (optLoop data n st) with
  | Some st' => st'
  | None => optLoop data n st
  end.
Proof.
  revert st. induction n as [|n IH]; intros st.
  - simpl. by destruct (optStep data st).
  - change (optLoop data (S (S n)) st) with
      (match optStep data st with
       | Some st' => optLoop data (S n) st'
       | None => st
       end).
    destruct (optStep data st) as [st1|] eqn:E.
    + rewrite IH. simpl. by rewrite E.
    + simpl. rewrite E. by rewrite E.
Qed.

Lemma dominated_refl tt : dominated tt tt.
Proof. split; [done|]. intros c d p e He. by exists e. Qed.

Lemma dominated_trans tt1 tt2 tt3 :
  dominated tt1 tt2 -> dominated tt2 tt3 -> dominated tt1 tt3.
Proof.
  intros [Hk1 H1] [Hk2 H2]. split; [congruence|].
  intros c d p e1 He1. destruct (H1 _ _ _ _ He1) as (e2 & He2 & ? & ? & ?).
  destruct (H2 _ _ _ _ He2) as (e3 & He3 & ? & ? & ?).
  exists e3. repeat split; [done | congruence..].
Qed.

Lemma optStep_inv data tt0 st st' :
  OptInv data tt0 st -> optStep data st = Some st' -> OptInv data tt0 st'.
Proof.
  intros (Hwf & Hp & Hdom & Hbest) Hstep.
  destruct (optStep_cases _ _ _ Hwf Hstep)
    as [[Htt Hb]|(a & b & Ha & Hb & _ & Htt & Hbest' & _)].
  - unfold OptInv. by rewrite Htt, Hb.
  - unfold OptInv. rewrite Hbest', Htt. split; [|split; [|split]].
    + by apply wfTT_applySwap.
    + by eapply applySwap_paired.
    + eapply dominated_trans; [by eapply applySwap_dominated | done].
    + done.
Qed.

Lemma optLoop_inv data tt0 n st :
  OptInv data tt0 st -> OptInv data tt0 (optLoop data n st).
Proof.
  revert st. induction n as [|n IH]; intros st Hinv; [done|]. simpl.
  destruct (optStep data st) eqn:E; [|done]. eauto using optStep_inv.
Qed.

(** ** The greedy pass *)

Lemma usedSet_occupy (schedule : Schedule) id d ps id' d' p' :
  p' ∈ usedSet (occupy schedule id d ps) id' d' <->
  p' ∈ usedSet schedule id' d' \/ (id = id' /\ d = d' /\ p' ∈ ps).
Proof.
  assert (forall (s : gset nat) l,
             p' ∈ fold_left (fun s p => {[p]} ∪ s) l s <-> p' ∈ s \/ p' ∈ l) as Hfold.
  { intros s l. revert s. induction l as [|x l IH]; intros s; simpl.
    - set_solver.
    - rewrite IH. set_solver. }
  unfold usedSet, occupy.
  destruct (decide (id = id')) as [<-|Hid].
  - rewrite lookup_insert_eq. simpl.
    destruct (decide (d = d')) as [<-|Hd].
    + rewrite lookup_insert_eq. simpl. rewrite Hfold. naive_solver.
    + rewrite lookup_insert_ne by done. naive_solver.
  - rewrite lookup_insert_ne by done. naive_solver.
Qed.

Lemma elem_startPeriods rd pc p :
  p ∈ startPeriods rd pc <-> p + spanOf rd <= pc.
Proof.
  unfold startPeriods. rewrite list_elem_of_In, filter_In, in_seq.
  rewrite Nat.ltb_lt. destruct rd; simpl; lia.
Qed.

Lemma slotsAreFree_true g d rd p :
  slotsAreFree g d (periodsAt rd p) = true <->
  cellAt g d p = None /\ (rd = true -> cellAt g d (p + 1) = None).
Proof.
  unfold slotsAreFree, periodsAt. destruct rd; simpl;
    rewrite ?andb_true_iff, ?bool_decide_eq_true; naive_solver.
Qed.

Section GreedySearch.
Variable teacherList : list string.
Variable teachersById : gmap string Teacher.
Variable maxLoadByTeacher : gmap string Z.
Variable dayCount periodCount : nat.
Variable availableResources : gmap string (list Resource).

Lemma findPlacement_Some g sid rd rt bk pl :
  findPlacement teacherList teachersById maxLoadByTeacher dayCount periodCount
                availableResources g sid rd rt bk = Some pl ->
  pl_day pl < dayCount /\ pl_period pl + spanOf rd <= periodCount /\
  slotsAreFree g (pl_day pl) (periodsAt rd (pl_period pl)) = true /\
  teacherFreeSchedule (teacherSchedule bk) (pl_teacher pl) (pl_day pl)
                      (periodsAt rd (pl_period pl)) = true /\
  (totalTeacherLoad (loads bk) (pl_teacher pl) + Z.of_nat (spanOf rd) <=
   default 0 (maxLoadByTeacher !! pl_teacher pl))%Z /\
  (forall r, pl_resource pl = Some r ->
             resourceOccupied (resourceSchedule bk) (res_id r) (pl_day pl)
                              (periodsAt rd (pl_period pl)) = false).
Proof.
  unfold findPlacement. intros H.
  apply findMap_Some in H as (d & Hd & H).
  apply findMap_Some in H as (p & Hp & H).
  destruct (slotsAreFree g d (periodsAt rd p)) eqn:Hfree; [|done].
  apply findMap_Some in H as (tid & Htid & H).
  apply list_elem_of_In, in_seq in Hd. apply elem_startPeriods in Hp.
  unfold tryTeacher in H.
  destruct (teachersById !! tid) as [t|]; [|done].
  destruct (negb (teacherCanTeach t sid)); [done|].
  destruct (negb (checkTeacherAvailability t d (periodsAt rd p))); [done|].
  destruct (teacherFreeSchedule _ tid d _) eqn:Hts; [|done]. simpl in H.
  destruct (Z.ltb_spec (default 0%Z (maxLoadByTeacher !! tid))
              (totalTeacherLoad (loads bk) tid + Z.of_nat (spanOf rd))); [done|].
  destruct (chooseResource _ _ _ _ _) as [chosen|] eqn:Hres; [|done].
  injection H as <-. simpl. repeat split; try done; try lia.
  intros r ->. unfold chooseResource in Hres.
  destruct (Js.truthy rt); [|done].
  destruct (List.find _ _) as [r'|] eqn:Hfind; [|done].
  injection Hres as ->. apply find_some in Hfind as [_ Hfind].
  apply andb_true_iff in Hfind as [_ Hocc].
  by apply negb_true_iff in Hocc.
Qed.

Lemma findFreeSpan_Some g rd d p :
  findFreeSpan dayCount periodCount g rd = Some (d, p) ->
  d < dayCount /\ p + spanOf rd <= periodCount /\
  slotsAreFree g d (periodsAt rd p) = true.
Proof.
  unfold findFreeSpan. intros H.
  apply findMap_Some in H as (d' & Hd & H).
  apply findMap_Some in H as (p' & Hp & H).
  destruct (slotsAreFree g d' (periodsAt rd p')) eqn:Hfree; [|done].
  injection H as <- <-.
  apply list_elem_of_In, in_seq in Hd. apply elem_startPeriods in Hp.
  repeat split; try done; lia.
Qed.

End GreedySearch.

Lemma alReplace_setCell tt c g d p v :
  Js.alGet tt c = Some g -> Js.alReplace tt c (setCell g d p v) = ttSet tt c d p v.
Proof. intros Hg. unfold ttSet. by rewrite Hg. Qed.

Lemma alReplace_setCell2 tt c g d p v d' p' v' :
  Js.alGet tt c = Some g ->
  Js.alReplace tt c (setCell (setCell g d p v) d' p' v') =
  ttSet (ttSet tt c d p v) c d' p' v'.
Proof.
  intros Hg. unfold ttSet at 1. rewrite alGet_ttSet, decide_True, Hg by done.
  simpl. unfold ttSet. rewrite Hg. by rewrite alReplace_alReplace.
Qed.

(** The three ways a turn of the greedy loop can end: nothing written, an
    assignment committed, or an unassigned marker left. *)
Lemma assignStep_cases idx data tt bk slot :
  let c := req_classId slot in
  let sid := req_subjectId slot in
  let rd := req_requiresDouble slot in
  let search g :=
    findPlacement (teacherOrder data) (teachersById idx) (maxLoads data)
      (workingDays data) (periodsPerDay data) (resourcesByType idx)
      g sid rd (req_resourceType slot) bk in
  (assignStep idx data (tt, bk) slot = (tt, bk) /\
   (Js.alGet tt c = None \/
    exists g, Js.alGet tt c = Some g /\
              findFreeSpan (workingDays data) (periodsPerDay data) g rd = None)) \/
  (exists g pl,
      Js.alGet tt c = Some g /\ search g = Some pl /\
      assignStep idx data (tt, bk) slot =
      (writeSpan tt c (pl_day pl) (pl_period pl) rd
                 (assignedEntry sid rd pl)
                 (withHead (assignedEntry sid rd pl) (Some false)),
       snd (commit g sid rd bk pl))) \/
  (exists g d p,
      Js.alGet tt c = Some g /\ search g = None /\
      findFreeSpan (workingDays data) (periodsPerDay data) g rd = Some (d, p) /\
      assignStep idx data (tt, bk) slot =
      (writeSpan tt c d p rd (unassignedEntry sid) (unassignedEntry sid), bk)).
Proof.
  intros c sid rd search. unfold assignStep, tryAssignSlot. simpl.
  fold c sid rd. destruct (Js.alGet tt c) as [g|] eqn:Hg; [|left; split; by auto].
  fold (search g). destruct (search g) as [pl|] eqn:Hs.
  - right. left. exists g, pl. repeat split; try done.
    unfold commit, writeSpan. simpl. f_equal.
    destruct rd; [by apply alReplace_setCell2 | by apply alReplace_setCell].
  - destruct (findFreeSpan _ _ g rd) as [[d p]|] eqn:Hfree.
    + right. right. exists g, d, p. repeat split; try done.
      unfold markUnassigned, writeSpan. f_equal.
      destruct rd; [by apply alReplace_setCell2 | by apply alReplace_setCell].
    + left. split; [|right; by exists g]. f_equal. by apply alReplace_id.
Qed.

Lemma wfTT_writeSpan days tt c d p rd e1 e2 :
  wfTT days tt -> wfTT days (writeSpan tt c d p rd e1 e2).
Proof. intros. unfold writeSpan. destruct rd; auto using wfTT_ttSet. Qed.

Lemma cell_writeSpan tt c d p rd e1 e2 c' d' p' :
  inShape tt c d ->
  cell (writeSpan tt c d p rd e1 e2) c' d' p' =
    if decide (rd = true /\ (c, d, p + 1) = (c', d', p')) then Some e2
    else if decide ((c, d, p) = (c', d', p')) then Some e1
    else cell tt c' d' p'.
Proof.
  intros Hs. unfold writeSpan. destruct rd.
  - rewrite !cell_ttSet by by rewrite ?inShape_ttSet. case_decides.
  - rewrite !cell_ttSet by done. case_decides.
Qed.

Lemma countCells_writeSpan P tt c d p rd e1 e2 :
  inShape tt c d ->
  cell tt c d p = None -> (rd = true -> cell tt c d (p + 1) = None) ->
  countCells P (writeSpan tt c d p rd e1 e2) =
  countCells P tt + hits P (Some e1) + (if rd then hits P (Some e2) else 0).
Proof.
  intros Hs H1 H2. unfold writeSpan.
  pose proof (countCells_ttSet P tt c d p (Some e1) Hs) as Hc1.
  rewrite H1 in Hc1. simpl in Hc1. destruct rd; [|simpl; lia].
  pose proof (countCells_ttSet P (ttSet tt c d p (Some e1)) c d (p + 1) (Some e2)) as Hc2.
  rewrite cell_ttSet in Hc2 by done.
  rewrite decide_False in Hc2 by (intros [=]; lia).
  rewrite H2 in Hc2 by done. rewrite inShape_ttSet in Hc2.
  specialize (Hc2 Hs). simpl in *. lia.
Qed.

Lemma elem_periodsAt rd p p' :
  p' ∈ periodsAt rd p <-> p' = p \/ (rd = true /\ p' = p + 1).
Proof. unfold periodsAt. destruct rd; set_solver. Qed.

(** Writing a span of free cells keeps the greedy invariant, provided the
    bookkeeping is updated to match. *)
Section WriteSpan.
Variable data : SchoolConfig.
Variables (tt : Timetable) (bk bk' : Booking).
Variables (c : string) (d p : nat) (rd : bool) (e1 e2 : Entry).
Hypothesis Hinv : GreedyInv data (tt, bk).
Hypothesis Hshape : inShape tt c d.
Hypothesis Hfree1 : cell tt c d p = None.
Hypothesis Hfree2 : rd = true -> cell tt c d (p + 1) = None.
Hypothesis Hteach : teacherId e2 = teacherId e1.
Hypothesis Hres : resourceId e2 = resourceId e1.
Hypothesis Hhead : double e1 = true -> rd = true /\ e2 = withHead e1 (Some false).
Hypothesis Hsecond : double e2 = true -> headOfDouble e2 = Some false.
Hypothesis HT1 : forall t p', teacherId e1 = Some t -> p' ∈ periodsAt rd p ->
                              p' ∉ usedSet (teacherSchedule bk) t d.
Hypothesis HT2 : forall t p', teacherId e1 = Some t -> p' ∈ periodsAt rd p ->
                              p' ∈ usedSet (teacherSchedule bk') t d.
Hypothesis HT3 : forall t d' p', p' ∈ usedSet (teacherSchedule bk) t d' ->
                                 p' ∈ usedSet (teacherSchedule bk') t d'.
Hypothesis HR1 : forall r p', resourceId e1 = Some r -> p' ∈ periodsAt rd p ->
                              p' ∉ usedSet (resourceSchedule bk) r d.
Hypothesis HR2 : forall r p', resourceId e1 = Some r -> p' ∈ periodsAt rd p ->
                              p' ∈ usedSet (resourceSchedule bk') r d.
Hypothesis HR3 : forall r d' p', p' ∈ usedSet (resourceSchedule bk) r d' ->
                                 p' ∈ usedSet (resourceSchedule bk') r d'.
Hypothesis HL1 : forall t,
    totalTeacherLoad (loads bk') t =
    (totalTeacherLoad (loads bk) t +
     if decide (teacherId e1 = Some t) then Z.of_nat (spanOf rd) else 0)%Z.
Hypothesis HL2 : forall t, teacherId e1 = Some t ->
    (totalTeacherLoad (loads bk') t <= default 0 (maxLoads data !! t))%Z.

Let tt' := writeSpan tt c d p rd e1 e2.

(** A cell of the new timetable is one of the two written or an old one. *)
Lemma written_or_old c' d' p' e :
  cell tt' c' d' p' = Some e ->
  (c' = c /\ d' = d /\ p' ∈ periodsAt rd p /\
   teacherId e = teacherId e1 /\ resourceId e = resourceId e1) \/
  (cell tt c' d' p' = Some e /\ (c' <> c \/ d' <> d \/ p' ∉ periodsAt rd p)).
Proof.
  unfold tt'. rewrite cell_writeSpan by done. repeat case_decide.
  - intros [= <-]. left. destruct_and!. simplify_eq.
    rewrite elem_periodsAt. naive_solver.
  - intros [= <-]. left. simplify_eq. rewrite elem_periodsAt. naive_solver.
  - intros He. right. split; [done|].
    destruct (decide (c' = c)) as [->|]; [|by left].
    destruct (decide (d' = d)) as [->|]; [|by right; left].
    right. right. rewrite elem_periodsAt. intros [->|[-> ->]]; [done|].
    naive_solver.
Qed.

Lemma GreedyInv_write : GreedyInv data (tt', bk').
Proof.
  destruct Hinv as (Hwf & Hp & Hst & Hsr & Hndb & Hcnt & Hbound). simpl in *.
  unfold GreedyInv. simpl. split; [|split; [|split; [|split; [|split; [|split]]]]].
  - by apply wfTT_writeSpan.
  - intros c' d' p' e. unfold tt'. rewrite !cell_writeSpan by done.
    destruct (decide (rd = true /\ (c, d, p + 1) = (c', d', p')))
      as [[Hrd [= <- <- <-]]|Hn1].
    { intros [= <-] Hdbl Hh. by apply Hsecond in Hdbl. }
    destruct (decide ((c, d, p) = (c', d', p'))) as [[= <- <- <-]|Hn2].
    { intros [= <-] Hdbl _. destruct (Hhead Hdbl) as [-> ->].
      by rewrite decide_True. }
    intros He Hdbl Hh. pose proof (Hp _ _ _ _ He Hdbl Hh) as Hnext.
    rewrite decide_False by (intros [_ [= <- <- ?]]; apply Hn2; f_equal; lia).
    rewrite decide_False; [done|]. intros [= <- <- Hpp].
    rewrite <- Hpp in Hnext. congruence.
  - intros c' d' p' e t He Ht.
    destruct (written_or_old _ _ _ _ He) as [(-> & -> & Hp' & Hte & _)|[Hold _]].
    + apply HT2; [congruence | done].
    + apply HT3. by eapply Hst.
  - intros c' d' p' e r He Hr.
    destruct (written_or_old _ _ _ _ He) as [(-> & -> & Hp' & _ & Hre)|[Hold _]].
    + apply HR2; [congruence | done].
    + apply HR3. by eapply Hsr.
  - intros c1 c2 d' p' x1 x2 Hc Hx1 Hx2.
    destruct (written_or_old _ _ _ _ Hx1) as [(E1 & D1 & Hp1 & Ht1 & Hr1)|[Ho1 _]];
      destruct (written_or_old _ _ _ _ Hx2) as [(E2 & D2 & Hp2 & Ht2 & Hr2)|[Ho2 _]];
      try congruence; try subst d'.
    + split.
      * intros t Ht Ht'. rewrite Ht1 in Ht.
        eapply HT1; [done..|]. by eapply Hst.
      * intros r Hr Hr'. rewrite Hr1 in Hr.
        eapply HR1; [done..|]. by eapply Hsr.
    + split.
      * intros t Ht Ht'. rewrite Ht2 in Ht'.
        eapply HT1; [done..|]. by eapply Hst.
      * intros r Hr Hr'. rewrite Hr2 in Hr'.
        eapply HR1; [done..|]. by eapply Hsr.
    + by eapply Hndb.
  - intros t. unfold tt'. rewrite countCells_writeSpan by done.
    rewrite HL1, <- Hcnt. unfold hits, hasTeacher. rewrite Hteach.
    destruct (decide (teacherId e1 = Some t)) as [Ht|Ht].
    + rewrite !bool_decide_true by done. destruct rd; simpl; lia.
    + rewrite !bool_decide_false by done. destruct rd; simpl; lia.
  - intros t. destruct (decide (teacherId e1 = Some t)) as [Ht|Ht].
    + right. by apply HL2.
    + rewrite HL1, decide_False by done. rewrite Z.add_0_r. apply Hbound.
Qed.
End WriteSpan.

Lemma totalTeacherLoad_inc (l : gmap string Z) tid n t :
  totalTeacherLoad (incTeacherLoad l tid n) t =
  (totalTeacherLoad l t + if decide (Some tid = Some t) then n else 0)%Z.
Proof.
  unfold totalTeacherLoad, incTeacherLoad.
  destruct (decide (tid = t)) as [<-|Hne].
  - rewrite lookup_insert_eq, decide_True by done. done.
  - rewrite lookup_insert_ne, decide_False by congruence. simpl. lia.
Qed.

Lemma assignStep_inv idx data st slot :
  GreedyInv data st -> GreedyInv data (assignStep idx data st slot).
Proof.
  destruct st as [tt bk]. intros Hinv.
  pose proof Hinv as (Hwf & _).
  destruct (assignStep_cases idx data tt bk slot)
    as [[-> _]|[(g & pl & Hg & Hs & ->)|(g & d & p & Hg & _ & Hfree & ->)]]; [done| |].
  - apply findPlacement_Some in Hs as (Hd & Hp & Hfree & Hts & Hload & Hrs).
    apply slotsAreFree_true in Hfree as [Hf1 Hf2].
    unfold teacherFreeSchedule in Hts. rewrite forallb_forall in Hts.
    apply GreedyInv_write with (bk := bk); simpl; try done.
    + by eapply wfTT_inShape.
    + unfold cell. by rewrite Hg.
    + unfold cell. by rewrite Hg.
    + intros t p' [= <-] Hp' Hin. apply list_elem_of_In, Hts in Hp'.
      apply negb_true_iff, bool_decide_eq_false in Hp'. done.
    + intros t p' [= <-] Hp'. apply usedSet_occupy. auto.
    + intros t d' p' Hin. apply usedSet_occupy. auto.
    + intros r p' Hr Hp' Hin. destruct (pl_resource pl) as [r0|] eqn:Hr0; [|done].
      injection Hr as <-. specialize (Hrs _ eq_refl).
      unfold resourceOccupied in Hrs.
      assert (existsb (fun p => bool_decide (p ∈ usedSet (resourceSchedule bk) (res_id r0) (pl_day pl)))
                      (periodsAt (req_requiresDouble slot) (pl_period pl)) = true)
        as Hex; [|congruence].
      apply existsb_exists. exists p'. split; [by apply list_elem_of_In|].
      by apply bool_decide_eq_true.
    + intros r p' Hr Hp'. destruct (pl_resource pl) as [r0|] eqn:Hr0; [|done].
      injection Hr as <-. apply usedSet_occupy. auto.
    + intros r d' p' Hin. destruct (pl_resource pl) as [r0|]; [|done].
      apply usedSet_occupy. auto.
    + intros t. apply totalTeacherLoad_inc.
    + intros t [= <-]. rewrite totalTeacherLoad_inc, decide_True by done. done.
  - apply findFreeSpan_Some in Hfree as (Hd & Hp & Hfree).
    apply slotsAreFree_true in Hfree as [Hf1 Hf2].
    apply GreedyInv_write with (bk := bk); simpl; try done.
    + by eapply wfTT_inShape.
    + unfold cell. by rewrite Hg.
    + unfold cell. by rewrite Hg.
    + intros t. lia.
Qed.

Lemma elem_objSet {V} (o : list (string * V)) k v x :
  x ∈ Js.objSet o k v -> x = (k, v) \/ x ∈ o.
Proof.
  unfold Js.objSet. destruct (Js.alGet o k) as [v0|] eqn:E.
  - clear E. induction o as [|[k0 v1] o IH]; simpl; [set_solver|].
    case_decide; subst; set_solver.
  - clear E. induction o as [|[k0 v1] o IH]; simpl; [set_solver|].
    destruct (Js.keyBefore k k0); set_solver.
Qed.

Lemma emptyTimetable_spec data :
  NoDup (emptyTimetable data).*1 /\
  Forall (fun kg => snd kg =
            makeEmptyGrid (workingDays data) (periodsPerDay data) None)
         (emptyTimetable data).
Proof.
  unfold emptyTimetable.
  assert (forall l tt,
    NoDup tt.*1 /\
    Forall (fun kg : string * Grid => snd kg =
              makeEmptyGrid (workingDays data) (periodsPerDay data) None) tt ->
    let r := fold_left
      (fun tt c => Js.objSet tt (cls_id c)
         (makeEmptyGrid (workingDays data) (periodsPerDay data) None)) l tt in
    NoDup r.*1 /\
    Forall (fun kg : string * Grid => snd kg =
              makeEmptyGrid (workingDays data) (periodsPerDay data) None) r) as H.
  { induction l as [|x l IH]; intros tt [Hnd Hall]; simpl; [done|].
    apply IH. split; [by apply objSet_keys_NoDup|].
    apply Forall_forall. intros kg [->|Hin]%elem_objSet; [done|].
    by eapply Forall_forall in Hall. }
  apply H. split; [apply NoDup_nil_2 | apply Forall_nil_2].
Qed.

Lemma cellAt_makeEmptyGrid days periods d p :
  cellAt (makeEmptyGrid days periods None) d p = None.
Proof.
  unfold cellAt, makeEmptyGrid.
  destruct (replicate days _ !! d) as [row|] eqn:E; [|done].
  apply lookup_replicate in E as [-> _].
  destruct (replicate periods _ !! p) as [x|] eqn:E'; [|done].
  by apply lookup_replicate in E' as [-> _].
Qed.

Lemma cell_emptyTimetable data c d p : cell (emptyTimetable data) c d p = None.
Proof.
  destruct (emptyTimetable_spec data) as [_ Hall]. unfold cell.
  destruct (Js.alGet _ c) as [g|] eqn:E; [|done].
  apply alGet_Some_elem in E. eapply Forall_forall in Hall; [|done].
  simpl in Hall. subst g. apply cellAt_makeEmptyGrid.
Qed.

Lemma countGrid_makeEmptyGrid P days periods :
  countGrid P (makeEmptyGrid days periods None) = 0.
Proof.
  unfold countGrid, makeEmptyGrid. apply sum_list_with_zero.
  intros row [-> _]%elem_of_replicate. apply sum_list_with_zero.
  by intros x [-> _]%elem_of_replicate.
Qed.

Lemma GreedyInv_init data :
  GreedyInv data (emptyTimetable data, mkBooking ∅ ∅ ∅).
Proof.
  destruct (emptyTimetable_spec data) as [Hnd Hall].
  unfold GreedyInv. simpl. split; [|split; [|split; [|split; [|split; [|split]]]]].
  - split; [done|]. intros c g Hg. apply alGet_Some_elem in Hg.
    eapply Forall_forall in Hall; [|done]. simpl in Hall. subst g.
    apply length_replicate.
  - intros c d p e. by rewrite cell_emptyTimetable.
  - intros c d p e t. by rewrite cell_emptyTimetable.
  - intros c d p e t. by rewrite cell_emptyTimetable.
  - intros c1 c2 d p e1 e2 _. by rewrite cell_emptyTimetable.
  - intros t. unfold totalTeacherLoad. rewrite lookup_empty. simpl.
    unfold countCells. rewrite sum_list_with_zero; [done|].
    intros kg Hkg. eapply Forall_forall in Hall; [|done]. rewrite Hall.
    apply countGrid_makeEmptyGrid.
  - intros t. left. unfold totalTeacherLoad. by rewrite lookup_empty.
Qed.

Lemma fold_assignStep_inv idx data l st :
  GreedyInv data st -> GreedyInv data (fold_left (assignStep idx data) l st).
Proof.
  revert st. induction l as [|x l IH]; intros st Hinv; simpl; [done|].
  apply IH. by apply assignStep_inv.
Qed.

Lemma greedy_inv data : GreedyInv data (greedyState data).
Proof. apply fold_assignStep_inv, GreedyInv_init. Qed.

(** The optimizer starts in its invariant and stays there. *)
Lemma optInit_inv data options :
  OptInv data (greedy data) (optInit data options).
Proof.
  destruct (greedy_inv data) as (Hwf & Hp & _).
  unfold OptInv, optInit. simpl. repeat split; try done; try apply Hwf.
  intros c d p e He. by exists e.
Qed.

Lemma reachable_inv data options k :
  OptInv data (greedy data) (optLoop data k (optInit data options)).
Proof. apply optLoop_inv, optInit_inv. Qed.

(** ** Counting under domination *)

Lemma countRow_le P (r' r : list Cell) :
  (forall p, hits P (rowAt r' p) <= hits P (rowAt r p)) ->
  countRow P r' <= countRow P r.
Proof.
  unfold countRow. revert r. induction r' as [|x r' IH]; intros r H; simpl; [lia|].
  destruct r as [|y r]; simpl.
  - pose proof (H 0) as H0. unfold rowAt in H0. simpl in H0.
    specialize (IH [] (fun p => H (S p))). simpl in IH. lia.
  - pose proof (H 0) as H0. unfold rowAt in H0. simpl in H0.
    specialize (IH r (fun p => H (S p))). lia.
Qed.

Lemma countGrid_le P (g' g : Grid) :
  (forall d p, hits P (cellAt g' d p) <= hits P (cellAt g d p)) ->
  countGrid P g' <= countGrid P g.
Proof.
  unfold countGrid. revert g. induction g' as [|r' g' IH]; intros g H; simpl; [lia|].
  destruct g as [|r g]; simpl.
  - pose proof (countRow_le P r' [] (fun p => H 0 p)) as H0.
    specialize (IH [] (fun d p => H (S d) p)). unfold countRow in *. simpl in *. lia.
  - pose proof (countRow_le P r' r (fun p => H 0 p)) as H0.
    specialize (IH g (fun d p => H (S d) p)). lia.
Qed.

Lemma countCells_le P (tt' tt : Timetable) :
  NoDup tt.*1 -> tt'.*1 = tt.*1 ->
  (forall c d p, hits P (cell tt' c d p) <= hits P (cell tt c d p)) ->
  countCells P tt' <= countCells P tt.
Proof.
  unfold countCells. revert tt'.
  induction tt as [|[k g] tt IH]; intros [|[k' g'] tt']; csimpl; try done.
  rewrite NoDup_cons. intros [Hk Hnd] [= -> Hkeys] H.
  assert (countGrid P g' <= countGrid P g) as Hg.
  { apply countGrid_le. intros d p. specialize (H k d p). unfold cell in H.
    simpl in H. by rewrite !decide_True in H. }
  enough (sum_list_with (fun kg => countGrid P (snd kg)) tt' <=
          sum_list_with (fun kg => countGrid P (snd kg)) tt) by lia.
  apply IH; [done..|]. intros c d p. specialize (H c d p). unfold cell in *.
  simpl in H. destruct (decide (c = k)) as [->|]; [|done].
  assert (Js.alGet tt k = None) as -> by by apply alGet_None.
  assert (Js.alGet tt' k = None) as -> by (apply alGet_None; by rewrite Hkeys).
  done.
Qed.

Lemma dominated_count t tt' tt :
  NoDup tt.*1 -> dominated tt' tt ->
  countCells (hasTeacher t) tt' <= countCells (hasTeacher t) tt.
Proof.
  intros Hnd [Hkeys Hdom]. apply countCells_le; [done..|].
  intros c d p. destruct (cell tt' c d p) as [e'|] eqn:E; simpl; [|lia].
  destruct (Hdom _ _ _ _ E) as (e & -> & _ & Ht & _). simpl.
  unfold hasTeacher. by rewrite Ht.
Qed.

Lemma dominated_noDoubleBooking tt' tt :
  dominated tt' tt -> noDoubleBooking tt -> noDoubleBooking tt'.
Proof.
  intros [_ Hdom] Hndb c1 c2 d p e1 e2 Hc H1 H2.
  destruct (Hdom _ _ _ _ H1) as (x1 & Hx1 & _ & Ht1 & Hr1).
  destruct (Hdom _ _ _ _ H2) as (x2 & Hx2 & _ & Ht2 & Hr2).
  destruct (Hndb _ _ _ _ _ _ Hc Hx1 Hx2) as [Ht Hr].
  rewrite <- Ht1, <- Ht2, <- Hr1, <- Hr2. done.
Qed.

Lemma maxLoads_lookup data T :
  NoDup (map tch_id (teachers data)) -> T ∈ teachers data ->
  maxLoads data !! tch_id T = Some (tch_maxLoad T).
Proof.
  unfold maxLoads. generalize (∅ : gmap string Z). generalize (teachers data).
  assert (forall l (m : gmap string Z) k,
             k ∉ map tch_id l ->
             fold_left (fun (m : gmap string Z) t => <[tch_id t := tch_maxLoad t]> m)
                       l m !! k = m !! k) as Hout.
  { induction l as [|x l IH]; intros m k Hk; simpl; [done|].
    rewrite IH by set_solver. rewrite lookup_insert_ne; [done|]. set_solver. }
  induction l as [|x l IH]; intros m Hnd Hin; simpl in *; [set_solver|].
  apply NoDup_cons in Hnd as [Hx Hnd].
  apply elem_of_cons in Hin as [->|Hin].
  - rewrite Hout by done. by rewrite lookup_insert_eq.
  - by apply IH.
Qed.

Lemma maxLoads_last data t :
  maxLoads data !! t =
  tch_maxLoad <$> last (filter (fun T => tch_id T = t) (teachers data)).
Proof.
  unfold maxLoads.
  assert (forall l (m : gmap string Z),
             fold_left (fun (m : gmap string Z) T => <[tch_id T := tch_maxLoad T]> m)
                       l m !! t =
             match last (filter (fun T => tch_id T = t) l) with
             | Some T => Some (tch_maxLoad T)
             | None => m !! t
             end) as H.
  { induction l as [|x l IH]; intros m; simpl; [done|].
    rewrite IH, filter_cons. case_decide as Hk.
    - rewrite last_cons. destruct (last (filter _ l)); [done|].
      by rewrite <- Hk, lookup_insert_eq.
    - destruct (last (filter _ l)); [done|]. by rewrite lookup_insert_ne. }
  rewrite H, lookup_empty. by destruct (last _).
Qed.

(** Grids with a row for every working day: every read finds its row. *)
Lemma rowsThere_true days periods tt :
  Forall (fun kg : string * Grid => days <= length kg.2) tt ->
  rowsThere days periods tt = true.
Proof.
  intros Hrows. unfold rowsThere. apply forallb_forall. intros kg Hkg.
  apply list_elem_of_In in Hkg. eapply Forall_forall in Hrows; [|done].
  apply forallb_forall. intros d Hd. apply in_seq in Hd.
  apply forallb_forall. intros p _.
  destruct (kg.2 !! d) eqn:E; [done|]. apply lookup_ge_None in E. lia.
Qed.

(** [bestPenalty] along the run. *)
Lemma best_penalty_helper (data : SchoolConfig) (options : Options) :
  (forall k,
      (opt_best (optLoop data (S k) (optInit data options)) <=
       opt_best (optLoop data k (optInit data options)))%Z) /\
  (forall k,
      opt_best (optLoop data k (optInit data options)) =
      totalPenalty (opt_timetable (optLoop data k (optInit data options))) data).
Proof.
  split.
  - intros k. rewrite optLoop_S.
    destruct (optStep data _) as [st'|] eqn:E; [|lia]. by apply optStep_best in E.
  - intros k. by destruct (reachable_inv data options k) as (_ & _ & _ & ?).
Qed.

(** ** The first pass of [computeDiagnostics], counted *)

Lemma recordTeacher_counters periods e d p a :
  acc_penalty (recordTeacher periods e d p a) = acc_penalty a /\
  acc_unassigned (recordTeacher periods e d p a) = acc_unassigned a.
Proof.
  unfold recordTeacher. destruct (teacherId e) as [tid|]; [|done].
  by destruct (Js.truthyStr tid).
Qed.

Lemma truthyStr_eqb s s' :
  String.eqb s s' = true -> Js.truthyStr s' = Js.truthyStr s.
Proof. by intros ->%String.eqb_eq. Qed.

(** What one cell adds to the two counters. *)
Lemma cellStep_counters periods g d a p :
  acc_penalty (cellStep periods g d a p) =
    (acc_penalty a + 20 * b2z (isMarker (cellAt g d p))
     + 10 * b2z (adjacentPair periods g d p))%Z /\
  acc_unassigned (cellStep periods g d a p) =
    (acc_unassigned a + b2z (isMarker (cellAt g d p)))%Z.
Proof.
  unfold cellStep, adjacentPair, sameSubjectNext, sameSubject, isMarker.
  destruct (cellAt g d p) as [e|]; simpl;
    [|rewrite ?andb_false_r; simpl; split; lia].
  destruct (unassigned e) eqn:Hu; simpl.
  { destruct (p + 1 <? periods); simpl;
      [destruct (cellAt g d (p + 1)); simpl|]; split; lia. }
  destruct (recordTeacher_counters periods e d p a) as [Hp Hun].
  destruct (p + 1 <? periods); simpl; [|rewrite Hp, Hun; split; lia].
  destruct (cellAt g d (p + 1)) as [n|]; simpl; [|rewrite Hp, Hun; split; lia].
  destruct (unassigned n); simpl; [rewrite Hp, Hun; split; lia|].
  destruct (Js.truthyStr (subjectId e)) eqn:Ht; simpl;
    [|rewrite Hp, Hun; split; lia].
  destruct (String.eqb (subjectId e) (subjectId n)) eqn:Heq.
  - rewrite (truthyStr_eqb _ _ Heq), Ht. simpl. rewrite Hp, Hun. split; lia.
  - rewrite andb_false_r. rewrite Hp, Hun. simpl. split; lia.
Qed.

(** A loop whose every turn adds [20 u + 10 v] to the penalty and [u] to the
    unassigned counter adds the sums. *)
Lemma fold_counters {A} (step : DiagAcc -> A -> DiagAcc) (u v : A -> nat) :
  (forall a x,
      acc_penalty (step a x) =
        (acc_penalty a + 20 * Z.of_nat (u x) + 10 * Z.of_nat (v x))%Z /\
      acc_unassigned (step a x) = (acc_unassigned a + Z.of_nat (u x))%Z) ->
  forall l a,
    acc_penalty (fold_left step l a) =
      (acc_penalty a + 20 * Z.of_nat (sum_list_with u l)
       + 10 * Z.of_nat (sum_list_with v l))%Z /\
    acc_unassigned (fold_left step l a) =
      (acc_unassigned a + Z.of_nat (sum_list_with u l))%Z.
Proof.
  intros Hstep. induction l as [|x l IH]; intros a; simpl; [split; lia|].
  destruct (IH (step a x)) as [-> ->]. destruct (Hstep a x) as [-> ->]. split; lia.
Qed.

Lemma diagPass1_counters tt data :
  let days := workingDays data in
  let periods := periodsPerDay data in
  acc_penalty (diagPass1 tt data) =
    (20 * Z.of_nat (windowCount (fun g d p => isMarker (cellAt g d p)) days periods tt)
     + 10 * Z.of_nat (windowCount (adjacentPair periods) days periods tt))%Z /\
  acc_unassigned (diagPass1 tt data) =
    Z.of_nat (windowCount (fun g d p => isMarker (cellAt g d p)) days periods tt).
Proof.
  intros days periods. unfold diagPass1, windowCount.
  set (u := fun (g : Grid) (d p : nat) => if isMarker (cellAt g d p) then 1 else 0).
  set (v := fun (g : Grid) (d p : nat) => if adjacentPair periods g d p then 1 else 0).
  assert (forall a (kg : string * Grid),
    acc_penalty (gridPass days periods a kg) =
      (acc_penalty a
       + 20 * Z.of_nat (sum_list_with
           (fun d => sum_list_with (u (snd kg) d) (seq 0 periods)) (seq 0 days))
       + 10 * Z.of_nat (sum_list_with
           (fun d => sum_list_with (v (snd kg) d) (seq 0 periods)) (seq 0 days)))%Z /\
    acc_unassigned (gridPass days periods a kg) =
      (acc_unassigned a
       + Z.of_nat (sum_list_with
           (fun d => sum_list_with (u (snd kg) d) (seq 0 periods)) (seq 0 days)))%Z)
    as Hgrid.
  { intros a kg. unfold gridPass. apply fold_counters.
    intros a' d. apply fold_counters.
    intros a'' p. destruct (cellStep_counters periods (snd kg) d a'' p) as [-> ->].
    unfold b2z, u, v. destruct (isMarker _), (adjacentPair _ _ _ _); split; lia. }
  pose proof (fold_counters (gridPass days periods) _ _ Hgrid tt (mkAcc 0 0 [] []))
    as [H1 H2].
  subst u v. cbv beta in H1, H2. fold days periods. rewrite H1, H2.
  simpl. split; lia.
Qed.

(** ** Demand accounting in the greedy pass *)

Lemma gridCount_ttSet P tt c d p v c' :
  inShape tt c d ->
  gridCount P (ttSet tt c d p v) c' +
    (if decide (c = c') then hits P (cell tt c d p) else 0) =
  gridCount P tt c' + (if decide (c = c') then hits P v else 0).
Proof.
  intros (g & Hg & Hd). unfold gridCount, cell. rewrite alGet_ttSet.
  destruct (decide (c = c')) as [<-|]; [|lia]. rewrite Hg. simpl.
  pose proof (countGrid_setCell P g d p v) as H.
  rewrite decide_True in H by done. done.
Qed.

Lemma gridCount_writeSpan P tt c d p rd e1 e2 c' :
  inShape tt c d ->
  cell tt c d p = None -> (rd = true -> cell tt c d (p + 1) = None) ->
  gridCount P (writeSpan tt c d p rd e1 e2) c' =
  gridCount P tt c' +
    (if decide (c = c')
     then hits P (Some e1) + (if rd then hits P (Some e2) else 0) else 0).
Proof.
  intros Hs H1 H2. unfold writeSpan.
  pose proof (gridCount_ttSet P tt c d p (Some e1) c' Hs) as Hc1.
  rewrite H1 in Hc1. destruct rd.
  - pose proof (gridCount_ttSet P (ttSet tt c d p (Some e1)) c d (p + 1)
                  (Some e2) c') as Hc2.
    rewrite cell_ttSet in Hc2 by done.
    rewrite (decide_False (P := (c, d, p) = (c, d, p + 1))) in Hc2
      by (intros [=]; lia).
    rewrite H2 in Hc2 by done. rewrite inShape_ttSet in Hc2. specialize (Hc2 Hs).
    destruct (decide (c = c')); simpl in *; lia.
  - destruct (decide (c = c')); simpl in *; lia.
Qed.


Lemma hits_hasSubject sid e :
  hits (hasSubject sid) (Some e) = if String.eqb (subjectId e) sid then 1 else 0.
Proof. done. Qed.

Section Demand.
Variable data : SchoolConfig.
Variable idx : Index.
Variables c sid : string.

Let days := workingDays data.
Let periods := periodsPerDay data.

Lemma assignStep_at_most st slot :
  GreedyInv data st ->
  subjectCells (fst (assignStep idx data st slot)) c sid <=
  subjectCells (fst st) c sid + spanFor c sid slot.
Proof.
  destruct st as [tt bk]. intros Hinv. pose proof Hinv as (Hwf & _).
  unfold subjectCells, spanFor, forSubject.
  destruct (assignStep_cases idx data tt bk slot)
    as [[-> _]|[(g & pl & Hg & Hs & ->)|(g & d & p & Hg & _ & Hfree & ->)]];
    simpl; [lia| |].
  - apply findPlacement_Some in Hs as (Hd & Hp & Hfree & _).
    apply slotsAreFree_true in Hfree as [Hf1 Hf2].
    rewrite gridCount_writeSpan;
      [|by eapply wfTT_inShape|unfold cell; by rewrite Hg..].
    rewrite !hits_hasSubject. simpl.
    destruct (decide (req_classId slot = c)) as [->|Hc].
    + rewrite String.eqb_refl. simpl.
      destruct (String.eqb (req_subjectId slot) sid), (req_requiresDouble slot);
        simpl; lia.
    + lia.
  - apply findFreeSpan_Some in Hfree as (Hd & Hp & Hfree).
    apply slotsAreFree_true in Hfree as [Hf1 Hf2].
    rewrite gridCount_writeSpan;
      [|by eapply wfTT_inShape|unfold cell; by rewrite Hg..].
    rewrite !hits_hasSubject. simpl.
    destruct (decide (req_classId slot = c)) as [->|Hc].
    + rewrite String.eqb_refl. simpl.
      destruct (String.eqb (req_subjectId slot) sid), (req_requiresDouble slot);
        simpl; lia.
    + lia.
Qed.

Lemma fold_at_most l st :
  GreedyInv data st ->
  subjectCells (fst (fold_left (assignStep idx data) l st)) c sid <=
  subjectCells (fst st) c sid + sum_list_with (spanFor c sid) l.
Proof.
  revert st. induction l as [|x l IH]; intros st Hinv; simpl; [lia|].
  pose proof (assignStep_at_most st x Hinv).
  pose proof (IH _ (assignStep_inv idx data st x Hinv)). lia.
Qed.


End Demand.

(** *** A class that fits in its grid loses no demand *)




Section Exact.
Variable data : SchoolConfig.
Variable idx : Index.
Variables c sid : string.

Let days := workingDays data.
Let periods := periodsPerDay data.





End Exact.

(** *** The requirements of one class and subject *)

Lemma requirementsOf_replicate idx cid kv :
  requirementsOf idx cid kv = replicate (unitsOf (snd kv)) (requirementFor idx cid kv).
Proof. done. Qed.

Lemma sum_list_with_flat_map {A B} (f : B -> nat) (g : A -> list B) (l : list A) :
  sum_list_with f (flat_map g l) = sum_list_with (fun x => sum_list_with f (g x)) l.
Proof.
  induction l as [|x l IH]; simpl; [done|]. by rewrite sum_list_with_app, IH.
Qed.

Lemma sum_list_with_ext {A} (f g : A -> nat) (l : list A) :
  (forall x, f x = g x) -> sum_list_with f l = sum_list_with g l.
Proof. intros H. induction l as [|x l IH]; simpl; [done|]. by rewrite H, IH. Qed.

Lemma sum_list_with_replicate {A} (f : A -> nat) n (x : A) :
  sum_list_with f (replicate n x) = n * f x.
Proof. induction n as [|n IH]; simpl; [done|]. rewrite IH. lia. Qed.

(** A sum in which only the element with the key of [x] counts. *)
Lemma sum_unique {A} (key : A -> string) (h : A -> nat) (l : list A) (x : A) :
  NoDup (key <$> l) -> x ∈ l ->
  (forall y, y ∈ l -> key y <> key x -> h y = 0) ->
  sum_list_with h l = h x.
Proof.
  induction l as [|y l IH]; csimpl; [set_solver|].
  rewrite NoDup_cons. intros [Hy Hnd] Hin Hzero.
  assert (forall z, z ∈ l -> key z <> key y) as Hother.
  { intros z Hz Heq. apply Hy. rewrite <- Heq. apply list_elem_of_fmap. by exists z. }
  apply elem_of_cons in Hin as [->|Hin].
  - rewrite sum_list_with_zero; [lia|]. intros z Hz.
    apply Hzero; [by right | by apply Hother].
  - rewrite IH; [|done..|intros z Hz; apply Hzero; by right].
    rewrite (Hzero y); [lia | left | ]. intros Heq. by apply (Hother x).
Qed.

Lemma sum_required (f : Requirement -> nat) data :
  sum_list_with f (required data) =
  sum_list_with f (flattenRequired (buildIndex data) data).
Proof. unfold required. by rewrite sortBy_perm. Qed.

Section Flatten.
Variable data : SchoolConfig.
Variable idx : Index.
Variable cls : SchoolClass.
Variable h : Requirement -> nat.
Hypothesis Hids : NoDup (map cls_id (classes data)).
Hypothesis Hcls : cls ∈ classes data.
Hypothesis Hh : forall r, req_classId r <> cls_id cls -> h r = 0.

(** Only the class itself contributes to a sum that ignores the other
    classes. *)
Lemma sum_flatten_class :
  sum_list_with h (flattenRequired idx data) =
  sum_list_with (fun kv => unitsOf (snd kv) * h (requirementFor idx (cls_id cls) kv))
                (cls_subjects cls).
Proof.
  unfold flattenRequired. rewrite sum_list_with_flat_map.
  rewrite (sum_unique cls_id _ (classes data) cls); [|done..|].
  - rewrite sum_list_with_flat_map. apply sum_list_with_ext. intros kv.
    by rewrite requirementsOf_replicate, sum_list_with_replicate.
  - intros y _ Hy. rewrite sum_list_with_flat_map. apply sum_list_with_zero.
    intros kv _. rewrite requirementsOf_replicate, sum_list_with_replicate.
    rewrite Hh; [lia | done].
Qed.
End Flatten.


Section ClassDemand.
Variable data : SchoolConfig.
Variable cls : SchoolClass.
Variables (sid : string) (N : Z).
Hypothesis Hids : NoDup (map cls_id (classes data)).
Hypothesis Hcls : cls ∈ classes data.
Hypothesis Hkeys : NoDup (cls_subjects cls).*1.
Hypothesis Hsid : (sid, N) ∈ cls_subjects cls.

Let idx := buildIndex data.
Let c := cls_id cls.

Lemma forSubject_requirementFor kv :
  forSubject c sid (requirementFor idx c kv) = String.eqb (fst kv) sid.
Proof. unfold forSubject. simpl. by rewrite String.eqb_refl. Qed.

Lemma forSubject_other r : req_classId r <> c -> forSubject c sid r = false.
Proof.
  intros Hne. unfold forSubject. apply String.eqb_neq in Hne. by rewrite Hne.
Qed.

Lemma sum_spanFor :
  sum_list_with (spanFor c sid) (required data) =
  unitsOf N * spanOf (sub_doublePeriod (subjectOrStub idx sid)).
Proof.
  rewrite sum_required. fold idx.
  rewrite (sum_flatten_class data idx cls); [|done..|].
  - rewrite (sum_unique fst _ _ (sid, N)); [|done..|].
    + unfold spanFor. fold c. rewrite forSubject_requirementFor. simpl.
      by rewrite String.eqb_refl.
    + intros [s n] _ Hne. simpl in Hne. unfold spanFor. fold c.
      rewrite forSubject_requirementFor. simpl.
      apply String.eqb_neq in Hne. rewrite Hne. lia.
  - intros r Hr. unfold spanFor. by rewrite forSubject_other.
Qed.


Lemma sum_forClass :
  sum_list_with (fun r => if forClass c r then 1 else 0) (required data) =
  weeklyDemand cls.
Proof.
  rewrite sum_required. fold idx.
  rewrite (sum_flatten_class data idx cls); [|done..|].
  - unfold weeklyDemand. apply sum_list_with_ext. intros kv.
    unfold forClass. simpl. fold c. rewrite String.eqb_refl. lia.
  - intros r Hr. unfold forClass. apply String.eqb_neq in Hr. fold c in Hr.
    by rewrite Hr.
Qed.


End ClassDemand.






(** ** The optimizer on the store agrees with the optimizer on values *)

Lemma heap_rowOf_insert (st : Heap.Store) a r a' :
  Heap.rowOf (<[a:=r]> st) a' =
  if decide (a = a' /\ a < length st) then r else Heap.rowOf st a'.
Proof.
  unfold Heap.rowOf. destruct (decide (a = a')) as [<-|Hne].
  - destruct (decide (a < length st)) as [Hlt|Hge].
    + rewrite list_lookup_insert_eq by done. by rewrite decide_True.
    + rewrite list_insert_ge by lia. rewrite decide_False; [done | tauto].
  - rewrite list_lookup_insert_ne by done. rewrite decide_False; [done | tauto].
Qed.

Lemma heap_gridView_ext (st st' : Heap.Store) (g : list nat) :
  (forall a, a ∈ g -> Heap.rowOf st' a = Heap.rowOf st a) ->
  Heap.gridView st' g = Heap.gridView st g.
Proof.
  intros H. unfold Heap.gridView. apply list_fmap_ext.
  intros i a Ha. apply H. by eapply list_elem_of_lookup_2.
Qed.

Lemma heap_view_ext (st st' : Heap.Store) (tt : Heap.TimetableRef) :
  (forall a, a ∈ mjoin tt.*2 -> Heap.rowOf st' a = Heap.rowOf st a) ->
  Heap.view st' tt = Heap.view st tt.
Proof.
  intros H. unfold Heap.view. apply list_fmap_ext. intros i [k g] Hkg. simpl.
  f_equal. apply heap_gridView_ext. intros a Ha. apply H.
  apply list_elem_of_join. exists g. split; [done|].
  apply list_elem_of_fmap. exists (k, g). split; [done|].
  by eapply list_elem_of_lookup_2.
Qed.

Lemma heap_gridView_insert_at (st : Heap.Store) a r (g : list nat) d :
  g !! d = Some a -> NoDup g -> a < length st ->
  Heap.gridView (<[a:=r]> st) g = <[d:=r]> (Heap.gridView st g).
Proof.
  intros Hd Hnd Ha. unfold Heap.gridView. apply list_eq. intros i.
  rewrite list_lookup_fmap. destruct (decide (d = i)) as [<-|Hne].
  - rewrite list_lookup_insert_eq by (rewrite length_fmap; by eapply lookup_lt_Some).
    rewrite Hd. simpl. rewrite heap_rowOf_insert. by rewrite decide_True.
  - rewrite list_lookup_insert_ne by done. rewrite list_lookup_fmap.
    destruct (g !! i) as [a'|] eqn:Hi; [|done]. simpl. f_equal.
    rewrite heap_rowOf_insert. rewrite decide_False; [done|].
    intros [<- _]. apply Hne. by eapply NoDup_lookup.
Qed.

Lemma heap_view_alGet (st : Heap.Store) (tt : Heap.TimetableRef) c :
  Js.alGet (Heap.view st tt) c = Heap.gridView st <$> Js.alGet tt c.
Proof.
  induction tt as [|[k g] tt IH]; simpl; [done|]. by case_decide.
Qed.

Lemma heap_view_keys (st : Heap.Store) (tt : Heap.TimetableRef) :
  (Heap.view st tt).*1 = tt.*1.
Proof. unfold Heap.view. rewrite <- list_fmap_compose. by apply list_fmap_ext. Qed.

Lemma heap_separate_cons st k g (tt : Heap.TimetableRef) :
  Heap.separate st ((k, g) :: tt) ->
  NoDup g /\ (forall a, a ∈ g -> a < length st /\ a ∉ mjoin tt.*2) /\
  Heap.separate st tt.
Proof.
  unfold Heap.separate. csimpl. rewrite NoDup_app, Forall_app.
  intros [(Hg & Hdis & Hrest) [Hlg Hlrest]]. repeat split; try done.
  - by eapply Forall_forall in Hlg.
  - by apply Hdis.
Qed.

Lemma heap_elem_concat (tt : Heap.TimetableRef) c g a :
  Js.alGet tt c = Some g -> a ∈ g -> a ∈ mjoin tt.*2.
Proof.
  intros Hg Ha. apply list_elem_of_join. exists g. split; [done|].
  apply list_elem_of_fmap. exists (c, g). split; [done|]. by apply alGet_Some_elem.
Qed.

(** A write into a row of the store is the write into the grid it belongs
    to. *)
Lemma heap_view_write st (tt : Heap.TimetableRef) c g d p v :
  Heap.separate st tt -> Js.alGet tt c = Some g ->
  Heap.view (Heap.write st g d p v) tt = ttSet (Heap.view st tt) c d p v.
Proof.
  intros Hsep Hg. unfold ttSet. rewrite heap_view_alGet, Hg. simpl.
  unfold Heap.write, setCell.
  assert (Heap.gridView st g !! d = Heap.rowOf st <$> g !! d) as ->
    by apply list_lookup_fmap.
  destruct (g !! d) as [a|] eqn:Hd; simpl.
  - set (r := Js.arraySet None (Heap.rowOf st a) p v).
    revert Hsep Hg. induction tt as [|[k g0] tt IH]; intros Hsep Hg; [done|].
    apply heap_separate_cons in Hsep as (Hnd & Hg0 & Hsep). simpl in Hg |- *.
    destruct (decide (c = k)) as [->|Hck].
    + injection Hg as ->. f_equal.
      * f_equal. destruct (Hg0 a) as [Ha _]; [by eapply list_elem_of_lookup_2|].
        by apply heap_gridView_insert_at.
      * apply heap_view_ext. intros a' Ha'. rewrite heap_rowOf_insert.
        rewrite decide_False; [done|]. intros [<- _].
        destruct (Hg0 a) as [_ Hn]; [by eapply list_elem_of_lookup_2|]. done.
    + f_equal; [|by apply IH]. f_equal. apply heap_gridView_ext.
      intros a' Ha'. rewrite heap_rowOf_insert. rewrite decide_False; [done|].
      intros [<- _]. destruct (Hg0 a Ha') as [_ Hn]. apply Hn.
      eapply heap_elem_concat; [done|]. by eapply list_elem_of_lookup_2.
  - symmetry. apply alReplace_id. by rewrite heap_view_alGet, Hg.
Qed.

Lemma heap_view_writeAt st (tt : Heap.TimetableRef) c d p v :
  Heap.separate st tt ->
  Heap.view (Heap.writeAt st tt c d p v) tt = ttSet (Heap.view st tt) c d p v.
Proof.
  intros Hsep. unfold Heap.writeAt. destruct (Js.alGet tt c) as [g|] eqn:Hg.
  - by apply heap_view_write.
  - unfold ttSet. by rewrite heap_view_alGet, Hg.
Qed.

Lemma heap_length_writeAt st (tt : Heap.TimetableRef) c d p v :
  length (Heap.writeAt st tt c d p v) = length st.
Proof.
  unfold Heap.writeAt, Heap.write. destruct (Js.alGet tt c) as [g|]; [|done].
  destruct (g !! d); [apply length_insert | done].
Qed.

Lemma heap_separate_length st st' (tt : Heap.TimetableRef) :
  length st <= length st' -> Heap.separate st tt -> Heap.separate st' tt.
Proof.
  intros Hlen [Hnd Hall]. split; [done|].
  eapply Forall_impl; [done|]. simpl. intros a Ha. lia.
Qed.

(** Rows that do not belong to the timetable are not written. *)
Lemma heap_rowOf_writeAt st (tt : Heap.TimetableRef) c d p v a :
  a ∉ mjoin tt.*2 -> Heap.rowOf (Heap.writeAt st tt c d p v) a = Heap.rowOf st a.
Proof.
  intros Ha. unfold Heap.writeAt, Heap.write.
  destruct (Js.alGet tt c) as [g|] eqn:Hg; [|done].
  destruct (g !! d) as [a'|] eqn:Hd; [|done].
  rewrite heap_rowOf_insert. rewrite decide_False; [done|]. intros [-> _].
  apply Ha. eapply heap_elem_concat; [done|]. by eapply list_elem_of_lookup_2.
Qed.

Lemma heap_move_spec st (tt : Heap.TimetableRef) src dst :
  Heap.separate st tt ->
  Heap.view (Heap.move st tt src dst) tt = moveEntry (Heap.view st tt) src dst /\
  length (Heap.move st tt src dst) = length st /\
  (forall a, a ∉ mjoin tt.*2 ->
             Heap.rowOf (Heap.move st tt src dst) a = Heap.rowOf st a).
Proof.
  intros Hsep. unfold Heap.move, moveEntry.
  destruct (cell (Heap.view st tt) _ _ _) as [e|]; [|done].
  assert (forall s c d p v, length s = length st ->
            Heap.separate (Heap.writeAt s tt c d p v) tt) as Hkeep.
  { intros s c d p v Hs. eapply heap_separate_length; [|done].
    rewrite heap_length_writeAt. lia. }
  destruct (double e).
  - rewrite !heap_view_writeAt, !heap_length_writeAt;
      rewrite ?heap_length_writeAt; auto.
    + repeat split; try done. intros a Ha. by rewrite !heap_rowOf_writeAt.
    + apply Hkeep. by rewrite heap_length_writeAt.
    + apply Hkeep. rewrite !heap_length_writeAt. done.
  - rewrite !heap_view_writeAt, !heap_length_writeAt; auto.
    repeat split; try done. intros a Ha. by rewrite !heap_rowOf_writeAt.
Qed.

Lemma heap_swap_spec st (tt : Heap.TimetableRef) a b :
  Heap.separate st tt ->
  Heap.view (Heap.swap a b st tt) tt = applySwap a b (Heap.view st tt) /\
  length (Heap.swap a b st tt) = length st /\
  (forall x, x ∉ mjoin tt.*2 ->
             Heap.rowOf (Heap.swap a b st tt) x = Heap.rowOf st x).
Proof.
  intros Hsep. unfold Heap.swap, applySwap.
  destruct (heap_move_spec st tt a b Hsep) as (Hv1 & Hl1 & Ho1).
  assert (Heap.separate (Heap.move st tt a b) tt) as Hsep1
    by (eapply heap_separate_length; [|done]; lia).
  destruct (heap_move_spec _ tt b a Hsep1) as (Hv2 & Hl2 & Ho2).
  rewrite Hv2, Hv1. repeat split; [lia|].
  intros x Hx. by rewrite Ho2, Ho1.
Qed.

(** [clone] appends one copy per row and leaves the old rows alone. *)
Lemma heap_clone_spec (g : list nat) : forall st g' st',
  Heap.clone st g = (g', st') ->
  g' = seq (length st) (length g) /\
  length st' = length st + length g /\
  (forall a, a < length st -> Heap.rowOf st' a = Heap.rowOf st a) /\
  (Forall (fun a => a < length st) g -> Heap.gridView st' g' = Heap.gridView st g).
Proof.
  induction g as [|a g IH]; intros st g' st'; simpl.
  - intros [= <- <-]. repeat split; try done; lia.
  - destruct (Heap.clone (st ++ [Heap.rowOf st a]) g) as [r' s'] eqn:E.
    intros [= <- <-]. destruct (IH _ _ _ E) as (Hr' & Hlen & Hold & Hnew).
    rewrite length_app in Hr', Hlen, Hold, Hnew. simpl in *.
    assert (forall x, x < length st ->
              Heap.rowOf (st ++ [Heap.rowOf st a]) x = Heap.rowOf st x) as Hsnoc.
    { intros x Hx. unfold Heap.rowOf. by rewrite lookup_app_l. }
    repeat split.
    + rewrite Hr'. f_equal. f_equal. lia.
    + lia.
    + intros x Hx. rewrite Hold by lia. by apply Hsnoc.
    + intros Hall. apply Forall_cons in Hall as [Ha Hall]. csimpl. f_equal.
      * rewrite Hold by lia. unfold Heap.rowOf at 1.
        rewrite lookup_app_r by lia. by rewrite Nat.sub_diag.
      * rewrite Hnew; [|eapply Forall_impl; [done|]; simpl; lia].
        apply heap_gridView_ext. intros x Hx. apply Hsnoc.
        by eapply Forall_forall in Hall.
Qed.

Lemma alGet_fmap {V W} (f : V -> W) (m : list (string * V)) c :
  Js.alGet ((fun kv => (fst kv, f (snd kv))) <$> m) c = f <$> Js.alGet m c.
Proof. induction m as [|[k v] m IH]; simpl; [done|]. by case_decide. Qed.

(** Mapping the values of an object commutes with assigning to a key. *)
Lemma objSet_fmap {V W} (f : V -> W) (m : list (string * V)) c v :
  (fun kv => (fst kv, f (snd kv))) <$> Js.objSet m c v =
  Js.objSet ((fun kv => (fst kv, f (snd kv))) <$> m) c (f v).
Proof.
  unfold Js.objSet. rewrite alGet_fmap. destruct (Js.alGet m c) as [v0|]; simpl.
  - induction m as [|[k v1] m IH]; simpl; [done|].
    case_decide; csimpl; [done | by rewrite IH].
  - induction m as [|[k v1] m IH]; simpl; [done|].
    destruct (Js.keyBefore c k); csimpl; [done | by rewrite IH].
Qed.

Lemma heap_view_objSet st (tt : Heap.TimetableRef) c g :
  Heap.view st (Js.objSet tt c g) =
  Js.objSet (Heap.view st tt) c (Heap.gridView st g).
Proof. unfold Heap.view. apply (objSet_fmap (Heap.gridView st)). Qed.

Lemma heap_elem_alReplace (tt : Heap.TimetableRef) c g a :
  a ∈ mjoin (Js.alReplace tt c g).*2 -> a ∈ g \/ a ∈ mjoin tt.*2.
Proof.
  induction tt as [|[k g0] tt IH]; csimpl; [set_solver|].
  case_decide; csimpl; rewrite !elem_of_app; [tauto|].
  intros [?|?%IH]; tauto.
Qed.

(** Putting a grid of new rows into the timetable keeps the rows apart. *)
Lemma heap_separate_objSet st (tt : Heap.TimetableRef) c g :
  Heap.separate st tt -> c ∈ tt.*1 ->
  NoDup g -> Forall (fun a => a < length st /\ a ∉ mjoin tt.*2) g ->
  Heap.separate st (Js.objSet tt c g) /\
  (forall a, a ∈ mjoin (Js.objSet tt c g).*2 -> a ∈ g \/ a ∈ mjoin tt.*2).
Proof.
  intros Hsep Hc Hnd Hnew. rewrite objSet_present by done. clear Hc.
  split; [|apply heap_elem_alReplace]. split.
  - revert Hsep Hnew. induction tt as [|[k g0] tt IH]; intros Hsep Hnew; [apply Hsep|].
    pose proof (heap_separate_cons _ _ _ _ Hsep) as (Hg0 & Hdis & Hrest).
    csimpl. case_decide; csimpl; apply NoDup_app.
    + repeat split; [done| |apply Hrest]. intros a Ha.
      eapply Forall_forall in Hnew; [|done]. destruct Hnew as [_ Hn].
      intros Hin. apply Hn. csimpl. apply elem_of_app. by right.
    + split; [done|]. split.
      * intros a Ha [Hin|Hin]%heap_elem_alReplace.
        -- eapply Forall_forall in Hnew; [|done]. destruct Hnew as [_ Hn].
           apply Hn. csimpl. apply elem_of_app. by left.
        -- by apply (Hdis a Ha).
      * apply IH; [done|]. eapply Forall_impl; [done|]. simpl.
        intros a [Ha Hn]. split; [done|]. intros Hin. apply Hn. csimpl.
        apply elem_of_app. by right.
  - apply Forall_forall. intros a [Ha|Ha]%heap_elem_alReplace.
    + eapply Forall_forall in Hnew; [|done]. tauto.
    + destruct Hsep as [_ Hall]. by eapply Forall_forall in Hall.
Qed.

Lemma heap_default_grid st (tt : Heap.TimetableRef) c :
  default [] (Js.alGet (Heap.view st tt) c) =
  Heap.gridView st (default [] (Js.alGet tt c)).
Proof. rewrite heap_view_alGet. by destruct (Js.alGet tt c). Qed.

Lemma heap_grid_in_store st (tt : Heap.TimetableRef) c :
  Heap.separate st tt ->
  Forall (fun a => a < length st) (default [] (Js.alGet tt c)).
Proof.
  intros [_ Hall]. destruct (Js.alGet tt c) as [g|] eqn:Hg; [|by apply Forall_nil].
  simpl. apply Forall_forall. intros a Ha.
  eapply Forall_forall in Hall; [done|]. by eapply heap_elem_concat.
Qed.

(** The trial of one swap on the store: two snapshots, the swap written into
    the live rows, and the timetable object with the snapshots put back. *)
Lemma heap_trial st (tt : Heap.TimetableRef) a b Agr st1 Bgr st2 :
  Heap.separate st tt ->
  classId a ∈ tt.*1 -> classId b ∈ tt.*1 ->
  Heap.clone st (default [] (Js.alGet tt (classId a))) = (Agr, st1) ->
  Heap.clone st1 (default [] (Js.alGet tt (classId b))) = (Bgr, st2) ->
  let st3 := Heap.swap a b st2 tt in
  let vtt := Heap.view st tt in
  let back := Js.objSet (Js.objSet tt (classId a) Agr) (classId b) Bgr in
  Heap.view st3 tt = applySwap a b vtt /\
  Heap.separate st3 tt /\
  Heap.view st3 back =
    Js.objSet (Js.objSet (applySwap a b vtt) (classId a)
                 (cloneGrid (default [] (Js.alGet vtt (classId a)))))
              (classId b) (cloneGrid (default [] (Js.alGet vtt (classId b)))) /\
  Heap.separate st3 back.
Proof.
  intros Hsep Hca Hcb HA HB st3 vtt back.
  pose proof (heap_grid_in_store st tt (classId a) Hsep) as HinA.
  pose proof (heap_grid_in_store st tt (classId b) Hsep) as HinB.
  destruct (heap_clone_spec _ _ _ _ HA) as (HAgr & Hl1 & Hold1 & Hnew1).
  destruct (heap_clone_spec _ _ _ _ HB) as (HBgr & Hl2 & Hold2 & Hnew2).
  specialize (Hnew1 HinA).
  assert (Forall (fun x => x < length st1) (default [] (Js.alGet tt (classId b))))
    as HinB1 by (eapply Forall_impl; [done|]; simpl; lia).
  specialize (Hnew2 HinB1).
  assert (forall x, x ∈ mjoin tt.*2 -> x < length st) as Hlive.
  { intros x Hx. destruct Hsep as [_ Hall]. by eapply Forall_forall in Hall. }
  assert (Heap.view st2 tt = vtt) as Hv2.
  { apply heap_view_ext. intros x Hx%Hlive. rewrite Hold2, Hold1 by lia. done. }
  assert (Heap.separate st2 tt) as Hsep2
    by (eapply heap_separate_length; [|done]; lia).
  destruct (heap_swap_spec st2 tt a b Hsep2) as (Hv3 & Hl3 & Hout3).
  fold st3 in Hv3, Hl3, Hout3. rewrite Hv2 in Hv3.
  assert (Heap.separate st3 tt) as Hsep3
    by (eapply heap_separate_length; [|done]; lia).
  assert (forall x, x ∈ Agr -> length st <= x < length st1) as HAr.
  { intros x Hx. rewrite HAgr in Hx. apply elem_of_seq in Hx. lia. }
  assert (forall x, x ∈ Bgr -> length st1 <= x < length st2) as HBr.
  { intros x Hx. rewrite HBgr in Hx. apply elem_of_seq in Hx. lia. }
  assert (Heap.gridView st3 Agr = cloneGrid (default [] (Js.alGet vtt (classId a))))
    as HvA.
  { rewrite cloneGrid_id. unfold vtt. rewrite heap_default_grid, <- Hnew1.
    apply heap_gridView_ext. intros x Hx%HAr.
    rewrite Hout3 by (intros Hin%Hlive; lia). apply Hold2. lia. }
  assert (Heap.gridView st3 Bgr = cloneGrid (default [] (Js.alGet vtt (classId b))))
    as HvB.
  { rewrite cloneGrid_id. unfold vtt. rewrite heap_default_grid.
    transitivity (Heap.gridView st1 (default [] (Js.alGet tt (classId b)))).
    - rewrite <- Hnew2. apply heap_gridView_ext. intros x Hx%HBr.
      apply Hout3. intros Hin%Hlive. lia.
    - apply heap_gridView_ext. intros x Hx. apply Hold1.
      by eapply Forall_forall in HinB. }
  split; [done|]. split; [done|]. split.
  - unfold back. by rewrite !heap_view_objSet, Hv3, HvA, HvB.
  - assert (NoDup Agr) as HndA by (rewrite HAgr; apply NoDup_seq).
    assert (NoDup Bgr) as HndB by (rewrite HBgr; apply NoDup_seq).
    assert (Forall (fun x => x < length st3 /\ x ∉ mjoin tt.*2) Agr) as HfA.
    { apply Forall_forall. intros x Hx%HAr. split; [lia|].
      intros Hin%Hlive. lia. }
    destruct (heap_separate_objSet st3 tt (classId a) Agr Hsep3 Hca HndA HfA)
      as [HsepA HelA].
    assert (classId b ∈ (Js.objSet tt (classId a) Agr).*1) as Hcb'
      by (rewrite objSet_present, alReplace_keys by done; done).
    assert (Forall (fun x => x < length st3 /\
                             x ∉ mjoin (Js.objSet tt (classId a) Agr).*2) Bgr) as HfB.
    { apply Forall_forall. intros x Hx%HBr. split; [lia|].
      intros [Hin%HAr|Hin%Hlive]%HelA; lia. }
    by destruct (heap_separate_objSet st3 _ (classId b) Bgr HsepA Hcb' HndB HfB).
Qed.

(** One turn on the store is one turn on values. *)
Lemma heap_step_sim data hs vs :
  sameRun hs vs -> NoDup (opt_timetable vs).*1 ->
  match Heap.step data hs, optStep data vs with
  | Some hs', Some vs' => sameRun hs' vs'
  | None, None => True
  | _, _ => False
  end.
Proof.
  destruct hs as [st tt r bst], vs as [vtt vr vb].
  intros (Hsep & Hview & Hr & Hb) Hnd. simpl in *. subst vtt vr vb.
  unfold Heap.step, optStep. simpl.
  set (vtt := Heap.view st tt) in *.
  set (pool := collectAssignedSlots vtt data).
  destruct (length pool <? 2); [done|].
  destruct (pool !! _) as [a|] eqn:Ea; [|by (unfold sameRun; simpl; split; [exact Hsep|repeat split])].
  destruct (pool !! Rng.index (Rng.next (Rng.next _)) _) as [b|] eqn:Eb;
    [|by (unfold sameRun; simpl; split; [exact Hsep|repeat split])].
  apply list_elem_of_lookup_2 in Ea, Eb.
  destruct (_ && _); [by (unfold sameRun; simpl; split; [exact Hsep|repeat split])|].
  destruct (swapFeasible a b vtt data); [|by (unfold sameRun; simpl; split; [exact Hsep|repeat split])]. simpl.
  destruct (pool_elem _ _ _ Hnd Ea) as (ga & Hga & _).
  destruct (pool_elem _ _ _ Hnd Eb) as (gb & Hgb & _).
  assert (forall c g, Js.alGet vtt c = Some g -> c ∈ tt.*1) as Hkey.
  { intros c g Hg. rewrite <- (heap_view_keys st tt).
    destruct (decide (c ∈ (Heap.view st tt).*1)) as [|Hn]; [done|].
    apply alGet_None in Hn. unfold vtt in Hg. congruence. }
  destruct (Heap.clone st _) as [Agr st1] eqn:HA.
  destruct (Heap.clone st1 _) as [Bgr st2] eqn:HB.
  destruct (heap_trial st tt a b Agr st1 Bgr st2 Hsep (Hkey _ _ Hga) (Hkey _ _ Hgb)
              HA HB) as (Hv3 & Hsep3 & Hback & Hsepb).
  fold vtt in Hv3, Hback. rewrite Hv3.
  destruct (totalPenalty (applySwap a b vtt) data <? bst)%Z.
  - unfold sameRun; simpl. by split; [|repeat split].
  - unfold sameRun; simpl. by split; [|repeat split].
Qed.

Lemma heap_run_sim data n hs vs :
  sameRun hs vs -> OptInv data (greedy data) vs ->
  sameRun (Heap.run data n hs) (optLoop data n vs).
Proof.
  revert hs vs. induction n as [|n IH]; intros hs vs Hsim Hinv; [done|]. simpl.
  pose proof (heap_step_sim data hs vs Hsim (proj1 (proj1 Hinv))) as Hstep.
  destruct (Heap.step data hs) as [hs'|], (optStep data vs) as [vs'|] eqn:E;
    try done.
  apply IH; [done|]. by eapply optStep_inv.
Qed.

Lemma heap_layout_rows off (tt : Timetable) :
  mjoin (Heap.layout off tt).*2 = seq off (length (mjoin tt.*2)).
Proof.
  revert off. induction tt as [|[k g] tt IH]; intros off; csimpl; [done|].
  rewrite IH, length_app. by rewrite seq_app.
Qed.

Lemma heap_layout_view (pre : Heap.Store) (tt : Timetable) :
  Heap.view (pre ++ mjoin tt.*2) (Heap.layout (length pre) tt) = tt.
Proof.
  revert pre. induction tt as [|[k g] tt IH]; intros pre; csimpl; [done|].
  f_equal.
  - f_equal. unfold Heap.gridView. apply list_eq. intros i.
    rewrite list_lookup_fmap. destruct (decide (i < length g)) as [Hi|Hi].
    + rewrite lookup_seq_lt by done. simpl. unfold Heap.rowOf.
      rewrite lookup_app_r by lia. rewrite lookup_app_l by lia.
      replace (length pre + i - length pre) with i by lia.
      by destruct (lookup_lt_is_Some_2 g i Hi) as [row ->].
    + rewrite lookup_seq_ge by lia. simpl. symmetry. apply lookup_ge_None_2. lia.
  - specialize (IH (pre ++ g)%list). rewrite length_app, <- app_assoc in IH. done.
Qed.

Lemma heap_init_sameRun data options :
  sameRun (Heap.init data options) (optInit data options).
Proof.
  unfold sameRun, Heap.init, optInit. simpl. split; [|split; [|done]].
  - split.
    + rewrite heap_layout_rows. apply NoDup_seq.
    + rewrite heap_layout_rows. apply Forall_forall. intros a Ha.
      apply elem_of_seq in Ha. lia.
  - apply (heap_layout_view [] (greedy data)).
Qed.

(** The run on the store and the run on values, turn by turn. *)
Lemma heap_run_agrees data options k :
  sameRun (Heap.run data k (Heap.init data options))
          (optLoop data k (optInit data options)).
Proof. apply heap_run_sim; [apply heap_init_sameRun | apply optInit_inv]. Qed.

(** * The claims *)

(** C1 (no double-booking).  Immediately after the greedy pass, after every
    turn of the optimizer loop (whatever the turn did: skipped, swap kept or
    swap reverted) and in the timetable that is returned, two distinct
    classes never have the same teacher id, nor the same resource id, in
    their cells at one (day, period).  It holds for every school
    configuration and all options. *)
Theorem no_double_booking_at_every_point (data : SchoolConfig) (options : Options) :
  noDoubleBooking (greedy data) /\
  (forall k, noDoubleBooking (opt_timetable (optLoop data k (optInit data options)))) /\
  (forall t0 t1, noDoubleBooking (timetable (generateTimetable data options t0 t1))).
Proof.
  assert (forall k, noDoubleBooking
                      (opt_timetable (optLoop data k (optInit data options)))) as H.
  { intros k. destruct (reachable_inv data options k) as (_ & _ & Hdom & _).
    eapply dominated_noDoubleBooking; [done|]. apply greedy_inv. }
  split; [apply (H 0)|]. split; [done|]. intros t0 t1. apply H.
Qed.

(** C2, at a concrete run (the code does not do what the claim says).
    In [demoSchool] the greedy pass puts Math in the first period of [c1]
    and Art in the second and third periods of [c2].  With seed 1 the first
    turn of the optimizer draws A = the Math lesson and B = the first Art
    lesson; the swap is feasible, is applied and is kept.  Afterwards A is
    still in its own cell, B's cell is empty and B is nowhere: the second
    [moveEntry] reads B's cell after the first one has overwritten it. *)
Theorem applySwap_loses_second_entry :
  let tt := greedy demoSchool in
  let a := mkSlot "c1" 0 0 mathLesson in
  let b := mkSlot "c2" 0 1 artLesson in
  tt = [("c1", [[Some mathLesson; None; None; None]]);
        ("c2", [[None; Some artLesson; Some artLesson; None]])] /\
  collectAssignedSlots tt demoSchool = [a; b; mkSlot "c2" 0 2 artLesson] /\
  swapFeasible a b tt demoSchool = true /\
  applySwap a b tt =
    [("c1", [[Some mathLesson; None; None; None]]);
     ("c2", [[None; None; Some artLesson; None]])] /\
  timetable (generateTimetable demoSchool (mkOptions (Some 1%Z) (Some 1%Z)) 0 0) =
    applySwap a b tt.
Proof. vm_compute. by repeat split. Qed.




(** C4, as stated, fails: the evaluator has no exception for double
    periods.  The greedy timetable of [doubleSchool] is one double period
    and nothing else; its penalty is 10, where the claim's count (adjacent
    pairs other than the two halves of a double) gives 0. *)
Lemma double_period_is_charged :
  let tt := greedy doubleSchool in
  tt = [("c1", [[Some (mkEntry "sc" (Some "t1") None true (Some true) false);
                 Some (mkEntry "sc" (Some "t1") None true (Some false) false)]])] /\
  penaltyScore (computeDiagnostics tt doubleSchool) = 10%Z /\
  penaltyScore (computeDiagnostics tt doubleSchool) <>
    (20 * Z.of_nat (windowCount (fun g d p => isMarker (cellAt g d p)) 1 2 tt)
     + 10 * Z.of_nat (windowCount (adjacentPairSpec 2) 1 2 tt)
     + gapPenalty (acc_usage (diagPass1 tt doubleSchool)))%Z.
Proof. vm_compute. repeat split. intros [=]. Qed.

(** C4, amended (adjacency penalty).  For a timetable whose grids have a
    row for every working day (on any other the evaluator stops with a
    TypeError at its first read in a row that is not there), the penalty is
    20 for every unassigned marker, 10 for every pair of cells at periods
    [p] and [p + 1] of one class and day that are both assigned entries with
    the same (non-empty) subject id, the two halves of a double period
    included, and the idle-gap penalty of the second pass; the exported
    [computePenalty] returns that number. *)
Theorem adjacency_penalty (tt : Timetable) (data : SchoolConfig) :
  let days := workingDays data in
  let periods := periodsPerDay data in
  let score :=
    (20 * Z.of_nat (windowCount (fun g d p => isMarker (cellAt g d p)) days periods tt)
     + 10 * Z.of_nat (windowCount (adjacentPair periods) days periods tt)
     + gapPenalty (acc_usage (diagPass1 tt data)))%Z in
  Forall (fun kg : string * Grid => days <= length kg.2) tt ->
  penaltyScore (computeDiagnostics tt data) = score /\
  unassignedCount (computeDiagnostics tt data) =
    Z.of_nat (windowCount (fun g d p => isMarker (cellAt g d p)) days periods tt) /\
  computePenalty tt data = Some score.
Proof.
  intros days periods score Hrows.
  assert (penaltyScore (computeDiagnostics tt data) = score) as Hscore.
  { unfold computeDiagnostics, score. simpl.
    by destruct (diagPass1_counters tt data) as [-> _]. }
  split; [done|]. split.
  - unfold computeDiagnostics. simpl.
    by destruct (diagPass1_counters tt data) as [_ ->].
  - unfold computePenalty. fold days periods.
    by rewrite (rowsThere_true days periods tt Hrows), Hscore.
Qed.

Lemma adjacency_penalty_witness :
  computePenalty (greedy doubleSchool) doubleSchool = Some 10%Z.
Proof.
  destruct (adjacency_penalty (greedy doubleSchool) doubleSchool) as (_ & _ & H).
  - vm_compute. repeat constructor.
  - rewrite H. reflexivity.
Defined.

(** C5, as stated, fails: teacher records are not told apart by their ids.
    [twinSchool] has two records of id [t]; the generator keeps the maximal
    load of the second, 5, and gives [t] three lessons, more than the
    maximal load, 1, of the first record, which is a teacher of the
    configuration like the other. *)
Lemma last_record_sets_the_load :
  let tt := timetable (generateTimetable twinSchool (mkOptions (Some 0%Z) None) 0 0) in
  twinFirst ∈ teachers twinSchool /\
  tch_id twinFirst = "t" /\ tch_maxLoad twinFirst = 1%Z /\
  countCells (hasTeacher "t") tt = 3 /\
  ~ (Z.of_nat (countCells (hasTeacher "t") tt) <= tch_maxLoad twinFirst)%Z.
Proof.
  vm_compute. repeat split; [apply list_elem_of_here | intros H; by apply H].
Qed.

(** C5, amended (load bound).  In the timetable [generateTimetable]
    returns, the number of cells, over all classes, that carry a teacher id
    is at most the [maxLoad] of the last teacher record with that id (or 0,
    if that [maxLoad] is negative), and no cell carries an id that no record
    has.  So where teachers are told apart by their ids, every teacher's
    cells are at most that teacher's own [maxLoad], if it is not negative. *)
Theorem teacher_load_bound (data : SchoolConfig) (options : Options)
    (t0 t1 : Z) (t : string) :
  let cells :=
    Z.of_nat (countCells (hasTeacher t)
                         (timetable (generateTimetable data options t0 t1))) in
  match last (filter (fun T => tch_id T = t) (teachers data)) with
  | Some T => (cells <= Z.max 0 (tch_maxLoad T))%Z
  | None => cells = 0%Z
  end /\
  (forall T,
      NoDup (map tch_id (teachers data)) -> T ∈ teachers data -> tch_id T = t ->
      (0 <= tch_maxLoad T)%Z -> (cells <= tch_maxLoad T)%Z).
Proof.
  intros cells. unfold cells. simpl.
  destruct (reachable_inv data options (iterationsOf options)) as (_ & _ & Hdom & _).
  destruct (greedy_inv data) as (Hwf & _ & _ & _ & _ & Hcnt & Hbound).
  pose proof (dominated_count t _ _ (proj1 Hwf) Hdom) as Hle.
  specialize (Hcnt t). specialize (Hbound t). unfold greedy in Hle.
  split.
  - rewrite maxLoads_last in Hbound.
    destruct (last (filter _ (teachers data))) as [T|]; simpl in Hbound; lia.
  - intros T Hnd HT <- Hmax.
    rewrite (maxLoads_lookup data T) in Hbound by done. simpl in Hbound. lia.
Qed.

Lemma teacher_load_bound_witness :
  (Z.of_nat (countCells (hasTeacher "t1")
               (timetable (generateTimetable demoSchool (mkOptions None None) 0 0)))
   <= 20)%Z.
Proof.
  destruct (teacher_load_bound demoSchool (mkOptions None None) 0 0 "t1") as [_ H].
  apply (H demoMath).
  - simpl. apply NoDup_cons. split; [|apply NoDup_singleton].
    intros H1. apply list_elem_of_singleton in H1. discriminate H1.
  - simpl. apply list_elem_of_here.
  - reflexivity.
  - simpl. lia.
Defined.

(** C6 (rollback of rejected swaps).  The run is the one on the store of
    row arrays, where the snapshots are the copies [cloneGrid] makes and the
    swap is written into the live rows.  Every turn of the optimizer loop
    either leaves the timetable with exactly the contents it had (a turn
    that was skipped, or whose swap was tried, not accepted and undone by
    putting the two snapshots back) or keeps a swap whose penalty is
    strictly below the best so far; so the penalty of the timetable in hand
    never exceeds that of the greedy result, at whatever turn the budget
    runs out, and no row array is ever shared between two places of it. *)
Theorem rejected_swap_rolled_back (data : SchoolConfig) (options : Options) (k : nat) :
  let s := Heap.run data k (Heap.init data options) in
  let s' := Heap.run data (S k) (Heap.init data options) in
  let before := Heap.view (Heap.store s) (Heap.refs s) in
  let after := Heap.view (Heap.store s') (Heap.refs s') in
  (after = before \/
   (exists a b,
       swapFeasible a b before data = true /\
       after = applySwap a b before /\
       (totalPenalty after data < totalPenalty before data)%Z)) /\
  (totalPenalty before data <= totalPenalty (greedy data) data)%Z /\
  Heap.separate (Heap.store s) (Heap.refs s).
Proof.
  intros s s' before after.
  destruct (heap_run_agrees data options k) as (Hsep & Hv & _).
  destruct (heap_run_agrees data options (S k)) as (_ & Hv' & _).
  fold s in Hsep, Hv. fold s' in Hv'. fold before in Hv. fold after in Hv'.
  rewrite Hv, Hv'. split; [|split; [|done]]; clear Hsep Hv Hv' before after s s'.
  - rewrite optLoop_S.
    set (st := optLoop data k (optInit data options)).
    destruct (reachable_inv data options k) as (Hwf & _ & _ & Hbest).
    fold st in Hwf, Hbest.
    destruct (optStep data st) as [st1|] eqn:E; [|by left].
    destruct (optStep_cases _ _ _ Hwf E)
      as [[Htt _]|(a & b & _ & _ & Hf & Htt & Hb1 & Hlt)]; [by left|].
    right. exists a, b. repeat split; try done. rewrite <- Hb1, <- Hbest. done.
  - induction k as [|k IH]; [simpl; lia|].
    pose proof (proj1 (best_penalty_helper data options) k) as Hle.
    pose proof (proj2 (best_penalty_helper data options)) as Heq.
    rewrite !Heq in Hle. lia.
Qed.

(** C7 (optimizer monotonicity).  [bestPenalty] never goes up from one turn
    of the loop to the next, it is at every turn the penalty of the
    timetable in hand, and the [penaltyScore] returned is
    [computeDiagnostics] of the timetable returned. *)
Theorem best_penalty_non_increasing (data : SchoolConfig) (options : Options) :
  (forall k,
      (opt_best (optLoop data (S k) (optInit data options)) <=
       opt_best (optLoop data k (optInit data options)))%Z) /\
  (forall k,
      opt_best (optLoop data k (optInit data options)) =
      totalPenalty (opt_timetable (optLoop data k (optInit data options))) data) /\
  (forall t0 t1,
      penaltyScore (diag (diagnostics (generateTimetable data options t0 t1))) =
      penaltyScore
        (computeDiagnostics (timetable (generateTimetable data options t0 t1)) data)).
Proof.
  destruct (best_penalty_helper data options) as [Hle Heq].
  split; [done|]. split; [done|]. done.
Qed.

(** C8 (no optimization).  With [optimizeIterations = 0] the loop body is
    never entered, and what is returned is the greedy timetable and its
    diagnostics. *)
Theorem zero_iterations_returns_greedy (data : SchoolConfig) (sd : option Z)
    (t0 t1 : Z) :
  iterationsOf (mkOptions (Some 0%Z) sd) = 0 /\
  timetable (generateTimetable data (mkOptions (Some 0%Z) sd) t0 t1) = greedy data /\
  diag (diagnostics (generateTimetable data (mkOptions (Some 0%Z) sd) t0 t1)) =
  computeDiagnostics (greedy data) data.
Proof. by repeat split. Qed.

(** C9, as stated, fails: the diagnostics carry [timeTakenMs] and [timeMs],
    the difference of two clock readings, so two calls with the same
    configuration, seed and budget whose clock readings differ return
    different diagnostics.  The amended claim is proved below, with the
    order of the requirements. *)
Lemma timing_fields_differ :
  diagnostics (generateTimetable demoSchool (mkOptions None None) 0 5) <>
  diagnostics (generateTimetable demoSchool (mkOptions None None) 0 7).
Proof. vm_compute. intros [=]. Qed.

(** C10 (seed 0).  A seed of 0 is replaced by 42 before the generator is
    created, so it gives the run of seed 42, which is also the run of a
    seed that is left out. *)
Theorem seed_zero_is_default (data : SchoolConfig) (it : option Z) (t0 t1 : Z) :
  generateTimetable data (mkOptions it (Some 0%Z)) t0 t1 =
  generateTimetable data (mkOptions it (Some 42%Z)) t0 t1 /\
  generateTimetable data (mkOptions it (Some 0%Z)) t0 t1 =
  generateTimetable data (mkOptions it None) t0 t1.
Proof. by split. Qed.

(** * Further properties *)

(** ** The optimizer only empties cells *)

Lemma onlyEmptied_refl tt : onlyEmptied tt tt.
Proof. split; [done|]. intros c d p e He. by exists e. Qed.

Lemma onlyEmptied_trans tt1 tt2 tt3 :
  onlyEmptied tt1 tt2 -> onlyEmptied tt2 tt3 -> onlyEmptied tt1 tt3.
Proof.
  intros [Hk1 H1] [Hk2 H2]. split; [congruence|].
  intros c d p e1 He1. destruct (H1 _ _ _ _ He1) as (e2 & He2 & E12).
  destruct (H2 _ _ _ _ He2) as (e3 & He3 & E23).
  exists e3. split; [done | congruence].
Qed.

Lemma applySwap_onlyEmptied data tt a b :
  wfTT (workingDays data) tt -> paired tt ->
  a ∈ collectAssignedSlots tt data -> b ∈ collectAssignedSlots tt data ->
  onlyEmptied (applySwap a b tt) tt.
Proof.
  intros Hwf Hpaired Ha Hb.
  split; [unfold applySwap; by rewrite !moveEntry_keys|].
  destruct (pool_elem _ _ _ (proj1 Hwf) Ha) as (ga & Hga & Hda & Hpa & Hca & Hua & Hha).
  intros c d p e'.
  rewrite (cell_applySwap tt a b (entry a)); [|by eapply pool_inShape..|done].
  pose proof (secondHalf_false _ Hha) as Hhead.
  unfold nextOf, posOf. repeat case_decide.
  - intros [= <-]. destruct_and!. simplify_eq.
    exists (withHead (entry a) (Some false)).
    split; [apply Hpaired; auto | done].
  - intros [= <-]. simplify_eq. eauto.
  - done.
  - done.
  - eauto.
Qed.

Lemma optLoop_onlyEmptied data tt0 n st :
  OptInv data tt0 st ->
  onlyEmptied (opt_timetable (optLoop data n st)) (opt_timetable st).
Proof.
  revert st. induction n as [|n IH]; intros st Hinv; [apply onlyEmptied_refl|].
  simpl. destruct (optStep data st) as [st1|] eqn:E; [|apply onlyEmptied_refl].
  eapply onlyEmptied_trans; [apply IH; by eapply optStep_inv|].
  destruct Hinv as (Hwf & Hp & _ & _).
  destruct (optStep_cases _ _ _ Hwf E) as [[-> _]|(a & b & Ha & Hb & _ & -> & _)].
  - apply onlyEmptied_refl.
  - by eapply applySwap_onlyEmptied.
Qed.

Lemma result_onlyEmptied data options t0 t1 :
  onlyEmptied (timetable (generateTimetable data options t0 t1)) (greedy data).
Proof.
  simpl. apply (optLoop_onlyEmptied data (greedy data)), optInit_inv.
Qed.

(** ** What the greedy pass writes *)

Lemma everyCell_writeSpan Q tt c d p rd e1 e2 :
  inShape tt c d -> everyCell Q tt ->
  Q c d p e1 -> (rd = true -> Q c d (p + 1) e2) ->
  everyCell Q (writeSpan tt c d p rd e1 e2).
Proof.
  intros Hs Hall H1 H2 c' d' p' e. rewrite cell_writeSpan by done.
  repeat case_decide.
  - intros [= <-]. destruct_and!. simplify_eq. auto.
  - intros [= <-]. simplify_eq. auto.
  - apply Hall.
Qed.

Lemma chooseResource_Some avail rt bk d ps chosen :
  chooseResource avail rt bk d ps = Some chosen ->
  match chosen with
  | Some r =>
      exists ty, rt = Some ty /\ ty <> "" /\ r ∈ default [] (avail !! ty) /\
                 resourceFree r d ps = true /\
                 resourceOccupied (resourceSchedule bk) (res_id r) d ps = false
  | None => Js.truthy rt = false
  end.
Proof.
  unfold chooseResource. destruct (Js.truthy rt) eqn:Hrt.
  - destruct (List.find _ _) as [r|] eqn:Hfind; [|done]. intros [= <-].
    apply find_some in Hfind as [Hin Hok].
    apply andb_true_iff in Hok as [Hfree Hocc]. apply negb_true_iff in Hocc.
    destruct rt as [ty|]; [|done]. exists ty. simpl in *.
    repeat split; try done.
    + intros ->. done.
    + by apply list_elem_of_In.
  - by intros [= <-].
Qed.

Lemma findPlacement_who teacherList teachersById maxLoadByTeacher dayCount
    periodCount availableResources g sid rd rt bk pl :
  findPlacement teacherList teachersById maxLoadByTeacher dayCount periodCount
                availableResources g sid rd rt bk = Some pl ->
  pl_teacher pl ∈ teacherList /\
  exists T,
    teachersById !! pl_teacher pl = Some T /\
    teacherCanTeach T sid = true /\
    checkTeacherAvailability T (pl_day pl) (periodsAt rd (pl_period pl)) = true /\
    chooseResource availableResources rt bk (pl_day pl)
                   (periodsAt rd (pl_period pl)) = Some (pl_resource pl).
Proof.
  unfold findPlacement. intros H.
  apply findMap_Some in H as (d & Hd & H).
  apply findMap_Some in H as (p & Hp & H).
  destruct (slotsAreFree g d (periodsAt rd p)); [|done].
  apply findMap_Some in H as (tid & Htid & H).
  unfold tryTeacher in H.
  destruct (teachersById !! tid) as [t|] eqn:Ht; [|done].
  destruct (teacherCanTeach t sid) eqn:Hcan; [|done].
  destruct (checkTeacherAvailability t d (periodsAt rd p)) eqn:Hav; [|done].
  simpl in H.
  destruct (negb (teacherFreeSchedule _ tid d _)); [done|].
  destruct (_ <? _)%Z; [done|].
  destruct (chooseResource _ _ _ _ _) as [chosen|] eqn:Hres; [|done].
  injection H as <-. simpl. split; [done|]. by exists t.
Qed.

Section GreedyCells.
Variable data : SchoolConfig.
Variable Q : string -> nat -> nat -> Entry -> Prop.

Let idx := buildIndex data.
Let search (slot : Requirement) (g : Grid) (bk : Booking) :=
  findPlacement (teacherOrder data) (teachersById idx) (maxLoads data)
    (workingDays data) (periodsPerDay data) (resourcesByType idx)
    g (req_subjectId slot) (req_requiresDouble slot) (req_resourceType slot) bk.

Hypothesis Hassigned :
  forall slot g bk pl q h,
    slot ∈ required data -> search slot g bk = Some pl ->
    q ∈ periodsAt (req_requiresDouble slot) (pl_period pl) ->
    Q (req_classId slot) (pl_day pl) q
      (withHead (assignedEntry (req_subjectId slot) (req_requiresDouble slot) pl) h).

Hypothesis Hmarker :
  forall slot d p,
    slot ∈ required data -> d < workingDays data -> p < periodsPerDay data ->
    Q (req_classId slot) d p (unassignedEntry (req_subjectId slot)).

Lemma assignStep_everyCell st slot :
  slot ∈ required data -> GreedyInv data st -> everyCell Q (fst st) ->
  everyCell Q (fst (assignStep idx data st slot)).
Proof.
  intros Hslot Hinv Hall. destruct st as [tt bk]. simpl in Hall.
  pose proof (proj1 Hinv) as Hwf. simpl in Hwf.
  destruct (assignStep_cases idx data tt bk slot)
    as [[-> _]|[(g & pl & Hg & Hs & ->)|(g & d & p & Hg & _ & Hfree & ->)]];
    [done| |]; simpl.
  - destruct (findPlacement_Some _ _ _ _ _ _ _ _ _ _ _ _ Hs) as (Hd & Hp & _).
    apply everyCell_writeSpan; [by eapply wfTT_inShape|done| |].
    + apply (Hassigned slot g bk pl _
               (if req_requiresDouble slot then Some true else None)); [done..|].
      destruct (req_requiresDouble slot); simpl; set_solver.
    + intros Hrd. apply (Hassigned slot g bk pl); [done..|].
      rewrite Hrd. simpl. set_solver.
  - apply findFreeSpan_Some in Hfree as (Hd & Hp & _).
    apply everyCell_writeSpan; [by eapply wfTT_inShape|done| |].
    + apply Hmarker; [done..|]. destruct (req_requiresDouble slot); simpl in Hp; lia.
    + intros Hrd. rewrite Hrd in Hp. simpl in Hp. apply Hmarker; [done..|lia].
Qed.

Lemma fold_everyCell l st :
  (forall slot, slot ∈ l -> slot ∈ required data) ->
  GreedyInv data st -> everyCell Q (fst st) ->
  everyCell Q (fst (fold_left (assignStep idx data) l st)).
Proof.
  revert st. induction l as [|slot l IH]; intros st Hl Hinv Hall; [done|].
  simpl. apply IH.
  - intros s Hs. apply Hl. by right.
  - by apply assignStep_inv.
  - apply assignStep_everyCell; [apply Hl; by left|done..].
Qed.

Lemma greedy_everyCell : everyCell Q (greedy data).
Proof.
  unfold greedy, greedyState. apply fold_everyCell; [done|apply GreedyInv_init|].
  intros c d p e. simpl. by rewrite cell_emptyTimetable.
Qed.
End GreedyCells.

(** ** The indices of [buildIndex] *)

Lemma fold_indexById {A} (key : A -> string) (l : list A) (m : gmap string A) k :
  fold_left (fun (m : gmap string A) x => <[key x := x]> m) l m !! k =
  match last (filter (fun x => key x = k) l) with
  | Some x => Some x
  | None => m !! k
  end.
Proof.
  revert m. induction l as [|x l IH]; intros m; simpl; [done|].
  rewrite IH, filter_cons. case_decide as Hk.
  - rewrite last_cons. destruct (last (filter _ l)); [done|].
    by rewrite <- Hk, lookup_insert_eq.
  - destruct (last (filter _ l)); [done|]. by rewrite lookup_insert_ne.
Qed.

Lemma indexById_lookup {A} (key : A -> string) (l : list A) k :
  indexById key l !! k = last (filter (fun x => key x = k) l).
Proof.
  unfold indexById. rewrite fold_indexById, lookup_empty.
  by destruct (last _).
Qed.

Lemma indexById_Some {A} (key : A -> string) (l : list A) k x :
  indexById key l !! k = Some x -> x ∈ l /\ key x = k.
Proof.
  rewrite indexById_lookup. intros H. apply last_Some in H as [l' H].
  assert (x ∈ filter (fun x => key x = k) l) as Hin by (rewrite H; set_solver).
  by apply list_elem_of_filter in Hin as [? ?].
Qed.

Lemma fold_groupByType (l : list Resource) (m : gmap string (list Resource)) ty :
  fold_left
    (fun (m : gmap string (list Resource)) r =>
       <[res_type r := (default [] (m !! res_type r) ++ [r])%list]> m) l m !! ty =
  match filter (fun r => res_type r = ty) l with
  | [] => m !! ty
  | fl => Some (default [] (m !! ty) ++ fl)%list
  end.
Proof.
  revert m. induction l as [|r l IH]; intros m; simpl; [done|].
  rewrite IH, filter_cons. case_decide as Hk.
  - subst ty. rewrite lookup_insert_eq. simpl.
    destruct (filter _ l); [done|]. by rewrite <- app_assoc.
  - rewrite lookup_insert_ne by done. done.
Qed.

Lemma groupByType_lookup (l : list Resource) ty :
  groupByType l !! ty =
  match filter (fun r => res_type r = ty) l with
  | [] => None
  | fl => Some fl
  end.
Proof.
  unfold groupByType. rewrite fold_groupByType, lookup_empty.
  by destruct (filter _ l).
Qed.

Lemma groupByType_elem (l : list Resource) ty r :
  r ∈ default [] (groupByType l !! ty) <-> r ∈ l /\ res_type r = ty.
Proof.
  rewrite groupByType_lookup.
  transitivity (r ∈ filter (fun r => res_type r = ty) l).
  - destruct (filter _ l); simpl; [set_solver | done].
  - rewrite list_elem_of_filter. tauto.
Qed.

(** ** The list of requirements *)

Lemma required_elem data r :
  r ∈ required data ->
  exists cls kv,
    cls ∈ classes data /\ kv ∈ cls_subjects cls /\
    r = requirementFor (buildIndex data) (cls_id cls) kv /\
    0 < unitsOf (snd kv).
Proof.
  unfold required. rewrite sortBy_perm. unfold flattenRequired.
  intros H. apply list_elem_of_In, in_flat_map in H as (cls & Hcls & H).
  apply in_flat_map in H as (kv & Hkv & H).
  rewrite requirementsOf_replicate in H. apply list_elem_of_In in H.
  apply elem_of_replicate in H as [-> Hn].
  exists cls, kv. repeat split; try by apply list_elem_of_In. lia.
Qed.

Lemma allAvailable_one dayArr ps q :
  allAvailable dayArr ps = true -> q ∈ ps -> allAvailable dayArr [q] = true.
Proof.
  unfold allAvailable. rewrite forallb_forall. intros H Hq.
  simpl. rewrite andb_true_r. by apply H, list_elem_of_In.
Qed.

Lemma checkTeacherAvailability_one T d ps q :
  checkTeacherAvailability T d ps = true -> q ∈ ps ->
  checkTeacherAvailability T d [q] = true.
Proof.
  unfold checkTeacherAvailability. destruct (_ !! d); [|done].
  apply allAvailable_one.
Qed.

Lemma resourceFree_one R d ps q :
  resourceFree R d ps = true -> q ∈ ps -> resourceFree R d [q] = true.
Proof.
  unfold resourceFree. destruct (res_availability R) as [av|]; [|done].
  destruct (av !! d); [|done]. apply allAvailable_one.
Qed.

Lemma everyCell_onlyEmptied (Q : string -> nat -> nat -> Entry -> Prop) tt' tt :
  (forall c d p e h, Q c d p e -> Q c d p (withHead e h)) ->
  onlyEmptied tt' tt -> everyCell Q tt -> everyCell Q tt'.
Proof.
  intros HQ [_ Hdom] Hall c d p e' He'.
  destruct (Hdom _ _ _ _ He') as (e & He & Heq).
  assert (e' = withHead (withHead e None) (headOfDouble e')) as ->.
  { rewrite Heq. by destruct e'. }
  apply HQ, HQ. by apply Hall.
Qed.

(** ** The lessons of the timetable returned *)

(** X1 (qualified and available teachers).  Whatever the options, a cell of
    the timetable returned that names a teacher names one of the
    configuration (the record [teachersById] holds for that id) who lists
    the cell's subject among [subjects] and whose [availability] is [true]
    at the cell's day and period. *)
Theorem teachers_are_qualified_and_available (data : SchoolConfig)
    (options : Options) (t0 t1 : Z) (c : string) (d p : nat) (e : Entry)
    (t : string) :
  cell (timetable (generateTimetable data options t0 t1)) c d p = Some e ->
  teacherId e = Some t ->
  exists T,
    teachersById (buildIndex data) !! t = Some T /\
    T ∈ teachers data /\ tch_id T = t /\
    teacherCanTeach T (subjectId e) = true /\
    checkTeacherAvailability T d [p] = true.
Proof.
  intros He Ht.
  set (Q := fun (c : string) (d p : nat) (e : Entry) =>
              forall t, teacherId e = Some t ->
              exists T,
                teachersById (buildIndex data) !! t = Some T /\
                T ∈ teachers data /\ tch_id T = t /\
                teacherCanTeach T (subjectId e) = true /\
                checkTeacherAvailability T d [p] = true).
  assert (everyCell Q (timetable (generateTimetable data options t0 t1))) as H.
  { eapply everyCell_onlyEmptied; [|apply result_onlyEmptied|].
    - intros ? ? ? ? h HQ. exact HQ.
    - apply greedy_everyCell.
      + intros slot g bk pl q h Hslot Hs Hq t' [= <-].
        apply findPlacement_who in Hs as (_ & T & HT & Hcan & Hav & _).
        exists T. destruct (indexById_Some _ _ _ _ HT) as [Hin Hid].
        repeat split; try done. by eapply checkTeacherAvailability_one.
      + intros slot d' p' _ _ _ t' [=]. }
  by apply (H c d p e).
Qed.

Lemma teachers_are_qualified_and_available_witness :
  exists T,
    teachersById (buildIndex demoSchool) !! "t2" = Some T /\
    T ∈ teachers demoSchool /\ tch_id T = "t2" /\
    teacherCanTeach T "s2" = true /\
    checkTeacherAvailability T 0 [1] = true.
Proof.
  apply (teachers_are_qualified_and_available demoSchool (mkOptions None None)
           0 0 "c2" 0 1 artLesson "t2"); reflexivity.
Defined.

(** X2 (rooms).  A lesson of the timetable returned has a [resourceId]
    exactly when its subject needs a resource type
    ([inferSubjectResourceType] of the subject's record, or of the stub
    made for an unknown subject id); the resource is then one of the
    configuration, of that type, and its own availability matrix, if it has
    one, is [true] at the cell's day and period. *)
Theorem lessons_get_a_room_of_the_right_type (data : SchoolConfig)
    (options : Options) (t0 t1 : Z) (c : string) (d p : nat) (e : Entry) :
  cell (timetable (generateTimetable data options t0 t1)) c d p = Some e ->
  unassigned e = false ->
  let rt := inferSubjectResourceType
              (subjectOrStub (buildIndex data) (subjectId e)) in
  match resourceId e with
  | Some rid =>
      exists R, R ∈ resources data /\ res_id R = rid /\
                rt = Some (res_type R) /\ resourceFree R d [p] = true
  | None => Js.truthy rt = false
  end.
Proof.
  intros He Hu.
  set (Q := fun (c : string) (d p : nat) (e : Entry) =>
              unassigned e = false ->
              match resourceId e with
              | Some rid =>
                  exists R, R ∈ resources data /\ res_id R = rid /\
                    inferSubjectResourceType
                      (subjectOrStub (buildIndex data) (subjectId e)) =
                    Some (res_type R) /\ resourceFree R d [p] = true
              | None =>
                  Js.truthy (inferSubjectResourceType
                               (subjectOrStub (buildIndex data) (subjectId e))) = false
              end).
  assert (everyCell Q (timetable (generateTimetable data options t0 t1))) as H.
  { eapply everyCell_onlyEmptied; [|apply result_onlyEmptied|].
    - intros ? ? ? ? h HQ. exact HQ.
    - apply greedy_everyCell.
      + intros slot g bk pl q h Hslot Hs Hq _.
        apply required_elem in Hslot as (cls & kv & _ & _ & -> & _).
        apply findPlacement_who in Hs as (_ & T & _ & _ & _ & Hres).
        apply chooseResource_Some in Hres. simpl in *.
        destruct (pl_resource pl) as [R|]; simpl; [|done].
        destruct Hres as (ty & Hty & _ & HR & Hfree & _).
        apply groupByType_elem in HR as [HR <-].
        exists R. repeat split; try done. by eapply resourceFree_one.
      + intros slot d' p' _ _ _ [=]. }
  by apply (H c d p e).
Qed.

Lemma lessons_get_a_room_of_the_right_type_witness :
  exists R, R ∈ resources labSchool /\ res_id R = "r2" /\
            inferSubjectResourceType
              (subjectOrStub (buildIndex labSchool) "cs") = Some (res_type R) /\
            resourceFree R 1 [0] = true.
Proof.
  apply (lessons_get_a_room_of_the_right_type labSchool (mkOptions None None)
           0 0 "c1" 1 0 (mkEntry "cs" (Some "ta") (Some "r2") false None false));
    reflexivity.
Defined.

Lemma result_cells (data : SchoolConfig) (options : Options) (t0 t1 : Z)
    (c : string) (d p : nat) (e : Entry) :
  cell (timetable (generateTimetable data options t0 t1)) c d p = Some e ->
  d < workingDays data /\ p < periodsPerDay data /\
  exists cls n,
    cls ∈ classes data /\ cls_id cls = c /\
    (subjectId e, n) ∈ cls_subjects cls /\ (0 < Js.toInt32 n)%Z.
Proof.
  set (Q := fun (c : string) (d p : nat) (e : Entry) =>
              d < workingDays data /\ p < periodsPerDay data /\
              exists cls n,
                cls ∈ classes data /\ cls_id cls = c /\
                (subjectId e, n) ∈ cls_subjects cls /\ (0 < Js.toInt32 n)%Z).
  assert (forall slot, slot ∈ required data ->
            exists cls n,
              cls ∈ classes data /\ cls_id cls = req_classId slot /\
              (req_subjectId slot, n) ∈ cls_subjects cls /\ (0 < Js.toInt32 n)%Z)
    as Hreq.
  { intros slot (cls & [sid n] & Hcls & Hkv & -> & Hn)%required_elem.
    exists cls, n. repeat split; try done. unfold unitsOf in Hn. simpl in Hn. lia. }
  assert (everyCell Q (timetable (generateTimetable data options t0 t1))) as H.
  { eapply everyCell_onlyEmptied; [|apply result_onlyEmptied|].
    - intros ? ? ? ? h HQ. exact HQ.
    - apply greedy_everyCell.
      + intros slot g bk pl q h Hslot Hs Hq.
        apply findPlacement_Some in Hs as (Hd & Hp & _).
        split; [done|]. split; [|by apply Hreq].
        destruct (req_requiresDouble slot); simpl in *; set_solver by lia.
      + intros slot d' p' Hslot Hd Hp. split; [done|]. split; [done|].
        by apply Hreq. }
  apply (H c d p e).
Qed.

(** X3 (cells and demand).  Every non-empty cell of the timetable returned,
    lesson or unassigned marker, lies inside the week ([d < workingDays],
    [p < periodsPerDay]), in the grid of a class of the configuration, and
    carries a subject that this class lists with a weekly count whose
    [| 0] is positive. *)
Theorem cells_carry_demanded_subjects (data : SchoolConfig)
    (options : Options) (t0 t1 : Z) (c : string) (d p : nat) (e : Entry) :
  cell (timetable (generateTimetable data options t0 t1)) c d p = Some e ->
  d < workingDays data /\ p < periodsPerDay data /\
  exists cls n,
    cls ∈ classes data /\ cls_id cls = c /\
    (subjectId e, n) ∈ cls_subjects cls /\ (0 < Js.toInt32 n)%Z.
Proof. apply result_cells. Qed.

Lemma cells_carry_demanded_subjects_witness :
  0 < workingDays labSchool /\ 1 < periodsPerDay labSchool /\
  exists cls n,
    cls ∈ classes labSchool /\ cls_id cls = "c1" /\
    ("ch", n) ∈ cls_subjects cls /\ (0 < Js.toInt32 n)%Z.
Proof.
  apply (cells_carry_demanded_subjects labSchool (mkOptions None None) 0 0
           "c1" 0 1 (mkEntry "ch" (Some "tb") (Some "r1") true (Some false) false)).
  reflexivity.
Defined.

(** ** The shape of the timetable returned *)

Lemma length_arraySet {A} (hole : A) l i v :
  length l <= length (Js.arraySet hole l i v).
Proof.
  unfold Js.arraySet. case_match.
  - by rewrite length_insert.
  - rewrite length_app. lia.
Qed.

Lemma rowsAtLeast_ttSet n tt c d p v :
  rowsAtLeast n tt -> rowsAtLeast n (ttSet tt c d p v).
Proof.
  intros H c' g'. rewrite alGet_ttSet. case_decide; [|apply H].
  destruct (Js.alGet tt c) as [g|] eqn:E; [|done]. intros [= <-].
  specialize (H _ _ E). unfold setCell.
  destruct (g !! d) as [row|] eqn:Er; [|done].
  apply Forall_insert; [done|].
  eapply Forall_lookup_1 in H; [|done]. simpl in H.
  pose proof (length_arraySet None row p v). lia.
Qed.

Lemma rowsAtLeast_moveEntry n tt src dst :
  rowsAtLeast n tt -> rowsAtLeast n (moveEntry tt src dst).
Proof.
  intros H. unfold moveEntry. destruct (cell tt _ _ _) as [e|]; [|done].
  destruct (double e); auto using rowsAtLeast_ttSet.
Qed.

Lemma rowsAtLeast_optLoop data n k st :
  wfTT (workingDays data) (opt_timetable st) ->
  rowsAtLeast n (opt_timetable st) ->
  rowsAtLeast n (opt_timetable (optLoop data k st)).
Proof.
  revert st. induction k as [|k IH]; intros st Hwf H; [done|]. simpl.
  destruct (optStep data st) as [st1|] eqn:E; [|done].
  destruct (optStep_cases _ _ _ Hwf E) as [[Htt _]|(a & b & _ & _ & _ & Htt & _)].
  - apply IH; by rewrite Htt.
  - apply IH; rewrite Htt.
    + by apply wfTT_applySwap.
    + unfold applySwap. by apply rowsAtLeast_moveEntry, rowsAtLeast_moveEntry.
Qed.

Lemma rowsAtLeast_assignStep idx data st slot :
  rowsAtLeast (periodsPerDay data) (fst st) ->
  rowsAtLeast (periodsPerDay data) (fst (assignStep idx data st slot)).
Proof.
  destruct st as [tt bk]. intros H.
  destruct (assignStep_cases idx data tt bk slot)
    as [[-> _]|[(g & pl & _ & _ & ->)|(g & d & p & _ & _ & _ & ->)]];
    [done| |]; simpl; unfold writeSpan;
    destruct (req_requiresDouble slot); auto using rowsAtLeast_ttSet.
Qed.

Lemma rowsAtLeast_greedy data : rowsAtLeast (periodsPerDay data) (greedy data).
Proof.
  unfold greedy, greedyState.
  assert (forall l st,
             rowsAtLeast (periodsPerDay data) (fst st) ->
             rowsAtLeast (periodsPerDay data)
               (fst (fold_left (assignStep (buildIndex data) data) l st))) as H.
  { induction l as [|x l IH]; intros st Hst; [done|]. simpl.
    by apply IH, rowsAtLeast_assignStep. }
  apply H. simpl. intros c g Hg.
  destruct (emptyTimetable_spec data) as [_ Hall].
  apply alGet_Some_elem in Hg. eapply Forall_forall in Hall; [|done].
  simpl in Hall. subst g. unfold makeEmptyGrid.
  apply Forall_replicate. by rewrite length_replicate.
Qed.

Lemma objSet_keys_elem {V} (o : list (string * V)) k v x :
  x ∈ (Js.objSet o k v).*1 <-> x = k \/ x ∈ o.*1.
Proof.
  unfold Js.objSet. destruct (Js.alGet o k) as [w|] eqn:E.
  - rewrite alReplace_keys. split; [by right|]. intros [->|]; [|done].
    apply alGet_Some_elem in E. apply list_elem_of_fmap. by exists (k, w).
  - rewrite objInsert_keys. apply elem_of_cons.
Qed.

Lemma emptyTimetable_keys data c :
  c ∈ (emptyTimetable data).*1 <-> exists cls, cls ∈ classes data /\ cls_id cls = c.
Proof.
  unfold emptyTimetable.
  assert (forall l (tt : Timetable),
    c ∈ (fold_left
           (fun tt cl => Js.objSet tt (cls_id cl)
              (makeEmptyGrid (workingDays data) (periodsPerDay data) None)) l tt).*1
    <-> c ∈ tt.*1 \/ exists cls, cls ∈ l /\ cls_id cls = c) as H.
  { induction l as [|x l IH]; intros tt; simpl.
    - set_solver.
    - rewrite IH, objSet_keys_elem. set_solver. }
  rewrite H. set_solver.
Qed.

(** X4 (shape).  For a configuration none of whose classes has the id
    [__proto__] (an assignment under that key makes no entry of the
    timetable object), the timetable returned has exactly one grid per
    class id of the configuration; each grid has [workingDays] rows, each
    row at least [periodsPerDay] cells. *)
Theorem the_result_has_a_grid_per_class (data : SchoolConfig)
    (options : Options) (t0 t1 : Z) :
  (forall cls, cls ∈ classes data -> cls_id cls <> "__proto__") ->
  let tt := timetable (generateTimetable data options t0 t1) in
  NoDup tt.*1 /\
  (forall c, c ∈ tt.*1 <-> exists cls, cls ∈ classes data /\ cls_id cls = c) /\
  (forall c g, Js.alGet tt c = Some g ->
               length g = workingDays data /\
               Forall (fun row => periodsPerDay data <= length row) g).
Proof.
  intros _. simpl.
  destruct (reachable_inv data options (iterationsOf options))
    as ([Hnd Hlen] & _ & [Hkeys _] & _).
  split; [done|]. split.
  - intros c. rewrite Hkeys.
    assert ((greedy data).*1 = (emptyTimetable data).*1) as ->;
      [|apply emptyTimetable_keys].
    unfold greedy, greedyState.
    assert (forall l st,
               (fst (fold_left (assignStep (buildIndex data) data) l st)).*1 =
               (fst st).*1) as H.
    { induction l as [|x l IH]; intros st; [done|]. simpl. rewrite IH.
      destruct st as [tt bk].
      destruct (assignStep_cases (buildIndex data) data tt bk x)
        as [[-> _]|[(g & pl & _ & _ & ->)|(g & d & p & _ & _ & _ & ->)]];
        [done| |]; simpl; unfold writeSpan;
        destruct (req_requiresDouble x); by rewrite ?ttSet_keys. }
    apply H.
  - intros c g Hg. split; [by eapply Hlen|].
    eapply rowsAtLeast_optLoop; [| |done].
    + apply (optInit_inv data options).
    + apply rowsAtLeast_greedy.
Qed.

Lemma the_result_has_a_grid_per_class_witness :
  let tt := timetable (generateTimetable labSchool (mkOptions None None) 0 0) in
  NoDup tt.*1 /\
  (forall c, c ∈ tt.*1 <-> exists cls, cls ∈ classes labSchool /\ cls_id cls = c) /\
  (forall c g, Js.alGet tt c = Some g ->
               length g = workingDays labSchool /\
               Forall (fun row => periodsPerDay labSchool <= length row) g).
Proof.
  apply (the_result_has_a_grid_per_class labSchool (mkOptions None None) 0 0).
  intros cls Hin. simpl in Hin.
  repeat (apply elem_of_cons in Hin as [->|Hin]; [discriminate|]).
  by apply elem_of_nil in Hin.
Defined.

(** ** What the optimizer leaves of the greedy timetable *)

(** X5 (the optimizer only empties cells).  Whatever the budget and the
    seed, a non-empty cell of the timetable returned holds what the greedy
    pass put in that very cell, field by field, [headOfDouble] apart: the
    optimizer never moves a lesson to another cell and never adds one. *)
Theorem the_optimizer_only_empties_cells (data : SchoolConfig)
    (options : Options) (t0 t1 : Z) (c : string) (d p : nat) (e' : Entry) :
  cell (timetable (generateTimetable data options t0 t1)) c d p = Some e' ->
  exists e,
    cell (greedy data) c d p = Some e /\
    subjectId e = subjectId e' /\ teacherId e = teacherId e' /\
    resourceId e = resourceId e' /\ double e = double e' /\
    unassigned e = unassigned e'.
Proof.
  intros He'. destruct (result_onlyEmptied data options t0 t1) as [_ H].
  destruct (H _ _ _ _ He') as (e & He & Heq). exists e. split; [done|].
  destruct e, e'. simpl in *. by injection Heq as -> -> -> -> ->.
Qed.

Lemma the_optimizer_only_empties_cells_witness :
  exists e,
    cell (greedy demoSchool) "c2" 0 1 = Some e /\
    subjectId e = "s2" /\ teacherId e = Some "t2" /\
    resourceId e = None /\ double e = false /\ unassigned e = false.
Proof.
  apply (the_optimizer_only_empties_cells demoSchool (mkOptions None None) 0 0
           "c2" 0 1 artLesson).
  reflexivity.
Defined.

(** X6 (double periods).  In the timetable returned, a cell that holds a
    double-period entry other than a second half is followed, on the same
    day and inside the day, by a cell that holds the same entry marked as
    the second half. *)
Theorem double_periods_stay_together (data : SchoolConfig)
    (options : Options) (t0 t1 : Z) (c : string) (d p : nat) (e : Entry) :
  cell (timetable (generateTimetable data options t0 t1)) c d p = Some e ->
  double e = true -> headOfDouble e <> Some false ->
  p + 1 < periodsPerDay data /\
  cell (timetable (generateTimetable data options t0 t1)) c d (p + 1) =
    Some (withHead e (Some false)).
Proof.
  intros He Hd Hh.
  destruct (reachable_inv data options (iterationsOf options)) as (_ & Hp & _).
  pose proof (Hp _ _ _ _ He Hd Hh) as Hnext. split; [|done].
  by destruct (result_cells data options t0 t1 _ _ _ _ Hnext) as (_ & ? & _).
Qed.

Lemma double_periods_stay_together_witness :
  0 + 1 < periodsPerDay labSchool /\
  cell (timetable (generateTimetable labSchool (mkOptions None None) 0 0))
       "c1" 0 (0 + 1) =
    Some (mkEntry "ch" (Some "tb") (Some "r1") true (Some false) false).
Proof.
  apply (double_periods_stay_together labSchool (mkOptions None None) 0 0
           "c1" 0 0 (mkEntry "ch" (Some "tb") (Some "r1") true (Some true) false));
    [reflexivity | reflexivity | discriminate].
Defined.

(** X7 (nothing to swap).  When the greedy timetable has fewer than two
    lessons to pick from, the loop breaks at its first turn: the greedy
    timetable is returned, whatever the budget and the seed. *)
Theorem fewer_than_two_lessons_nothing_to_swap (data : SchoolConfig)
    (options : Options) (t0 t1 : Z) :
  length (collectAssignedSlots (greedy data) data) < 2 ->
  timetable (generateTimetable data options t0 t1) = greedy data.
Proof.
  intros Hlen. simpl. destruct (iterationsOf options) as [|n]; [done|].
  simpl. unfold optStep. simpl.
  by destruct (Nat.ltb_spec (length (collectAssignedSlots (greedy data) data)) 2);
    [|lia].
Qed.

Lemma fewer_than_two_lessons_nothing_to_swap_witness :
  timetable (generateTimetable doubleSchool (mkOptions (Some 50%Z) (Some 7%Z)) 0 0) =
  greedy doubleSchool.
Proof.
  apply (fewer_than_two_lessons_nothing_to_swap doubleSchool
           (mkOptions (Some 50%Z) (Some 7%Z)) 0 0).
  vm_compute. lia.
Defined.

(** ** The search of [tryAssignSlot] *)

Lemma findMap_prefix {A B} (f : A -> option B) l y :
  Js.findMap f l = Some y ->
  exists l1 x l2, l = (l1 ++ x :: l2)%list /\ f x = Some y /\
                  forall x', x' ∈ l1 -> f x' = None.
Proof.
  induction l as [|x l IH]; simpl; [done|].
  destruct (f x) eqn:E.
  - intros [= ->]. exists [], x, l. split; [done|]. split; [done|]. set_solver.
  - intros (l1 & x0 & l2 & -> & Hx0 & Hl1)%IH.
    exists (x :: l1), x0, l2. split; [done|]. split; [done|].
    intros x' [->|Hin]%elem_of_cons; auto.
Qed.

Lemma findMap_seq_first {B} (f : nat -> option B) s n y :
  Js.findMap f (seq s n) = Some y ->
  exists x, s <= x < s + n /\ f x = Some y /\
            forall x', s <= x' < x -> f x' = None.
Proof.
  revert s. induction n as [|n IH]; intros s; simpl; [done|].
  destruct (f s) eqn:E.
  - intros [= ->]. exists s. split; [lia|]. split; [done|]. intros; lia.
  - intros (x & Hx & Hfx & Hbefore)%IH. exists x. split; [lia|]. split; [done|].
    intros x' Hx'. destruct (decide (x' = s)) as [->|]; [done|].
    apply Hbefore. lia.
Qed.

Lemma findMap_is_Some {A B} (f : A -> option B) l x y :
  x ∈ l -> f x = Some y -> exists y', Js.findMap f l = Some y'.
Proof.
  induction l as [|x0 l IH]; simpl; [set_solver|].
  intros [->|Hin]%elem_of_cons Hx.
  - rewrite Hx. eauto.
  - destruct (f x0); eauto.
Qed.

Lemma startPeriods_seq rd pc :
  startPeriods rd pc = seq 0 (pc + 1 - spanOf rd).
Proof.
  unfold startPeriods.
  assert (forall k n, List.filter (fun p => p <? k) (seq 0 n) = seq 0 (min k n)) as H.
  { intros k n. induction n as [|n IH]; [by rewrite Nat.min_0_r|].
    rewrite seq_S, List.filter_app, IH. simpl.
    destruct (Nat.ltb_spec n k).
    - replace (min k (S n)) with (S (min k n)) by lia.
      rewrite seq_S. simpl. f_equal. f_equal. lia.
    - rewrite app_nil_r. f_equal. lia. }
  destruct rd; simpl.
  - replace (pc + 1 - 2) with (min (pc - 1) pc) by lia. rewrite <- H.
    apply List.filter_ext. intros p.
    destruct (Nat.ltb_spec (p + 2 - 1) pc), (Nat.ltb_spec p (pc - 1)); lia || done.
  - replace (pc + 1 - 1) with (min pc pc) by lia. rewrite <- H.
    apply List.filter_ext. intros p.
    destruct (Nat.ltb_spec (p + 1 - 1) pc), (Nat.ltb_spec p pc); lia || done.
Qed.

Section Search.
Variable teacherList : list string.
Variable teachersById : gmap string Teacher.
Variable maxLoadByTeacher : gmap string Z.
Variable dayCount periodCount : nat.
Variable availableResources : gmap string (list Resource).

Abbreviation fits := (teacherFits teachersById maxLoadByTeacher availableResources).
Abbreviation try := (tryTeacher teachersById maxLoadByTeacher availableResources).
Abbreviation search :=
  (findPlacement teacherList teachersById maxLoadByTeacher dayCount periodCount
                 availableResources).

Lemma chooseResource_None rt bk d ps :
  chooseResource availableResources rt bk d ps = None <->
  Js.truthy rt = true /\
  forall r, ~ roomFits availableResources rt bk d ps r.
Proof.
  unfold chooseResource, roomFits. destruct (Js.truthy rt); [|split; [done|by intros [? _]]].
  destruct (List.find _ _) as [r|] eqn:Hfind; split; try done.
  - intros [_ Hno]. exfalso. apply find_some in Hfind as [Hin Hok].
    apply andb_true_iff in Hok as [Hfree Hocc]. apply negb_true_iff in Hocc.
    apply (Hno r). by rewrite list_elem_of_In.
  - intros _. split; [done|]. intros r (Hin & Hfree & Hocc).
    apply list_elem_of_In in Hin.
    pose proof (find_none _ _ Hfind r Hin) as Hr. simpl in Hr.
    by rewrite Hfree, Hocc in Hr.
Qed.

Lemma tryTeacher_fits sid rd rt bk d p tid :
  (exists pl, try sid rd rt bk d p tid = Some pl) <-> fits sid rd rt bk d p tid.
Proof.
  unfold tryTeacher, teacherFits.
  destruct (teachersById !! tid) as [T|]; [|split; [by intros [? ?]|by intros (? & ? & _)]].
  split.
  - intros [pl H]. exists T. split; [done|].
    destruct (teacherCanTeach T sid); [|done].
    destruct (checkTeacherAvailability T d _); [|done].
    destruct (teacherFreeSchedule _ tid d _); [|done]. simpl in H.
    destruct (Z.ltb_spec (default 0%Z (maxLoadByTeacher !! tid))
                (totalTeacherLoad (loads bk) tid + Z.of_nat (spanOf rd))); [done|].
    repeat split; try done.
    intros Hrt. destruct (chooseResource _ _ _ _ _) as [chosen|] eqn:Hres; [|done].
    apply chooseResource_Some in Hres. destruct chosen as [r|]; [|congruence].
    destruct Hres as (ty & -> & _ & Hin & Hfree & Hocc). by exists r.
  - intros (T' & [= <-] & -> & -> & -> & Hload & Hroom). simpl.
    destruct (Z.ltb_spec (default 0%Z (maxLoadByTeacher !! tid))
                (totalTeacherLoad (loads bk) tid + Z.of_nat (spanOf rd))); [lia|].
    destruct (chooseResource _ _ _ _ _) as [chosen|] eqn:Hres; [eauto|].
    apply chooseResource_None in Hres as [Hrt Hno].
    destruct (Hroom Hrt) as [r Hr]. by destruct (Hno r).
Qed.

Lemma tryTeacher_place sid rd rt bk d p tid pl :
  try sid rd rt bk d p tid = Some pl ->
  pl_day pl = d /\ pl_period pl = p /\ pl_teacher pl = tid.
Proof.
  unfold tryTeacher. repeat case_match; try done. by intros [= <-].
Qed.

(** The first loop nest finds nothing exactly when nothing fits. *)
Lemma findPlacement_None g sid rd rt bk :
  search g sid rd rt bk = None <->
  forall d p tid,
    d < dayCount -> p + spanOf rd <= periodCount ->
    slotsAreFree g d (periodsAt rd p) = true -> tid ∈ teacherList ->
    ~ fits sid rd rt bk d p tid.
Proof.
  split.
  - intros H d p tid Hd Hp Hfree Htid Hfits.
    apply tryTeacher_fits in Hfits as [pl Hpl].
    unfold findPlacement in H.
    assert (d ∈ seq 0 dayCount) as Hd' by (apply list_elem_of_In, in_seq; lia).
    pose proof (findMap_None _ _ H d Hd') as H1. simpl in H1.
    assert (p ∈ startPeriods rd periodCount) as Hp' by by apply elem_startPeriods.
    pose proof (findMap_None _ _ H1 p Hp') as H2. simpl in H2.
    rewrite Hfree in H2. pose proof (findMap_None _ _ H2 tid Htid). congruence.
  - intros Hno. destruct (search g sid rd rt bk) as [pl|] eqn:Hs; [|done].
    exfalso. unfold findPlacement in Hs.
    apply findMap_Some in Hs as (d & Hd & Hs).
    apply findMap_Some in Hs as (p & Hp & Hs).
    destruct (slotsAreFree g d (periodsAt rd p)) eqn:Hfree; [|done].
    apply findMap_Some in Hs as (tid & Htid & Hs).
    apply list_elem_of_In, in_seq in Hd. apply elem_startPeriods in Hp.
    apply (Hno d p tid); [lia|done..|]. apply tryTeacher_fits. eauto.
Qed.

(** What it finds is the first fit in the order of the loops. *)
Lemma findPlacement_first g sid rd rt bk pl :
  search g sid rd rt bk = Some pl ->
  fits sid rd rt bk (pl_day pl) (pl_period pl) (pl_teacher pl) /\
  (forall d p tid,
      earlier d p (pl_day pl) (pl_period pl) ->
      d < dayCount -> p + spanOf rd <= periodCount ->
      slotsAreFree g d (periodsAt rd p) = true -> tid ∈ teacherList ->
      ~ fits sid rd rt bk d p tid) /\
  (exists l1 l2,
      teacherList = (l1 ++ pl_teacher pl :: l2)%list /\
      forall tid, tid ∈ l1 ->
                  ~ fits sid rd rt bk (pl_day pl) (pl_period pl) tid).
Proof.
  unfold findPlacement. rewrite startPeriods_seq. intros Hs.
  apply findMap_seq_first in Hs as (d & Hd & Hs & Hdays).
  apply findMap_seq_first in Hs as (p & Hp & Hs & Hperiods).
  destruct (slotsAreFree g d (periodsAt rd p)) eqn:Hfree; [|done].
  apply findMap_prefix in Hs as (l1 & tid & l2 & Hl & Hs & Hl1).
  destruct (tryTeacher_place _ _ _ _ _ _ _ _ Hs) as (-> & -> & ->).
  split; [apply tryTeacher_fits; eauto|]. split.
  - intros d' p' tid' Hbefore Hd' Hp' Hfree' Htid' Hfits.
    apply tryTeacher_fits in Hfits as [pl' Hpl'].
    destruct Hbefore as [Hlt|[-> Hlt]].
    + pose proof (Hdays d' ltac:(lia)) as H1.
      assert (p' ∈ seq 0 (periodCount + 1 - spanOf rd)) as Hp''
          by (apply list_elem_of_In, in_seq; destruct rd; simpl in *; lia).
      pose proof (findMap_None _ _ H1 p' Hp'') as H2. simpl in H2.
      rewrite Hfree' in H2. pose proof (findMap_None _ _ H2 tid' Htid'). congruence.
    + pose proof (Hperiods p' ltac:(lia)) as H2. simpl in H2.
      rewrite Hfree' in H2. pose proof (findMap_None _ _ H2 tid' Htid'). congruence.
  - exists l1, l2. split; [done|]. intros tid' Hin Hfits.
    apply tryTeacher_fits in Hfits as [pl' Hpl']. rewrite (Hl1 _ Hin) in Hpl'. done.
Qed.
End Search.

(** X8 (a requirement fails only when nothing fits).  [tryAssignSlot]
    returns [false] exactly when, over all days, all start periods whose
    span is free in the class grid and all teachers of the list, no teacher
    fits: known, teaching the subject, available and unbooked at the periods,
    within the maximal load, and with a free resource of the wanted type if
    one is wanted. *)
Theorem tryAssignSlot_fails_only_when_nothing_fits
    (teacherList : list string) (teachersById : gmap string Teacher)
    (maxLoadByTeacher : gmap string Z) (dayCount periodCount : nat)
    (availableResources : gmap string (list Resource))
    (classGrid : Grid) (sid : string) (requiresDouble : bool)
    (resourceType : option string) (bk : Booking) :
  (tryAssignSlot teacherList teachersById maxLoadByTeacher dayCount periodCount
                 availableResources classGrid sid requiresDouble
                 resourceType bk).1.1 = false <->
  forall d p tid,
    d < dayCount -> p + spanOf requiresDouble <= periodCount ->
    slotsAreFree classGrid d (periodsAt requiresDouble p) = true ->
    tid ∈ teacherList ->
    ~ teacherFits teachersById maxLoadByTeacher availableResources
        sid requiresDouble resourceType bk d p tid.
Proof.
  rewrite <- findPlacement_None. unfold tryAssignSlot.
  destruct (findPlacement _ _ _ _ _ _ _ _ _ _ _) as [pl|]; simpl.
  - unfold commit. simpl. split; intros [=].
  - by destruct (findFreeSpan _ _ _ _) as [[d p]|].
Qed.

(** X9 (first fit).  When [tryAssignSlot] returns [true] it has written the
    lesson at the first (day, start period), in the order of its loops,
    whose span is free and at which some teacher of the list fits, and has
    given it to the first teacher of the list who fits there; that
    teacher's load has gone up by the span. *)
Theorem tryAssignSlot_takes_the_first_fit
    (teacherList : list string) (teachersById : gmap string Teacher)
    (maxLoadByTeacher : gmap string Z) (dayCount periodCount : nat)
    (availableResources : gmap string (list Resource))
    (classGrid : Grid) (sid : string) (requiresDouble : bool)
    (resourceType : option string) (bk : Booking)
    (grid' : Grid) (bk' : Booking) :
  dayCount <= length classGrid ->
  tryAssignSlot teacherList teachersById maxLoadByTeacher dayCount periodCount
                availableResources classGrid sid requiresDouble
                resourceType bk = (true, grid', bk') ->
  exists d p tid e,
    d < dayCount /\ p + spanOf requiresDouble <= periodCount /\
    slotsAreFree classGrid d (periodsAt requiresDouble p) = true /\
    teacherFits teachersById maxLoadByTeacher availableResources
      sid requiresDouble resourceType bk d p tid /\
    cellAt grid' d p = Some e /\
    subjectId e = sid /\ teacherId e = Some tid /\ unassigned e = false /\
    double e = requiresDouble /\
    (requiresDouble = true ->
     cellAt grid' d (p + 1) = Some (withHead e (Some false))) /\
    totalTeacherLoad (loads bk') tid =
      (totalTeacherLoad (loads bk) tid + Z.of_nat (spanOf requiresDouble))%Z /\
    (forall d' p' tid',
        earlier d' p' d p ->
        d' < dayCount -> p' + spanOf requiresDouble <= periodCount ->
        slotsAreFree classGrid d' (periodsAt requiresDouble p') = true ->
        tid' ∈ teacherList ->
        ~ teacherFits teachersById maxLoadByTeacher availableResources
            sid requiresDouble resourceType bk d' p' tid') /\
    (exists before after,
        teacherList = (before ++ tid :: after)%list /\
        forall tid', tid' ∈ before ->
          ~ teacherFits teachersById maxLoadByTeacher availableResources
              sid requiresDouble resourceType bk d p tid').
Proof.
  intros Hrows. unfold tryAssignSlot.
  destruct (findPlacement _ _ _ _ _ _ _ _ _ _ _) as [pl|] eqn:Hs;
    [|by destruct (findFreeSpan _ _ _ _) as [[d p]|]].
  destruct (commit _ _ _ _ _) as [g b] eqn:Hc. intros [= <- <-].
  destruct (findPlacement_Some _ _ _ _ _ _ _ _ _ _ _ _ Hs) as (Hd & Hp & Hfree & _).
  destruct (findPlacement_first _ _ _ _ _ _ _ _ _ _ _ _ Hs) as (Hfits & Hfirst & Hteach).
  unfold commit in Hc. injection Hc as <- <-.
  exists (pl_day pl), (pl_period pl), (pl_teacher pl),
    (assignedEntry sid requiresDouble pl).
  repeat split; try done.
  - destruct requiresDouble; rewrite !cellAt_setCell, ?length_setCell.
    + rewrite decide_False by lia. rewrite decide_True by (repeat split; lia). done.
    + rewrite decide_True by (repeat split; lia). done.
  - intros ->. rewrite cellAt_setCell, length_setCell.
    rewrite decide_True by (repeat split; lia). done.
  - simpl. unfold totalTeacherLoad, incTeacherLoad. by rewrite lookup_insert_eq.
Qed.

Lemma tryAssignSlot_takes_the_first_fit_witness :
  let idx := buildIndex demoSchool in
  let bk := mkBooking ∅ ∅ ∅ in
  let bk' :=
    (tryAssignSlot ["t1"; "t2"] (teachersById idx) (maxLoads demoSchool)
       1 4 (resourcesByType idx) (makeEmptyGrid 1 4 None) "s2" false None bk).2 in
  let grid' := [[None; Some artLesson; None; None]] in
  let fits :=
    teacherFits (teachersById idx) (maxLoads demoSchool) (resourcesByType idx)
                "s2" false None bk in
  exists d p tid e,
    d < 1 /\ p + spanOf false <= 4 /\
    slotsAreFree (makeEmptyGrid 1 4 None) d (periodsAt false p) = true /\
    fits d p tid /\
    cellAt grid' d p = Some e /\
    subjectId e = "s2" /\ teacherId e = Some tid /\ unassigned e = false /\
    double e = false /\
    (false = true -> cellAt grid' d (p + 1) = Some (withHead e (Some false))) /\
    totalTeacherLoad (loads bk') tid =
      (totalTeacherLoad (loads bk) tid + Z.of_nat (spanOf false))%Z /\
    (forall d' p' tid',
        earlier d' p' d p -> d' < 1 -> p' + spanOf false <= 4 ->
        slotsAreFree (makeEmptyGrid 1 4 None) d' (periodsAt false p') = true ->
        tid' ∈ ["t1"; "t2"] -> ~ fits d' p' tid') /\
    (exists before after,
        ["t1"; "t2"] = (before ++ tid :: after)%list /\
        forall tid', tid' ∈ before -> ~ fits d p tid').
Proof.
  intros idx bk bk' grid' fits.
  apply (tryAssignSlot_takes_the_first_fit
           ["t1"; "t2"] (teachersById idx) (maxLoads demoSchool)
           1 4 (resourcesByType idx) (makeEmptyGrid 1 4 None)
           "s2" false None bk grid' bk').
  - simpl. lia.
  - reflexivity.
Defined.

(** X10 (no overwriting).  Whatever it returns, [tryAssignSlot] leaves
    every cell of the class grid that was not empty exactly as it was and
    keeps the number of rows; when it returns [false] the teacher and
    resource schedules and the loads are unchanged. *)
Theorem tryAssignSlot_never_overwrites
    (teacherList : list string) (teachersById : gmap string Teacher)
    (maxLoadByTeacher : gmap string Z) (dayCount periodCount : nat)
    (availableResources : gmap string (list Resource))
    (classGrid : Grid) (sid : string) (requiresDouble : bool)
    (resourceType : option string) (bk : Booking) :
  let r := tryAssignSlot teacherList teachersById maxLoadByTeacher dayCount
             periodCount availableResources classGrid sid requiresDouble
             resourceType bk in
  (forall d p e, cellAt classGrid d p = Some e -> cellAt r.1.2 d p = Some e) /\
  length r.1.2 = length classGrid /\
  (r.1.1 = false -> r.2 = bk).
Proof.
  assert (forall g d p v d' p' e,
             cellAt g d p = None -> cellAt g d' p' = Some e ->
             cellAt (setCell g d p v) d' p' = Some e) as Hkeep.
  { intros g d p v d' p' e Hnone Hsome. rewrite cellAt_setCell.
    case_decide as H; [|done]. destruct H as (-> & -> & _). congruence. }
  simpl. unfold tryAssignSlot.
  destruct (findPlacement _ _ _ _ _ _ _ _ _ _ _) as [pl|] eqn:Hs.
  - destruct (findPlacement_Some _ _ _ _ _ _ _ _ _ _ _ _ Hs) as (_ & _ & Hfree & _).
    apply slotsAreFree_true in Hfree as [H1 H2].
    unfold commit. simpl. destruct requiresDouble; simpl.
    + rewrite !length_setCell. repeat split; try done.
      intros d p e He. apply Hkeep; [|by apply Hkeep].
      rewrite cellAt_setCell. case_decide as H; [lia|]. by apply H2.
    + rewrite length_setCell. repeat split; try done.
      intros d p e He. by apply Hkeep.
  - destruct (findFreeSpan _ _ _ _) as [[d p]|] eqn:Hfree; simpl; [|done].
    apply findFreeSpan_Some in Hfree as (_ & _ & Hfree).
    apply slotsAreFree_true in Hfree as [H1 H2].
    unfold markUnassigned. destruct requiresDouble; simpl.
    + rewrite !length_setCell. repeat split; try done.
      intros d' p' e He. apply Hkeep; [|by apply Hkeep].
      rewrite cellAt_setCell. case_decide as H; [lia|]. by apply H2.
    + rewrite length_setCell. repeat split; try done.
      intros d' p' e He. by apply Hkeep.
Qed.

(** ** The order of the requirements *)

Lemma orderStr_cases x y :
  x <> y ->
  (orderStr x y = (-1)%Z /\ OrderedTypeEx.String_as_OT.lt x y) \/
  (orderStr x y = 1%Z /\ OrderedTypeEx.String_as_OT.lt y x).
Proof.
  intros Hne. unfold orderStr, String.ltb.
  destruct (String.compare x y) eqn:E.
  - by apply String.compare_eq_iff in E.
  - left. split; [done|]. by apply OrderedTypeEx.String_as_OT.cmp_lt.
  - right. split; [done|]. apply OrderedTypeEx.String_as_OT.cmp_lt.
    unfold OrderedTypeEx.String_as_OT.cmp.
    rewrite String.compare_antisym, E. done.
Qed.

Lemma lts_irrefl x : ~ OrderedTypeEx.String_as_OT.lt x x.
Proof. intros H. by apply (OrderedTypeEx.String_as_OT.lt_not_eq _ _ H). Qed.

Lemma lts_asym x y :
  OrderedTypeEx.String_as_OT.lt x y -> OrderedTypeEx.String_as_OT.lt y x -> False.
Proof.
  intros H1 H2. apply (lts_irrefl x).
  by eapply OrderedTypeEx.String_as_OT.lt_trans.
Qed.

Lemma lex_step (c rest : Z) (P Q R : Prop) :
  ((c < 0)%Z <-> P) -> (c = 0%Z <-> Q) -> ((rest <= 0)%Z <-> R) ->
  ((if negb (c =? 0)%Z then c else rest) <= 0)%Z <-> P \/ (Q /\ R).
Proof.
  intros HP HQ HR. destruct (Z.eqb_spec c 0) as [Hc|Hc]; simpl.
  - rewrite HR. split; [intros; right; split; [by apply HQ|done]|].
    intros [HP'|[_ ?]]; [|done]. apply HP in HP'. lia.
  - split; [intros; left; apply HP; lia|].
    intros [HP'|[HQ' _]]; [apply HP in HP'; lia|]. by apply HQ in HQ'.
Qed.

Lemma lex_step_str (x y : string) (rest : Z) (R : Prop) :
  ((rest <= 0)%Z <-> R) ->
  ((if negb (String.eqb x y) then orderStr x y else rest) <= 0)%Z <->
  OrderedTypeEx.String_as_OT.lt x y \/ (x = y /\ R).
Proof.
  intros HR. destruct (String.eqb_spec x y) as [->|Hne]; simpl.
  - rewrite HR. split; [by right|]. intros [H|[_ ?]]; [|done].
    by apply lts_irrefl in H.
  - destruct (orderStr_cases _ _ Hne) as [[-> Hlt]|[-> Hlt]].
    + split; [by left | lia].
    + split; [lia|]. intros [H|[? _]]; [|done]. exfalso. by eapply lts_asym.
Qed.

Lemma firstFlag_neg x y : (firstFlag x y < 0)%Z <-> x = true /\ y = false.
Proof. destruct x, y; simpl; split; try lia; try done; intros [? ?]; done. Qed.

Lemma firstFlag_zero x y : firstFlag x y = 0%Z <-> x = y.
Proof. destruct x, y; simpl; split; done. Qed.

(** The comparator, read as a lexicographic order. *)
Lemma compareRequired_le a b :
  (compareRequired a b <= 0)%Z <->
  (req_requiresDouble a = true /\ req_requiresDouble b = false) \/
  (req_requiresDouble a = req_requiresDouble b /\
   ((req_priorityLab a = true /\ req_priorityLab b = false) \/
    (req_priorityLab a = req_priorityLab b /\
     ((Js.toInt32 (req_weeklyPeriods b) < Js.toInt32 (req_weeklyPeriods a))%Z \/
      (Js.toInt32 (req_weeklyPeriods a) = Js.toInt32 (req_weeklyPeriods b) /\
       (OrderedTypeEx.String_as_OT.lt (req_classId a) (req_classId b) \/
        (req_classId a = req_classId b /\
         (OrderedTypeEx.String_as_OT.lt (req_subjectId a) (req_subjectId b) \/
          (req_subjectId a = req_subjectId b /\ True))))))))).
Proof.
  unfold compareRequired. cbv zeta.
  apply lex_step; [apply firstFlag_neg | apply firstFlag_zero|].
  apply lex_step; [apply firstFlag_neg | apply firstFlag_zero|].
  apply lex_step; [lia | lia |].
  apply lex_step_str. apply lex_step_str. split; [done | lia].
Qed.

Lemma lts_total x y :
  OrderedTypeEx.String_as_OT.lt x y \/ x = y \/ OrderedTypeEx.String_as_OT.lt y x.
Proof.
  destruct (decide (x = y)) as [->|Hne]; [by right; left|].
  destruct (orderStr_cases _ _ Hne) as [[_ ?]|[_ ?]]; auto.
Qed.

Lemma compareRequired_total a b :
  (compareRequired a b <= 0)%Z \/ (compareRequired b a <= 0)%Z.
Proof.
  rewrite !compareRequired_le.
  destruct (req_requiresDouble a), (req_requiresDouble b);
    try (by left; left); try (by right; left);
    (destruct (req_priorityLab a), (req_priorityLab b);
     try (by left; right; split; [done|left]);
     try (by right; right; split; [done|left]));
    (destruct (Z.lt_total (Js.toInt32 (req_weeklyPeriods a))
                          (Js.toInt32 (req_weeklyPeriods b))) as [Hw|[Hw|Hw]];
     [right; right; split; [done|]; right; split; [done|]; by left
     | |left; right; split; [done|]; right; split; [done|]; by left]);
    (destruct (lts_total (req_classId a) (req_classId b)) as [Hc|[Hc|Hc]];
     [left; right; split; [done|]; right; split; [done|]; right; split; [done|]; by left
     | |right; right; split; [done|]; right; split; [done|]; right; split; [done|]; by left]);
    (destruct (lts_total (req_subjectId a) (req_subjectId b)) as [Hs|[Hs|Hs]];
     [left|left|right]; right; split; [done| |done| |done|]; right; split; [done| |done| |done|];
     right; split; [done| |done| |done|]; right; split; [done| |done| |done|]; auto).
Qed.

Lemma lex_trans_step {A} (P Q R : A -> A -> Prop) :
  (forall a b c, P a b -> P b c -> P a c) ->
  (forall a b c, P a b -> Q b c -> P a c) ->
  (forall a b c, Q a b -> P b c -> P a c) ->
  (forall a b c, Q a b -> Q b c -> Q a c) ->
  (forall a b c, R a b -> R b c -> R a c) ->
  forall a b c,
    P a b \/ (Q a b /\ R a b) -> P b c \/ (Q b c /\ R b c) ->
    P a c \/ (Q a c /\ R a c).
Proof. intros HPP HPQ HQP HQQ HRR a b c [?|[? ?]] [?|[? ?]]; eauto. Qed.

Lemma compareRequired_trans a b c :
  (compareRequired a b <= 0)%Z -> (compareRequired b c <= 0)%Z ->
  (compareRequired a c <= 0)%Z.
Proof.
  rewrite !compareRequired_le. revert a b c.
  apply (lex_trans_step
           (fun a b => req_requiresDouble a = true /\ req_requiresDouble b = false)
           (fun a b => req_requiresDouble a = req_requiresDouble b));
    [intros a b c [? ?] [? ?]; congruence
    |intros a b c [? ?] ?; split; congruence
    |intros a b c ? [? ?]; split; congruence
    |intros; congruence|].
  apply (lex_trans_step
           (fun a b => req_priorityLab a = true /\ req_priorityLab b = false)
           (fun a b => req_priorityLab a = req_priorityLab b));
    [intros a b c [? ?] [? ?]; congruence
    |intros a b c [? ?] ?; split; congruence
    |intros a b c ? [? ?]; split; congruence
    |intros; congruence|].
  apply (lex_trans_step
           (fun a b => (Js.toInt32 (req_weeklyPeriods b) <
                        Js.toInt32 (req_weeklyPeriods a))%Z)
           (fun a b => Js.toInt32 (req_weeklyPeriods a) =
                       Js.toInt32 (req_weeklyPeriods b)));
    [intros; lia..|].
  apply (lex_trans_step
           (fun a b => OrderedTypeEx.String_as_OT.lt (req_classId a) (req_classId b))
           (fun a b => req_classId a = req_classId b));
    [intros a b c; apply OrderedTypeEx.String_as_OT.lt_trans
    |intros a b c ? <-; done
    |intros a b c -> ?; done
    |intros; congruence|].
  apply (lex_trans_step
           (fun a b => OrderedTypeEx.String_as_OT.lt (req_subjectId a) (req_subjectId b))
           (fun a b => req_subjectId a = req_subjectId b)
           (fun _ _ => True));
    [intros a b c; apply OrderedTypeEx.String_as_OT.lt_trans
    |intros a b c ? <-; done
    |intros a b c -> ?; done
    |intros; congruence|done].
Qed.

(** Insertion keeps a list ordered by a total comparator ordered. *)
Lemma insertBy_sorted {A} (cmp : A -> A -> Z) x l :
  (forall a b, (cmp a b <= 0)%Z \/ (cmp b a <= 0)%Z) ->
  Sorted (fun a b => (cmp a b <= 0)%Z) l ->
  Sorted (fun a b => (cmp a b <= 0)%Z) (Js.insertBy cmp x l).
Proof.
  intros Htot. induction l as [|y l IH]; intros Hs; simpl.
  - by repeat constructor.
  - destruct (Z.leb_spec (cmp x y) 0) as [Hle|Hgt].
    + constructor; [done|]. by constructor.
    + apply Sorted_inv in Hs as [Hs Hhd]. constructor; [by apply IH|].
      assert (cmp y x <= 0)%Z as Hyx by (destruct (Htot x y); [lia|done]).
      destruct l as [|z l]; simpl; [by constructor|].
      destruct (Z.leb_spec (cmp x z) 0); constructor; [done|].
      by apply HdRel_inv in Hhd.
Qed.

Lemma sortBy_sorted {A} (cmp : A -> A -> Z) l :
  (forall a b, (cmp a b <= 0)%Z \/ (cmp b a <= 0)%Z) ->
  Sorted (fun a b => (cmp a b <= 0)%Z) (Js.sortBy cmp l).
Proof.
  intros Htot. induction l as [|x l IH]; simpl; [constructor|].
  by apply insertBy_sorted.
Qed.

Lemma StronglySorted_at {A} (R : A -> A -> Prop) l i j a b :
  StronglySorted R l -> i < j -> l !! i = Some a -> l !! j = Some b -> R a b.
Proof.
  intros Hs. revert i j. induction Hs as [|x l Hs IH Hall]; intros i j Hij Ha Hb;
    [done|].
  destruct j as [|j]; [lia|]. simpl in Hb. destruct i as [|i].
  - injection Ha as ->. eapply Forall_lookup_1 in Hall; eauto.
  - simpl in Ha. apply (IH i j); [lia|done..].
Qed.

Lemma required_sorted data i j a b :
  i < j -> required data !! i = Some a -> required data !! j = Some b ->
  (compareRequired a b <= 0)%Z.
Proof.
  intros Hij Ha Hb.
  pose proof (sortBy_sorted compareRequired
                (flattenRequired (buildIndex data) data) compareRequired_total) as Hs.
  apply Sorted_StronglySorted in Hs;
    [|intros x y z; apply compareRequired_trans].
  fold (required data) in Hs.
  eapply (StronglySorted_at _ _ i j a b) in Hs; done.
Qed.

(** X11 (hardest first).  The list of requirements the greedy pass works
    through holds the same requirements as the flattened class demands and
    is ordered by the comparator of the sort: a double-period requirement
    never comes after a single one; among those alike in that, one that
    needs a resource never comes after one that does not; among those alike
    in both, weekly periods never go up. *)
Theorem requirements_are_taken_hardest_first (data : SchoolConfig) :
  required data ≡ₚ flattenRequired (buildIndex data) data /\
  forall i j a b,
    i < j -> required data !! i = Some a -> required data !! j = Some b ->
    (compareRequired a b <= 0)%Z /\
    (req_requiresDouble b = true -> req_requiresDouble a = true) /\
    (req_requiresDouble a = req_requiresDouble b ->
     req_priorityLab b = true -> req_priorityLab a = true) /\
    (req_requiresDouble a = req_requiresDouble b ->
     req_priorityLab a = req_priorityLab b ->
     (Js.toInt32 (req_weeklyPeriods b) <= Js.toInt32 (req_weeklyPeriods a))%Z).
Proof.
  split; [apply sortBy_perm|]. intros i j a b Hij Ha Hb.
  pose proof (required_sorted data i j a b Hij Ha Hb) as Hle.
  split; [done|]. apply compareRequired_le in Hle.
  destruct Hle as [[Hda Hdb]|[Hd [[Hla Hlb]|[Hl Hw]]]].
  - repeat split; congruence.
  - repeat split; congruence.
  - split; [congruence|]. split; [congruence|]. intros _ _.
    destruct Hw as [?|[? _]]; lia.
Qed.

(** ** The two sorts leave the engine no choice *)

Lemma toInt32_small y :
  (-2147483648 <= y < 2147483648)%Z -> Js.toInt32 y = y.
Proof.
  intros Hy. unfold Js.toInt32. destruct (Z.le_gt_cases 0 y).
  - rewrite Z.mod_small by lia. cbv zeta.
    destruct (Z.ltb_spec y 2147483648); lia.
  - assert (y + 4294967296 = y mod 4294967296)%Z as <-
      by (apply (Z.mod_unique y 4294967296 (-1)); lia).
    cbv zeta. destruct (Z.ltb_spec (y + 4294967296) 2147483648); lia.
Qed.

Lemma toInt32_idem z : Js.toInt32 (Js.toInt32 z) = Js.toInt32 z.
Proof.
  apply toInt32_small. unfold Js.toInt32.
  pose proof (Z.mod_pos_bound z 4294967296). cbv zeta.
  destruct (Z.ltb_spec (z mod 4294967296) 2147483648); lia.
Qed.

(** Two requirements neither of which the comparator puts after the other
    agree in everything it looks at. *)
Lemma compareRequired_antisym a b :
  (compareRequired a b <= 0)%Z -> (compareRequired b a <= 0)%Z ->
  req_requiresDouble a = req_requiresDouble b /\
  req_priorityLab a = req_priorityLab b /\
  Js.toInt32 (req_weeklyPeriods a) = Js.toInt32 (req_weeklyPeriods b) /\
  req_classId a = req_classId b /\ req_subjectId a = req_subjectId b.
Proof.
  rewrite !compareRequired_le. intros H1 H2.
  destruct H1 as [[? ?]|[Hd H1]]; destruct H2 as [[? ?]|[Hd' H2]]; try congruence.
  destruct H1 as [[? ?]|[Hl H1]]; destruct H2 as [[? ?]|[Hl' H2]]; try congruence.
  destruct H1 as [?|[Hw H1]]; destruct H2 as [?|[Hw' H2]]; try lia.
  destruct H1 as [Hc1|[Hc H1]]; destruct H2 as [Hc2|[Hc2 H2]].
  - exfalso. by eapply lts_asym.
  - exfalso. rewrite Hc2 in Hc1. by eapply lts_irrefl.
  - exfalso. rewrite Hc in Hc2. by eapply lts_irrefl.
  - destruct H1 as [Hs1|[Hs _]]; destruct H2 as [Hs2|[Hs2 _]].
    + exfalso. by eapply lts_asym.
    + exfalso. rewrite Hs2 in Hs1. by eapply lts_irrefl.
    + exfalso. rewrite Hs in Hs2. by eapply lts_irrefl.
    + done.
Qed.

(** Between requirements of the flattened demand that means: they are the
    same requirement. *)
Lemma compareRequired_tie idx c kv c' kv' :
  (compareRequired (requirementFor idx c kv) (requirementFor idx c' kv') <= 0)%Z ->
  (compareRequired (requirementFor idx c' kv') (requirementFor idx c kv) <= 0)%Z ->
  requirementFor idx c kv = requirementFor idx c' kv'.
Proof.
  intros H1 H2.
  destruct (compareRequired_antisym _ _ H1 H2) as (_ & _ & Hw & Hc & Hs).
  simpl in Hw, Hc, Hs. unfold requirementFor. rewrite <- Hc, <- Hs.
  f_equal. rewrite <- Hs in Hw.
  destruct (sub_weeklyPeriods (subjectOrStub idx kv.1)) as [w|]; simpl in *.
  - destruct (w =? 0)%Z; [|done]. by rewrite !toInt32_idem in Hw.
  - by rewrite !toInt32_idem in Hw.
Qed.

Lemma flattenRequired_elem idx data r :
  r ∈ flattenRequired idx data -> exists c kv, r = requirementFor idx c kv.
Proof.
  unfold flattenRequired.
  intros H. apply list_elem_of_In, in_flat_map in H as (cls & _ & H).
  apply in_flat_map in H as (kv & _ & H).
  rewrite requirementsOf_replicate in H. apply list_elem_of_In in H.
  apply elem_of_replicate in H as [-> _]. eauto.
Qed.

Lemma required_sortedBy data : sortedBy compareRequired (required data).
Proof.
  unfold sortedBy, required. apply Sorted_StronglySorted.
  - intros x y z. apply compareRequired_trans.
  - apply sortBy_sorted, compareRequired_total.
Qed.

(** A list with the requirements of the flattened demand that is in the
    order of the comparator is the list [required]. *)
Lemma required_unique data reqs :
  reqs ≡ₚ flattenRequired (buildIndex data) data ->
  sortedBy compareRequired reqs -> reqs = required data.
Proof.
  intros Hperm Hsorted.
  apply (StronglySorted_unique_strong
           (fun a b => (compareRequired a b <= 0)%Z)); try done.
  - intros x1 x2 Hx1 Hx2 H12 H21.
    rewrite Hperm in Hx1. unfold required in Hx2. rewrite sortBy_perm in Hx2.
    apply flattenRequired_elem in Hx1 as (c1 & kv1 & ->).
    apply flattenRequired_elem in Hx2 as (c2 & kv2 & ->).
    by apply compareRequired_tie.
  - apply required_sortedBy.
  - rewrite Hperm. unfold required. by rewrite sortBy_perm.
Qed.

Lemma cmpStr_le a b :
  (Js.cmpStr a b <= 0)%Z <-> a = b \/ OrderedTypeEx.String_as_OT.lt a b.
Proof.
  unfold Js.cmpStr. destruct (String.compare a b) eqn:E.
  - apply String.compare_eq_iff in E. split; [by left | lia].
  - split; [|lia]. intros _. right. by apply OrderedTypeEx.String_as_OT.cmp_lt.
  - split; [lia|]. intros [->|Hlt].
    + pose proof (String.compare_antisym b b) as Hbb.
      rewrite E in Hbb. discriminate Hbb.
    + apply OrderedTypeEx.String_as_OT.cmp_lt in Hlt.
      unfold OrderedTypeEx.String_as_OT.cmp in Hlt. congruence.
Qed.

Lemma teacherOrder_sortedBy data : sortedBy Js.cmpStr (teacherOrder data).
Proof.
  unfold sortedBy, teacherOrder. apply Sorted_StronglySorted.
  - intros x y z. rewrite !cmpStr_le. intros [H1|H1] [H2|H2]; subst; auto.
    right. by eapply OrderedTypeEx.String_as_OT.lt_trans.
  - apply sortBy_sorted. intros a b. rewrite !cmpStr_le.
    destruct (lts_total a b) as [?|[?|?]]; auto.
Qed.

Lemma teacherOrder_unique data order :
  order ≡ₚ map tch_id (teachers data) ->
  sortedBy Js.cmpStr order -> order = teacherOrder data.
Proof.
  intros Hperm Hsorted.
  apply (StronglySorted_unique_strong (fun a b => (Js.cmpStr a b <= 0)%Z));
    try done.
  - intros x1 x2 _ _. rewrite !cmpStr_le. intros [H1|H1] [H2|H2]; try done.
    exfalso. by eapply lts_asym.
  - apply teacherOrder_sortedBy.
  - rewrite Hperm. unfold teacherOrder. by rewrite sortBy_perm.
Qed.

(** C9, amended (determinism).  Two calls with the same configuration, seed
    and iteration budget return the same timetable and the same
    [unassignedCount], [penaltyScore] and [teacherLoads], whatever the clock
    says and whatever order the sorting algorithm of the engine leaves
    elements that compare as equal in: of the requirements, and of the
    teacher ids, there is only one list in the order of the comparator, so
    the two sorts can return nothing else than what they return here.  The
    two timing fields are the difference of the two clock readings and
    nothing else, and they alone can differ between the calls. *)
Theorem deterministic_up_to_timing (data : SchoolConfig) (options : Options)
    (t0 t1 t0' t1' : Z) (reqs : list Requirement) (order : list string) :
  reqs ≡ₚ flattenRequired (buildIndex data) data ->
  sortedBy compareRequired reqs ->
  order ≡ₚ map tch_id (teachers data) ->
  sortedBy Js.cmpStr order ->
  let r := generateTimetableBy reqs order data options t0 t1 in
  let r' := generateTimetable data options t0' t1' in
  timetable r = timetable r' /\
  diag (diagnostics r) = diag (diagnostics r') /\
  timeTakenMs (diagnostics r) = (t1 - t0)%Z /\
  timeMs (diagnostics r) = (t1 - t0)%Z.
Proof.
  intros Hreqs Hsorted Horder Hsorted' r r'. unfold r, r'.
  rewrite (required_unique data reqs Hreqs Hsorted).
  rewrite (teacherOrder_unique data order Horder Hsorted').
  by repeat split.
Qed.

Lemma deterministic_up_to_timing_witness :
  let r := generateTimetableBy (required demoSchool) (teacherOrder demoSchool)
             demoSchool (mkOptions None None) 0 5 in
  let r' := generateTimetable demoSchool (mkOptions None None) 3 9 in
  timetable r = timetable r' /\
  diag (diagnostics r) = diag (diagnostics r') /\
  timeTakenMs (diagnostics r) = (5 - 0)%Z /\
  timeMs (diagnostics r) = (5 - 0)%Z.
Proof.
  apply (deterministic_up_to_timing demoSchool (mkOptions None None) 0 5 3 9
           (required demoSchool) (teacherOrder demoSchool)).
  - apply sortBy_perm.
  - apply required_sortedBy.
  - apply sortBy_perm.
  - apply teacherOrder_sortedBy.
Defined.

(** ** The feasibility test of a swap *)

(** X12 (symmetry).  Whether a swap is feasible does not depend on which of
    the two picked slots is called [a] and which [b]. *)
Theorem swapFeasible_is_symmetric (a b : Slot) (timetable : Timetable)
    (data : SchoolConfig) :
  swapFeasible a b timetable data = swapFeasible b a timetable data.
Proof.
  unfold swapFeasible.
  destruct (Js.alGet timetable (classId a)) as [Agrid|],
           (Js.alGet timetable (classId b)) as [Bgrid|]; try done.
  destruct (cellAt Agrid (day a) (period a)) as [Aentry|],
           (cellAt Bgrid (day b) (period b)) as [Bentry|]; try done.
  repeat match goal with
         | |- context [if ?c then _ else _] => destruct c; simpl; try done
         end.
Qed.

(** ** What [applySwap] does *)

(** X13 ([applySwap], in general).  On a timetable with one grid per key,
    a row per working day and every double head followed by its second
    half, let [a] and [b] be two slots of the pool at different cells.
    After [applySwap(a, b, timetable)] the entry of [a] is in its own cell
    again (its [headOfDouble] rewritten), the cell of [b] is empty, and no
    cell other than those two and the two cells after them has changed. *)
Theorem applySwap_puts_A_back_and_empties_B (data : SchoolConfig)
    (tt : Timetable) (a b : Slot) :
  wfTT (workingDays data) tt -> paired tt ->
  a ∈ collectAssignedSlots tt data -> b ∈ collectAssignedSlots tt data ->
  posOf a <> posOf b ->
  cell (applySwap a b tt) (classId a) (day a) (period a) =
    Some (withHead (entry a) (if double (entry a) then Some true else None)) /\
  cell (applySwap a b tt) (classId b) (day b) (period b) = None /\
  forall c d p,
    (c, d, p) <> posOf a -> (c, d, p) <> nextOf a ->
    (c, d, p) <> posOf b -> (c, d, p) <> nextOf b ->
    cell (applySwap a b tt) c d p = cell tt c d p.
Proof.
  intros Hwf Hpaired Ha Hb Hne.
  destruct (pool_elem _ _ _ (proj1 Hwf) Ha) as (ga & Hga & Hda & Hpa & Hca & Hua & Hha).
  destruct (pool_elem _ _ _ (proj1 Hwf) Hb) as (gb & Hgb & Hdb & Hpb & Hcb & Hub & Hhb).
  assert (inShape tt (classId a) (day a)) as Hsa by by eapply pool_inShape.
  assert (inShape tt (classId b) (day b)) as Hsb by by eapply pool_inShape.
  pose proof (fun c d p => cell_applySwap tt a b (entry a) c d p Hsa Hsb Hca) as Hcell.
  unfold posOf, nextOf in *. repeat split.
  - rewrite Hcell. rewrite decide_False by (intros [_ [= ?]]; lia).
    by rewrite decide_True.
  - rewrite Hcell.
    destruct (decide (double (entry a) = true /\
                      (classId b, day b, period b) =
                      (classId a, day a, period a + 1))) as [[Hdbl Heq]|_].
    { exfalso. pose proof (secondHalf_false _ Hha Hdbl) as Hhead.
      pose proof (Hpaired _ _ _ _ Hca Hdbl Hhead) as Hnext.
      injection Heq as H1 H2 H3. rewrite <- H1, <- H2, <- H3, Hcb in Hnext.
      injection Hnext as Hnext. rewrite Hnext in Hhb.
      unfold secondHalf in Hhb. simpl in Hhb. rewrite Hdbl in Hhb. done. }
    rewrite decide_False by congruence.
    rewrite decide_False by (intros [_ [= ?]]; lia).
    by rewrite decide_True.
  - intros c d p H1 H2 H3 H4. rewrite Hcell.
    rewrite decide_False by (intros [_ ?]; done).
    rewrite decide_False by done.
    rewrite decide_False by (intros [_ ?]; done).
    by rewrite decide_False.
Qed.

Lemma applySwap_puts_A_back_and_empties_B_witness :
  let a := mkSlot "c1" 0 0 mathLesson in
  let b := mkSlot "c2" 0 1 artLesson in
  cell (applySwap a b (greedy demoSchool)) "c1" 0 0 = Some mathLesson /\
  cell (applySwap a b (greedy demoSchool)) "c2" 0 1 = None /\
  forall c d p,
    (c, d, p) <> posOf a -> (c, d, p) <> nextOf a ->
    (c, d, p) <> posOf b -> (c, d, p) <> nextOf b ->
    cell (applySwap a b (greedy demoSchool)) c d p = cell (greedy demoSchool) c d p.
Proof.
  destruct (greedy_inv demoSchool) as (Hwf & Hp & _).
  apply (applySwap_puts_A_back_and_empties_B demoSchool (greedy demoSchool)
           (mkSlot "c1" 0 0 mathLesson) (mkSlot "c2" 0 1 artLesson) Hwf Hp).
  - vm_compute. apply list_elem_of_here.
  - vm_compute. apply list_elem_of_further, list_elem_of_here.
  - discriminate.
Defined.

(** ** The lookups of [buildIndex] *)

(** X14 ([buildIndex]).  [subjectsById] and [teachersById] map an id to the
    last record of the configuration that carries it (a later record
    replaces an earlier one), and to nothing if there is none;
    [resourcesByType] maps a type to the resources of that type in the
    order of the configuration, and has no entry for a type without
    resources. *)
Theorem buildIndex_keeps_the_last_record_of_an_id (data : SchoolConfig) :
  (forall k, subjectsById (buildIndex data) !! k =
             last (filter (fun s => sub_id s = k) (subjects data))) /\
  (forall k, teachersById (buildIndex data) !! k =
             last (filter (fun t => tch_id t = k) (teachers data))) /\
  (forall ty, resourcesByType (buildIndex data) !! ty =
              match filter (fun r => res_type r = ty) (resources data) with
              | [] => None
              | rs => Some rs
              end).
Proof.
  split; [|split]; intros k; simpl.
  - apply indexById_lookup.
  - apply indexById_lookup.
  - apply groupByType_lookup.
Qed.

(** ** The schedule maps *)

(** X15 (occupy, then ask).  After [occupyTeacherSchedule(schedule, id, d, ps)]
    the periods [qs] of day [d'] are free for [id'] exactly when they were
    free before and, if it is the same id and day, none of them is among
    [ps]; [resourceOccupied] answers the opposite of [teacherFreeSchedule],
    so after [occupyResource] a resource is occupied at [qs] exactly when
    it was before or one of [qs] is among the periods just taken. *)
Theorem occupied_periods_are_taken (schedule : Schedule) (id : string)
    (d : nat) (ps : list nat) (id' : string) (d' : nat) (qs : list nat) :
  (teacherFreeSchedule (occupyTeacherSchedule schedule id d ps) id' d' qs = true <->
   teacherFreeSchedule schedule id' d' qs = true /\
   (id = id' -> d = d' -> forall q, q ∈ qs -> q ∉ ps)) /\
  (resourceOccupied (occupyResource schedule id d ps) id' d' qs = true <->
   resourceOccupied schedule id' d' qs = true \/
   (id = id' /\ d = d' /\ exists q, q ∈ qs /\ q ∈ ps)) /\
  resourceOccupied schedule id' d' qs =
    negb (teacherFreeSchedule schedule id' d' qs).
Proof.
  split; [|split].
  - unfold teacherFreeSchedule. rewrite !forallb_forall. split.
    + intros H. split.
      * intros q Hq. specialize (H q Hq). apply negb_true_iff in H.
        apply bool_decide_eq_false in H. rewrite usedSet_occupy in H.
        apply negb_true_iff, bool_decide_eq_false. tauto.
      * intros <- <- q Hq Hps. apply list_elem_of_In in Hq.
        specialize (H q Hq). apply negb_true_iff in H.
        apply bool_decide_eq_false in H. rewrite usedSet_occupy in H.
        apply H. by right.
    + intros [H Hnew] q Hq. specialize (H q Hq). apply negb_true_iff in H.
      apply bool_decide_eq_false in H.
      apply negb_true_iff, bool_decide_eq_false. rewrite usedSet_occupy.
      intros [?|(<- & <- & Hps)]; [done|].
      apply (Hnew eq_refl eq_refl q); [by apply list_elem_of_In | done].
  - unfold resourceOccupied. rewrite !existsb_exists. split.
    + intros (q & Hq & H). apply bool_decide_eq_true in H.
      rewrite usedSet_occupy in H. destruct H as [H|(<- & <- & Hps)].
      * left. exists q. split; [done|]. by apply bool_decide_eq_true.
      * right. repeat split. exists q. split; [by apply list_elem_of_In | done].
    + intros [(q & Hq & H)|(<- & <- & q & Hq & Hps)].
      * exists q. split; [done|]. apply bool_decide_eq_true in H.
        apply bool_decide_eq_true, usedSet_occupy. by left.
      * exists q. split; [by apply list_elem_of_In|].
        apply bool_decide_eq_true, usedSet_occupy. by right.
  - unfold resourceOccupied, teacherFreeSchedule.
    induction qs as [|q qs IH]; simpl; [done|].
    rewrite IH, negb_andb, negb_involutive. done.
Qed.

(** ** The teacher accounts of [computeDiagnostics] *)

Lemma alGet_mapSet {K V} `{EqDecision K} (m : list (K * V)) k v k' :
  Js.alGet (Js.mapSet m k v) k' =
  if decide (k = k') then Some v else Js.alGet m k'.
Proof.
  unfold Js.mapSet. destruct (Js.alGet m k) as [w|] eqn:E.
  - rewrite alGet_alReplace, E. done.
  - induction m as [|[k0 v0] m IH]; simpl in *.
    + case_decide; [by rewrite decide_True | by rewrite decide_False].
    + destruct (decide (k = k0)) as [->|Hk]; [done|].
      destruct (decide (k' = k0)) as [->|Hk'].
      * by rewrite decide_False.
      * by apply IH.
Qed.

Lemma fold_flat_map {A B C} (f : C -> B -> C) (g : A -> list B) l c :
  fold_left f (flat_map g l) c = fold_left (fun c x => fold_left f (g x) c) l c.
Proof.
  revert c. induction l as [|x l IH]; intros c; simpl; [done|].
  by rewrite fold_left_app, IH.
Qed.

Lemma cellStep_accounts periods g d a p :
  acc_loads (cellStep periods g d a p) =
    match teaches g d p with
    | Some t => bumpLoad (acc_loads a) (t, d, p)
    | None => acc_loads a
    end /\
  acc_usage (cellStep periods g d a p) =
    match teaches g d p with
    | Some t => bumpUsage periods (acc_usage a) (t, d, p)
    | None => acc_usage a
    end.
Proof.
  unfold cellStep, teaches. destruct (cellAt g d p) as [e|]; [|done].
  destruct (unassigned e); [done|].
  assert (forall a', acc_loads (if sameSubjectNext periods g d p e
                                then addPenalty 10 a' else a') = acc_loads a' /\
                     acc_usage (if sameSubjectNext periods g d p e
                                then addPenalty 10 a' else a') = acc_usage a') as H
    by (intros a'; by destruct (sameSubjectNext _ _ _ _ _)).
  destruct (H (recordTeacher periods e d p a)) as [-> ->].
  unfold recordTeacher. destruct (teacherId e) as [t|]; [|done].
  by destruct (Js.truthyStr t).
Qed.

Lemma fold_accounts {A} (step : DiagAcc -> A -> DiagAcc)
    (evs : A -> list (string * nat * nat)) periods :
  (forall a x,
      acc_loads (step a x) = fold_left bumpLoad (evs x) (acc_loads a) /\
      acc_usage (step a x) =
        fold_left (bumpUsage periods) (evs x) (acc_usage a)) ->
  forall l a,
    acc_loads (fold_left step l a) =
      fold_left bumpLoad (flat_map evs l) (acc_loads a) /\
    acc_usage (fold_left step l a) =
      fold_left (bumpUsage periods) (flat_map evs l) (acc_usage a).
Proof.
  intros Hstep. induction l as [|x l IH]; intros a; simpl; [done|].
  rewrite !fold_left_app. destruct (IH (step a x)) as [-> ->].
  by destruct (Hstep a x) as [-> ->].
Qed.

Lemma diagPass1_accounts tt data :
  acc_loads (diagPass1 tt data) =
    fold_left bumpLoad (recorded (workingDays data) (periodsPerDay data) tt) [] /\
  acc_usage (diagPass1 tt data) =
    fold_left (bumpUsage (periodsPerDay data))
              (recorded (workingDays data) (periodsPerDay data) tt) [].
Proof.
  unfold diagPass1, recorded.
  apply (fold_accounts (gridPass (workingDays data) (periodsPerDay data))).
  intros a kg. unfold gridPass. apply fold_accounts.
  intros a' d. apply fold_accounts.
  intros a'' p. destruct (cellStep_accounts (periodsPerDay data) (snd kg) d a'' p)
    as [-> ->].
  by destruct (teaches (snd kg) d p).
Qed.

Lemma fold_bumpLoad evs m t :
  let n := sum_list_with
             (fun ev : string * nat * nat => if decide (ev.1.1 = t) then 1 else 0)
             evs in
  Js.alGet (fold_left bumpLoad evs m) t =
  if n =? 0 then Js.alGet m t
  else Some (default 0%Z (Js.alGet m t) + Z.of_nat n)%Z.
Proof.
  revert m. induction evs as [|[[t' d] p] evs IH]; intros m; simpl; [done|].
  rewrite IH. cbv zeta.
  assert (Js.alGet (bumpLoad m (t', d, p)) t =
          if decide (t' = t) then Some (default 0%Z (Js.alGet m t) + 1)%Z
          else Js.alGet m t) as ->.
  { unfold bumpLoad. simpl. rewrite alGet_mapSet. by case_decide; subst. }
  destruct (decide (t' = t)) as [->|Hne]; simpl.
  - destruct (sum_list_with _ evs) as [|k]; simpl; f_equal; lia.
  - done.
Qed.

Lemma fold_bumpLoad_keys evs m :
  NoDup m.*1 -> NoDup (fold_left bumpLoad evs m).*1.
Proof.
  revert m. induction evs as [|ev evs IH]; intros m Hnd; simpl; [done|].
  apply IH. unfold bumpLoad. by apply mapSet_keys_NoDup.
Qed.

Lemma loadsObject_lookup (loads : list (string * Z)) t :
  NoDup loads.*1 ->
  Js.alGet (loadsObject loads) t =
  if String.eqb t "__proto__" then None else Js.alGet loads t.
Proof.
  unfold loadsObject.
  assert (forall (l o : list (string * Z)),
             NoDup l.*1 ->
             Js.alGet (fold_left
                         (fun o kv => if String.eqb kv.1 "__proto__" then o
                                      else Js.objSet o kv.1 kv.2) l o) t =
             match (if String.eqb t "__proto__" then None else Js.alGet l t) with
             | Some v => Some v
             | None => Js.alGet o t
             end)
    as H.
  { induction l as [|[k v] l IH]; intros o Hnd; simpl.
    - by destruct (String.eqb t "__proto__").
    - apply NoDup_cons in Hnd as [Hk Hnd]. rewrite IH by done.
      destruct (String.eqb_spec t "__proto__") as [->|Ht].
      + destruct (String.eqb_spec k "__proto__") as [->|Hk']; [done|].
        rewrite alGet_objSet. by rewrite decide_False.
      + destruct (decide (t = k)) as [->|Hne].
        * rewrite (proj2 (alGet_None l k) Hk).
          destruct (String.eqb_spec k "__proto__") as [->|Hk']; [done|].
          rewrite alGet_objSet. by rewrite decide_True.
        * destruct (Js.alGet l t); [done|].
          destruct (String.eqb_spec k "__proto__") as [->|Hk']; [done|].
          rewrite alGet_objSet. by rewrite decide_False. }
  intros Hnd. rewrite H by done.
  destruct (String.eqb t "__proto__"); [done|]. by destruct (Js.alGet loads t).
Qed.

Lemma recorded_count days periods tt t :
  sum_list_with
    (fun ev : string * nat * nat => if decide (ev.1.1 = t) then 1 else 0)
    (recorded days periods tt) =
  lessonsOf days periods tt t.
Proof.
  unfold recorded, lessonsOf, windowCount.
  rewrite sum_list_with_flat_map. apply sum_list_with_ext. intros kg.
  rewrite sum_list_with_flat_map. apply sum_list_with_ext. intros d.
  rewrite sum_list_with_flat_map. apply sum_list_with_ext. intros p.
  destruct (teaches (snd kg) d p) as [t'|]; simpl.
  - destruct (decide (t' = t)) as [->|Hne].
    + by rewrite bool_decide_eq_true_2.
    + rewrite bool_decide_eq_false_2; [done | congruence].
  - done.
Qed.

Lemma teacherLoads_lookup tt data t :
  Js.alGet (teacherLoads (computeDiagnostics tt data)) t =
  let n := lessonsOf (workingDays data) (periodsPerDay data) tt t in
  if (n =? 0) || String.eqb t "__proto__" then None else Some (Z.of_nat n).
Proof.
  unfold computeDiagnostics. simpl.
  destruct (diagPass1_accounts tt data) as [-> _].
  rewrite loadsObject_lookup by (apply fold_bumpLoad_keys; constructor).
  rewrite fold_bumpLoad. simpl. rewrite recorded_count.
  destruct (String.eqb t "__proto__"); [by rewrite orb_true_r|].
  rewrite orb_false_r. by destruct (lessonsOf _ _ _ _ =? 0).
Qed.

(** X16 (teacher loads).  For a timetable whose grids have a row for every
    working day, [teacherLoads] of [computeDiagnostics] has, for every
    teacher id other than [__proto__], the number of assigned cells inside
    the week that carry the id, over all classes, and has no entry for an
    id that no cell carries (the empty id included) nor for the id
    [__proto__], whose load is lost when the load map is turned into an
    object. *)
Theorem teacherLoads_count_the_lessons (tt : Timetable) (data : SchoolConfig)
    (t : string) :
  Forall (fun kg : string * Grid => workingDays data <= length kg.2) tt ->
  Js.alGet (teacherLoads (computeDiagnostics tt data)) t =
  let n := lessonsOf (workingDays data) (periodsPerDay data) tt t in
  if (n =? 0) || String.eqb t "__proto__" then None else Some (Z.of_nat n).
Proof. intros _. apply teacherLoads_lookup. Qed.

Lemma teacherLoads_count_the_lessons_witness :
  Js.alGet (teacherLoads (computeDiagnostics (greedy labSchool) labSchool)) "ta" =
  let n := lessonsOf 2 3 (greedy labSchool) "ta" in
  if (n =? 0) || String.eqb "ta" "__proto__" then None else Some (Z.of_nat n).
Proof.
  apply (teacherLoads_count_the_lessons (greedy labSchool) labSchool "ta").
  vm_compute. repeat constructor.
Defined.

(** ** The idle gaps of [computeDiagnostics] *)

Lemma gapsOfDay_count dayArr : gapsOfDay dayArr = (5 * Z.of_nat (gapCount dayArr))%Z.
Proof.
  unfold gapsOfDay, gapCount.
  assert (forall (c : nat -> bool) l n0,
             fold_left (fun (n : Z) p => if c p then (n + 5)%Z else n) l n0 =
             (n0 + 5 * Z.of_nat (sum_list_with
                                   (fun p => if c p then 1%nat else 0%nat) l))%Z)
    as H.
  { intros c l. induction l as [|p l IH]; intros n0; simpl; [lia|].
    rewrite IH. destruct (c p); lia. }
  rewrite H. lia.
Qed.

Lemma gapPenalty_count usage :
  gapPenalty usage =
  (5 * Z.of_nat (sum_list_with
                   (fun tu : string * list (nat * list bool) =>
                      sum_list_with (fun du : nat * list bool => gapCount du.2) tu.2)
                   usage))%Z.
Proof.
  unfold gapPenalty.
  assert (forall {A} (f : A -> nat) (g : A -> Z) l n0,
             (forall x, g x = (5 * Z.of_nat (f x))%Z) ->
             fold_left (fun (n : Z) x => (n + g x)%Z) l n0 =
             (n0 + 5 * Z.of_nat (sum_list_with f l))%Z) as H.
  { intros A f g l. induction l as [|x l IH]; intros n0 Hg; simpl; [lia|].
    rewrite IH by done. rewrite Hg. lia. }
  assert (forall l n0,
             fold_left
               (fun (n : Z) (tu : string * list (nat * list bool)) =>
                  fold_left (fun n du => (n + gapsOfDay (snd du))%Z) (snd tu) n)
               l n0 =
             (n0 + 5 * Z.of_nat (sum_list_with
                   (fun tu : string * list (nat * list bool) =>
                      sum_list_with (fun du : nat * list bool => gapCount du.2) tu.2)
                   l))%Z) as H2.
  { induction l as [|tu l IH]; intros n0; simpl; [lia|].
    rewrite IH. rewrite (H _ (fun du : nat * list bool => gapCount du.2)).
    - lia.
    - intros du. apply gapsOfDay_count. }
  rewrite H2. lia.
Qed.

Lemma sum_list_with_ext_in {A} (f g : A -> nat) (l : list A) :
  (forall x, x ∈ l -> f x = g x) -> sum_list_with f l = sum_list_with g l.
Proof.
  induction l as [|x l IH]; simpl; [done|]. intros H.
  rewrite (H x) by left. rewrite IH; [done|]. intros y Hy. apply H. by right.
Qed.

Lemma sum_alist {K V} `{EqDecision K} (m : list (K * V)) (f : K -> V -> nat)
    (ks : list K) :
  NoDup m.*1 -> NoDup ks -> (forall k, k ∈ m.*1 -> k ∈ ks) ->
  sum_list_with (fun kv : K * V => f kv.1 kv.2) m =
  sum_list_with (fun k => match Js.alGet m k with Some v => f k v | None => 0 end) ks.
Proof.
  revert ks. induction m as [|[k0 v0] m IH]; intros ks Hm Hks Hsub; csimpl.
  - symmetry. by apply sum_list_with_zero.
  - apply NoDup_cons in Hm as [Hk0 Hm].
    assert (k0 ∈ ks) as Hin by (apply Hsub; left).
    apply elem_of_Permutation in Hin as [ks' Hperm].
    rewrite Hperm in Hks. apply NoDup_cons in Hks as [Hk0' Hks'].
    rewrite (sum_list_with_Permutation_proper _ _ _ Hperm). simpl.
    rewrite decide_True by done. f_equal.
    rewrite (IH ks' Hm Hks').
    + apply sum_list_with_ext_in. intros k Hk.
      rewrite decide_False; [done|]. intros ->. done.
    + intros k Hk. assert (k ∈ ks) as Hk' by (apply Hsub; by right).
      rewrite Hperm in Hk'. apply elem_of_cons in Hk' as [->|]; done.
Qed.

Lemma alGet_alReplace_Some {K V} `{EqDecision K} (m : list (K * V)) k v w k' :
  Js.alGet m k = Some w ->
  Js.alGet (Js.alReplace m k v) k' =
  if decide (k = k') then Some v else Js.alGet m k'.
Proof. intros E. by rewrite alGet_alReplace, E. Qed.

Lemma alGet_alReplace_mapSet {K V} `{EqDecision K} (m : list (K * V)) k x v k' :
  Js.alGet (Js.alReplace (Js.mapSet m k x) k v) k' =
  if decide (k = k') then Some v else Js.alGet m k'.
Proof.
  rewrite (alGet_alReplace_Some _ _ _ x).
  - case_decide; [done|]. rewrite alGet_mapSet. by rewrite decide_False.
  - rewrite alGet_mapSet. by rewrite decide_True.
Qed.

(** [m.has(k) || m.set(k, v0)], then a lookup. *)
Lemma alGet_ensure {K V} `{EqDecision K} (m : list (K * V)) k v0 k' :
  Js.alGet (match Js.alGet m k with Some _ => m | None => Js.mapSet m k v0 end) k' =
  if decide (k = k') then Some (default v0 (Js.alGet m k)) else Js.alGet m k'.
Proof.
  destruct (Js.alGet m k) as [w|] eqn:E; simpl.
  - case_decide; [by subst|done].
  - by rewrite alGet_mapSet.
Qed.

Lemma usageOf_markUsage periods t d p u t' d' :
  usageOf (markUsage periods t d p u) t' d' =
  if decide (t = t' /\ d = d')
  then Some (Js.arraySet false
               (default (replicate periods false) (usageOf u t d)) p true)
  else usageOf u t' d'.
Proof.
  unfold usageOf, markUsage.
  set (u1 := match Js.alGet u t with Some _ => u | None => Js.mapSet u t [] end).
  assert (forall x, Js.alGet u1 x =
                    if decide (t = x) then Some (default [] (Js.alGet u t))
                    else Js.alGet u x) as Hu1 by (intros; apply alGet_ensure).
  assert (forall A (x y : A), default y (Some x) = x) as Hdef by done.
  rewrite (Hu1 t), decide_True, Hdef by done.
  set (dm := default [] (Js.alGet u t)).
  set (dm1 := match Js.alGet dm d with
              | Some _ => dm
              | None => Js.mapSet dm d (replicate periods false)
              end).
  assert (forall x, Js.alGet dm1 x =
                    if decide (d = x)
                    then Some (default (replicate periods false) (Js.alGet dm d))
                    else Js.alGet dm x) as Hdm1 by (intros; apply alGet_ensure).
  rewrite (Hdm1 d), decide_True, Hdef by done.
  rewrite alGet_alReplace, (Hu1 t). rewrite (decide_True (P := t = t)) by done.
  cbn [fmap option_fmap option_map].
  assert (default (replicate periods false) (Js.alGet dm d) =
          default (replicate periods false)
            match Js.alGet u t with
            | Some dayMap => Js.alGet dayMap d
            | None => None
            end) as ->.
  { unfold dm. by destruct (Js.alGet u t). }
  destruct (decide (t = t')) as [<-|Ht].
  - rewrite alGet_alReplace, (Hdm1 d). rewrite (decide_True (P := d = d)) by done.
    cbn [fmap option_fmap option_map].
    destruct (decide (d = d')) as [<-|Hd]; [by rewrite decide_True|].
    rewrite decide_False by tauto. rewrite Hdm1, decide_False by done.
    unfold dm. by destruct (Js.alGet u t).
  - rewrite decide_False by tauto. by rewrite Hu1, decide_False.
Qed.

Lemma mapSet_keys_elem {K V} `{EqDecision K} (m : list (K * V)) k v x :
  x ∈ (Js.mapSet m k v).*1 <-> x = k \/ x ∈ m.*1.
Proof.
  unfold Js.mapSet. destruct (Js.alGet m k) as [w|] eqn:E.
  - rewrite alReplace_keys. split; [by right|]. intros [->|]; [|done].
    apply alGet_Some_elem in E. apply list_elem_of_fmap. by exists (k, w).
  - rewrite fmap_app. simpl. set_solver.
Qed.

Lemma markUsage_keys periods t d p u x :
  x ∈ (markUsage periods t d p u).*1 -> x = t \/ x ∈ u.*1.
Proof.
  unfold markUsage. rewrite alReplace_keys.
  destruct (Js.alGet u t); [by right|]. by rewrite mapSet_keys_elem.
Qed.

Lemma markUsage_NoDup periods t d p u :
  NoDup u.*1 -> NoDup (markUsage periods t d p u).*1.
Proof.
  intros Hnd. unfold markUsage. rewrite alReplace_keys.
  destruct (Js.alGet u t); [done|]. by apply mapSet_keys_NoDup.
Qed.

(** The day maps keep distinct keys. *)
Lemma markUsage_days_NoDup periods t d p u :
  (forall t' dm, Js.alGet u t' = Some dm -> NoDup dm.*1) ->
  forall t' dm, Js.alGet (markUsage periods t d p u) t' = Some dm -> NoDup dm.*1.
Proof.
  intros H t' dm'. unfold markUsage.
  set (u1 := match Js.alGet u t with Some _ => u | None => Js.mapSet u t [] end).
  assert (forall x dm, Js.alGet u1 x = Some dm -> NoDup dm.*1) as H1.
  { intros x dm. unfold u1. destruct (Js.alGet u t); [apply H|].
    rewrite alGet_mapSet. case_decide; [intros [= <-]; constructor | apply H]. }
  rewrite alGet_alReplace. case_decide; [|apply H1].
  destruct (Js.alGet u1 t) as [dm|] eqn:E; [|done]. simpl. intros [= <-].
  rewrite alReplace_keys. specialize (H1 _ _ E).
  destruct (Js.alGet dm d); [done|]. by apply mapSet_keys_NoDup.
Qed.

Lemma fold_markAt_none t d evs a :
  existsb (concerns t d) evs = false -> fold_left (markAt t d) evs a = a.
Proof.
  induction evs as [|ev evs IH]; simpl; [done|].
  intros [Hev Hrest]%orb_false_iff. unfold markAt at 2.
  unfold concerns in Hev. apply bool_decide_eq_false in Hev.
  rewrite decide_False by done. by apply IH.
Qed.

Lemma usageOf_fold periods evs u t d :
  usageOf (fold_left (bumpUsage periods) evs u) t d =
  if existsb (concerns t d) evs
  then Some (fold_left (markAt t d) evs
               (default (replicate periods false) (usageOf u t d)))
  else usageOf u t d.
Proof.
  revert u. induction evs as [|[[t' d'] p] evs IH]; intros u; simpl; [done|].
  rewrite IH.
  change (bumpUsage periods u (t', d', p)) with (markUsage periods t' d' p u).
  rewrite usageOf_markUsage.
  assert (concerns t d (t', d', p) = bool_decide (t' = t /\ d' = d)) as -> by done.
  assert (forall a, markAt t d a (t', d', p) =
                    if decide (t' = t /\ d' = d)
                    then Js.arraySet false a p true else a) as Hm by done.
  rewrite Hm.
  destruct (decide (t' = t /\ d' = d)) as [[-> ->]|Hne].
  - rewrite bool_decide_eq_true_2 by done. simpl.
    destruct (existsb _ evs) eqn:E; [done|]. by rewrite fold_markAt_none.
  - rewrite bool_decide_eq_false_2 by done. simpl. done.
Qed.

Lemma fold_bumpUsage_wf periods evs u :
  NoDup u.*1 ->
  (forall t dm, Js.alGet u t = Some dm -> NoDup dm.*1) ->
  NoDup (fold_left (bumpUsage periods) evs u).*1 /\
  (forall t dm, Js.alGet (fold_left (bumpUsage periods) evs u) t = Some dm ->
                NoDup dm.*1).
Proof.
  revert u. induction evs as [|ev evs IH]; intros u H1 H2; simpl; [done|].
  apply IH; unfold bumpUsage.
  - by apply markUsage_NoDup.
  - by apply markUsage_days_NoDup.
Qed.

Lemma fold_bumpUsage_keys periods evs u x :
  x ∈ (fold_left (bumpUsage periods) evs u).*1 ->
  x ∈ u.*1 \/ exists ev, ev ∈ evs /\ ev.1.1 = x.
Proof.
  revert u. induction evs as [|ev evs IH]; intros u; simpl; [by left|].
  intros [H|(ev' & Hin & Heq)]%IH.
  - apply markUsage_keys in H as [->|H]; [|by left].
    right. exists ev. split; [left | done].
  - right. exists ev'. split; [by right | done].
Qed.

Lemma nth_arraySet (a : list bool) p q :
  nth q (Js.arraySet false a p true) false =
  if decide (p = q) then true else nth q a false.
Proof.
  unfold Js.arraySet. destruct (Nat.ltb_spec p (length a)) as [Hlt|Hge].
  - rewrite !nth_lookup. destruct (decide (p = q)) as [<-|Hne].
    + by rewrite list_lookup_insert_eq.
    + by rewrite list_lookup_insert_ne.
  - destruct (Nat.lt_ge_cases q (length a)) as [Hq|Hq].
    + rewrite app_nth1 by done. rewrite decide_False by lia. done.
    + rewrite app_nth2 by lia. rewrite (nth_overflow a) by lia.
      destruct (Nat.lt_ge_cases (q - length a) (p - length a)) as [Hq'|Hq'].
      * rewrite app_nth1 by (by rewrite length_replicate).
        rewrite decide_False by lia. rewrite nth_lookup.
        by rewrite lookup_replicate_2.
      * rewrite app_nth2 by (by rewrite length_replicate).
        rewrite length_replicate.
        destruct (decide (p = q)) as [<-|Hne].
        -- replace (p - length a - (p - length a)) with 0 by lia. done.
        -- destruct (q - length a - (p - length a)) as [|[|k]] eqn:E;
             [lia| done | done].
Qed.

Lemma length_fold_markAt t d evs a :
  (forall ev, ev ∈ evs -> ev.2 < length a) ->
  length (fold_left (markAt t d) evs a) = length a.
Proof.
  revert a. induction evs as [|ev evs IH]; intros a H; simpl; [done|].
  assert (length (markAt t d a ev) = length a) as Hlen.
  { unfold markAt. case_decide; [|done]. unfold Js.arraySet.
    destruct (Nat.ltb_spec ev.2 (length a)) as [|Hge]; [by rewrite length_insert|].
    specialize (H ev ltac:(left)). lia. }
  rewrite IH; [done|]. intros ev' Hin. rewrite Hlen. apply H. by right.
Qed.

Lemma nth_fold_markAt t d evs a q :
  nth q (fold_left (markAt t d) evs a) false =
  nth q a false || existsb (fun ev => concerns t d ev && (ev.2 =? q)) evs.
Proof.
  revert a. induction evs as [|ev evs IH]; intros a; simpl; [by rewrite orb_false_r|].
  rewrite IH.
  assert (concerns t d ev = bool_decide (ev.1.1 = t /\ ev.1.2 = d)) as -> by done.
  assert (markAt t d a ev =
          if decide (ev.1.1 = t /\ ev.1.2 = d)
          then Js.arraySet false a ev.2 true else a) as -> by done.
  destruct (decide (ev.1.1 = t /\ ev.1.2 = d)) as [Hc|Hc].
  - rewrite bool_decide_eq_true_2 by done. rewrite nth_arraySet. simpl.
    destruct (decide (ev.2 = q)) as [->|Hne].
    + rewrite Nat.eqb_refl. simpl. by rewrite orb_true_r.
    + apply Nat.eqb_neq in Hne. rewrite Hne. done.
  - rewrite bool_decide_eq_false_2 by done. done.
Qed.

Lemma recorded_elem days periods tt t d p :
  (t, d, p) ∈ recorded days periods tt <->
  d < days /\ p < periods /\ exists kg, kg ∈ tt /\ teaches kg.2 d p = Some t.
Proof.
  unfold recorded. rewrite list_elem_of_In, in_flat_map. split.
  - intros (kg & Hkg & H). apply in_flat_map in H as (d' & Hd & H).
    apply in_flat_map in H as (p' & Hp & H). apply in_seq in Hd, Hp.
    destruct (teaches (snd kg) d' p') as [t'|] eqn:E; [|done].
    destruct H as [[= -> -> ->]|[]]. split; [lia|]. split; [lia|].
    exists kg. split; [by apply list_elem_of_In | done].
  - intros (Hd & Hp & kg & Hkg & Ht). exists kg.
    split; [by apply list_elem_of_In|].
    apply in_flat_map. exists d. split; [apply in_seq; lia|].
    apply in_flat_map. exists p. split; [apply in_seq; lia|].
    simpl in Ht. rewrite Ht. by left.
Qed.

Lemma busyAt_recorded days periods tt t d p :
  d < days -> p < periods ->
  busyAt tt t d p =
  existsb (fun ev => concerns t d ev && (ev.2 =? p)) (recorded days periods tt).
Proof.
  intros Hd Hp. apply eq_true_iff_eq. unfold busyAt.
  rewrite !existsb_exists. split.
  - intros (kg & Hkg & H). apply bool_decide_eq_true in H.
    exists (t, d, p). split.
    + apply list_elem_of_In, recorded_elem. repeat split; try done.
      exists kg. split; [by apply list_elem_of_In | done].
    + unfold concerns. simpl. rewrite bool_decide_eq_true_2 by done.
      by rewrite Nat.eqb_refl.
  - intros ([[t' d'] p'] & Hin & H). apply andb_true_iff in H as [Hc Hp'].
    apply bool_decide_eq_true in Hc as [Ht' Hd']. simpl in *.
    apply Nat.eqb_eq in Hp'. subst.
    apply list_elem_of_In, recorded_elem in Hin as (_ & _ & kg & Hkg & Hteach).
    exists kg. split; [by apply list_elem_of_In|]. by apply bool_decide_eq_true.
Qed.

Lemma nth_replicate_false n q : nth q (replicate n false) false = false.
Proof.
  rewrite nth_lookup. destruct (replicate n false !! q) as [b|] eqn:E; [|done].
  by apply lookup_replicate in E as [-> _].
Qed.

Section Usage.
Variables (days periods : nat) (tt : Timetable).

Let evs := recorded days periods tt.
Let u := fold_left (bumpUsage periods) evs [].

Lemma usage_day t d :
  d < days ->
  match usageOf u t d with Some arr => gapCount arr | None => 0 end =
  idleGaps periods tt t d.
Proof.
  intros Hd. unfold u. rewrite usageOf_fold. unfold idleGaps. simpl.
  assert (forall q, q < periods ->
            busyAt tt t d q =
            existsb (fun ev => concerns t d ev && (ev.2 =? q)) evs) as Hbusy
    by (intros; by apply busyAt_recorded).
  destruct (existsb (concerns t d) evs) eqn:E.
  - unfold gapCount. rewrite length_fold_markAt.
    + rewrite length_replicate. apply sum_list_with_ext_in. intros p Hp.
      apply list_elem_of_In, in_seq in Hp.
      rewrite !nth_fold_markAt, !nth_replicate_false. simpl.
      by rewrite !Hbusy by lia.
    + intros [[t' d'] p'] Hin. rewrite length_replicate.
      by apply recorded_elem in Hin as (_ & ? & _).
  - symmetry. apply sum_list_with_zero. intros p Hp.
    apply list_elem_of_In, in_seq in Hp.
    rewrite (Hbusy (p - 1)) by lia.
    assert (existsb (fun ev => concerns t d ev && (ev.2 =? p - 1)) evs = false)
      as ->; [|done].
    apply not_true_is_false. intros (ev & Hin & H)%existsb_exists.
    apply andb_true_iff in H as [H _].
    assert (existsb (concerns t d) evs = true) by (apply existsb_exists; eauto).
    congruence.
Qed.

Lemma usage_gaps ts :
  NoDup ts -> (forall t d p, (t, d, p) ∈ evs -> t ∈ ts) ->
  sum_list_with
    (fun tu : string * list (nat * list bool) =>
       sum_list_with (fun du : nat * list bool => gapCount du.2) tu.2) u =
  sum_list_with
    (fun t => sum_list_with (fun d => idleGaps periods tt t d) (seq 0 days)) ts.
Proof.
  intros Hts Hsub.
  destruct (fold_bumpUsage_wf periods evs []) as [Hnd Hdays];
    [constructor | done |]. fold u in Hnd, Hdays.
  rewrite (sum_alist u
             (fun _ dm => sum_list_with (fun du : nat * list bool => gapCount du.2) dm)
             ts Hnd Hts).
  - apply sum_list_with_ext_in. intros t Ht.
    destruct (Js.alGet u t) as [dm|] eqn:E.
    + rewrite (sum_alist dm (fun _ arr => gapCount arr) (seq 0 days)
                 (Hdays _ _ E) (NoDup_seq 0 days)).
      * apply sum_list_with_ext_in. intros d Hd.
        apply list_elem_of_In, in_seq in Hd.
        rewrite <- usage_day by lia. unfold usageOf. by rewrite E.
      * intros d Hd. apply list_elem_of_In, in_seq. split; [lia|]. simpl.
        destruct (Js.alGet dm d) as [arr|] eqn:Ed;
          [|by apply alGet_None in Ed].
        assert (usageOf u t d = Some arr) as Hu by (unfold usageOf; by rewrite E).
        unfold u in Hu. rewrite usageOf_fold in Hu.
        destruct (existsb (concerns t d) evs) eqn:Ex; [|done].
        apply existsb_exists in Ex as ([[t' d'] p'] & Hin & Hc).
        apply bool_decide_eq_true in Hc as [_ <-]. simpl.
        by apply list_elem_of_In, recorded_elem in Hin as (? & _).
    + symmetry. apply sum_list_with_zero. intros d Hd.
      apply list_elem_of_In, in_seq in Hd.
      rewrite <- usage_day by lia. unfold usageOf. by rewrite E.
  - intros t Ht. apply fold_bumpUsage_keys in Ht as [Ht|([[t' d'] p'] & Hin & <-)].
    + by apply elem_of_nil in Ht.
    + by eapply Hsub.
Qed.
End Usage.

(** X17 (the penalty, in full).  For a timetable whose grids have a row for
    every working day, and a duplicate-free list [ts] that holds every
    teacher id recorded, the [penaltyScore] of [computeDiagnostics] is 20
    for every unassigned marker, 10 for every adjacent pair of cells with
    the same subject, and 5 for every idle gap: a teacher, a day and a
    period, neither the first nor the last of the day, at which the teacher
    has no lesson in any class but has one at the period before and one at
    the period after. *)
Theorem idle_gaps_cost_five_each (tt : Timetable) (data : SchoolConfig)
    (ts : list string) :
  let days := workingDays data in
  let periods := periodsPerDay data in
  Forall (fun kg : string * Grid => days <= length kg.2) tt ->
  NoDup ts ->
  (forall c g d p t,
      (c, g) ∈ tt -> d < days -> p < periods -> teaches g d p = Some t -> t ∈ ts) ->
  penaltyScore (computeDiagnostics tt data) =
    (20 * Z.of_nat (windowCount (fun g d p => isMarker (cellAt g d p)) days periods tt)
     + 10 * Z.of_nat (windowCount (adjacentPair periods) days periods tt)
     + 5 * Z.of_nat
             (sum_list_with
                (fun t => sum_list_with (fun d => idleGaps periods tt t d)
                                        (seq 0 days)) ts))%Z.
Proof.
  intros days periods _ Hts Hsub. unfold computeDiagnostics. simpl.
  destruct (diagPass1_counters tt data) as [-> _].
  destruct (diagPass1_accounts tt data) as [_ ->].
  rewrite gapPenalty_count, (usage_gaps _ _ _ ts Hts); [done|].
  intros t d p (Hd & Hp & [c g] & Hin & Ht)%recorded_elem. by eapply Hsub.
Qed.

Lemma idle_gaps_cost_five_each_witness :
  penaltyScore (computeDiagnostics (greedy labSchool) labSchool) =
    (20 * Z.of_nat (windowCount (fun g d p => isMarker (cellAt g d p)) 2 3
                                (greedy labSchool))
     + 10 * Z.of_nat (windowCount (adjacentPair 3) 2 3 (greedy labSchool))
     + 5 * Z.of_nat
             (sum_list_with
                (fun t => sum_list_with
                            (fun d => idleGaps 3 (greedy labSchool) t d) (seq 0 2))
                ["ta"; "tb"]))%Z.
Proof.
  apply (idle_gaps_cost_five_each (greedy labSchool) labSchool ["ta"; "tb"]).
  - vm_compute. repeat constructor.
  - apply NoDup_cons. split; [|apply NoDup_singleton].
    intros H. apply list_elem_of_singleton in H. discriminate H.
  - intros c g d p t Hin Hd Hp Ht. simpl in Hd, Hp.
    assert (t = "ta" \/ t = "tb") as [-> | ->];
      [|apply list_elem_of_here|apply list_elem_of_further, list_elem_of_here].
    vm_compute in Hin.
    apply elem_of_cons in Hin as [Hin|Hin];
      [|apply list_elem_of_singleton in Hin]; injection Hin as Hc Hg; subst c g;
      destruct d as [|[|d]]; try lia;
      destruct p as [|[|[|p]]]; try lia;
      vm_compute in Ht; try discriminate Ht; injection Ht as <-; auto.
Defined.

(** ** The seed *)

(** X18 (seeds).  [generateTimetable] reads the seed modulo 2^32: two
    non-zero seeds that agree modulo 2^32 give the same result, and a
    non-zero multiple of 2^32 gives the result of the default seed. *)
Theorem the_seed_is_read_modulo_2_32 (data : SchoolConfig) (it : option Z)
    (s s' : Z) (t0 t1 : Z) :
  s <> 0%Z -> s' <> 0%Z ->
  ((s mod 4294967296 = s' mod 4294967296)%Z ->
   generateTimetable data (mkOptions it (Some s)) t0 t1 =
   generateTimetable data (mkOptions it (Some s')) t0 t1) /\
  ((s mod 4294967296 = 0)%Z ->
   generateTimetable data (mkOptions it (Some s)) t0 t1 =
   generateTimetable data (mkOptions it None) t0 t1).
Proof.
  intros Hs Hs'.
  assert (seedOf (mkOptions it (Some s)) = s) as Es.
  { unfold seedOf, orElse. simpl. by destruct (Z.eqb_spec s 0). }
  assert (seedOf (mkOptions it (Some s')) = s') as Es'.
  { unfold seedOf, orElse. simpl. by destruct (Z.eqb_spec s' 0). }
  split; intros Hmod; unfold generateTimetable, optInit, iterationsOf; simpl;
    rewrite ?Es, ?Es'.
  - unfold Rng.createRng, Js.toUint32. by rewrite Hmod.
  - unfold Rng.createRng, Js.toUint32, seedOf. simpl. by rewrite Hmod.
Qed.

Lemma the_seed_is_read_modulo_2_32_witness :
  ((4294967303 mod 4294967296 = 7 mod 4294967296)%Z ->
   generateTimetable demoSchool (mkOptions None (Some 4294967303%Z)) 0 0 =
   generateTimetable demoSchool (mkOptions None (Some 7%Z)) 0 0) /\
  ((4294967303 mod 4294967296 = 0)%Z ->
   generateTimetable demoSchool (mkOptions None (Some 4294967303%Z)) 0 0 =
   generateTimetable demoSchool (mkOptions None None) 0 0).
Proof.
  apply (the_seed_is_read_modulo_2_32 demoSchool None 4294967303 7 0 0); lia.
Defined.

(** ** The CSV views of [exporter.js] *)

Section ExporterViews.
Import Exporter.

Variables (tt : Timetable) (viewType id : string) (options : ViewOptions).

Let days := orCount (vo_days options) (inferDays tt).
Let periods := orCount (vo_periods options) (inferPeriods tt).
Let rows := generateCSVRowsForView tt viewType id options.

(** The rows after the header, whatever the view. *)
Lemma view_body :
  exists f : nat -> nat -> string,
    rows =
      header periods ::
      map (fun d => dayLabel (default (take days weekDays) (vo_dayNames options)) d
                    :: map (f d) (seq 0 periods))
          (seq 0 days) /\
    (viewType = "class" -> f = fun d p => cellToString (cell tt id d p) false) /\
    (viewType = "teacher" -> f = firstMatch teacherId tt id) /\
    (viewType = "room" -> f = firstMatch resourceId tt id).
Proof.
  unfold rows, generateCSVRowsForView. fold days periods.
  destruct (String.eqb_spec viewType "class") as [->|H1].
  { eexists. split; [reflexivity|]. repeat split; done. }
  destruct (String.eqb_spec viewType "teacher") as [->|H2].
  { eexists. split; [reflexivity|]. repeat split; done. }
  destruct (String.eqb_spec viewType "room") as [->|H3].
  { eexists. split; [reflexivity|]. repeat split; done. }
  eexists. split; [reflexivity|]. repeat split; done.
Qed.

Lemma view_cell (f : nat -> nat -> string) names d p :
  d < days -> p < periods ->
  (header periods ::
   map (fun d => dayLabel names d :: map (f d) (seq 0 periods)) (seq 0 days))
    !! S d ≫= (.!! S p) = Some (f d p).
Proof.
  intros Hd Hp. simpl. rewrite list_lookup_fmap, lookup_seq_lt by done. simpl.
  by rewrite list_lookup_fmap, lookup_seq_lt.
Qed.
End ExporterViews.

(** X19 (the view is a table).  Whatever the view type, the rows of
    [generateCSVRowsForView] are a header, ['Day', 'P1', ..., 'Pn'], and
    one row per day; every row has one label and one cell per period.  The
    counts are the options' [days] and [periods] or, where an option is
    missing or 0, the number of rows of the first grid of the timetable
    (5 if there is none or it is empty) and the length of its first row
    (6 likewise). *)
Theorem the_view_is_a_table (timetable : Timetable) (viewType id : string)
    (options : Exporter.ViewOptions) :
  let days := Exporter.orCount (Exporter.vo_days options)
                               (Exporter.inferDays timetable) in
  let periods := Exporter.orCount (Exporter.vo_periods options)
                                  (Exporter.inferPeriods timetable) in
  let rows := Exporter.generateCSVRowsForView timetable viewType id options in
  length rows = 1 + days /\
  Forall (fun row => length row = 1 + periods) rows /\
  head rows = Some ("Day" :: map (fun i => "P" ++ pretty (i + 1)) (seq 0 periods)).
Proof.
  intros days periods rows.
  destruct (view_body timetable viewType id options) as (f & Hrows & _).
  fold rows days periods in Hrows. rewrite Hrows. simpl.
  rewrite length_map, length_seq. split; [done|]. split; [|done].
  constructor.
  - unfold Exporter.header. simpl. by rewrite length_map, length_seq.
  - apply Forall_forall. intros row (d & -> & _)%list_elem_of_fmap. simpl.
    by rewrite length_map, length_seq.
Qed.

(** X20 (the class view).  In the ['class'] view the cell for day [d] and
    period [p], both inside the table, is the subject id of the entry the
    class has there, and the empty string where the class has nothing, an
    unassigned marker, or no grid at all. *)
Theorem the_class_view_shows_the_subjects (timetable : Timetable) (id : string)
    (options : Exporter.ViewOptions) (d p : nat) :
  d < Exporter.orCount (Exporter.vo_days options) (Exporter.inferDays timetable) ->
  p < Exporter.orCount (Exporter.vo_periods options)
                       (Exporter.inferPeriods timetable) ->
  Exporter.generateCSVRowsForView timetable "class" id options
    !! S d ≫= (.!! S p) =
  Some match cell timetable id d p with
       | Some e => if unassigned e then "" else subjectId e
       | None => ""
       end.
Proof.
  intros Hd Hp.
  destruct (view_body timetable "class" id options) as (f & -> & Hf & _).
  rewrite view_cell by done. rewrite (Hf eq_refl).
  unfold Exporter.cellToString. destruct (cell timetable id d p) as [e|]; [|done].
  by destruct (unassigned e).
Qed.

Lemma the_class_view_shows_the_subjects_witness :
  Exporter.generateCSVRowsForView (greedy labSchool) "class" "c1"
    (Exporter.mkViewOptions None None None) !! 2 ≫= (.!! 1) =
  Some match cell (greedy labSchool) "c1" 1 0 with
       | Some e => if unassigned e then "" else subjectId e
       | None => ""
       end.
Proof.
  apply (the_class_view_shows_the_subjects (greedy labSchool) "c1"
           (Exporter.mkViewOptions None None None) 1 0); vm_compute; lia.
Defined.

Lemma findMap_unique {A B} (f : A -> option B) l x y :
  x ∈ l -> f x = Some y ->
  (forall x' y', x' ∈ l -> f x' = Some y' -> y' = y) ->
  Js.findMap f l = Some y.
Proof.
  induction l as [|x0 l IH]; simpl; [set_solver|]. intros Hin Hx Huniq.
  destruct (f x0) as [y0|] eqn:E.
  - f_equal. apply (Huniq x0); [left | done].
  - apply elem_of_cons in Hin as [->|Hin]; [congruence|].
    apply IH; [done..|]. intros x' y' Hx'. apply Huniq. by right.
Qed.

(** On a timetable without double bookings, the loop of the teacher and
    room views finds the one class that has the id in the cell. *)
Lemma firstMatch_found (key : Entry -> option string) tt id c d p e :
  NoDup tt.*1 ->
  (forall c1 c2 e1 e2,
      c1 <> c2 -> cell tt c1 d p = Some e1 -> cell tt c2 d p = Some e2 ->
      key e1 = Some id -> key e2 <> Some id) ->
  cell tt c d p = Some e -> unassigned e = false -> key e = Some id ->
  Exporter.firstMatch key tt id d p = c ++ ":" ++ subjectId e.
Proof.
  intros Hnd Hone Hc Hu Hk. unfold Exporter.firstMatch.
  unfold cell in Hc. destruct (Js.alGet tt c) as [g|] eqn:Hg; [|done].
  rewrite (findMap_unique _ _ (c, g) (c ++ ":" ++ subjectId e)); [done|..].
  - by apply alGet_Some_elem.
  - simpl. rewrite Hc, Hu. simpl. by rewrite bool_decide_eq_true_2.
  - intros [c' g'] y' Hin. simpl.
    destruct (cellAt g' d p) as [e'|] eqn:Hc'; [|done].
    destruct (unassigned e'); [done|]. simpl.
    destruct (bool_decide_reflect (key e' = Some id)) as [Hk'|]; [|done].
    intros [= <-]. destruct (decide (c' = c)) as [->|Hne].
    + apply elem_alGet in Hin; [|done]. rewrite Hg in Hin.
      injection Hin as <-. rewrite Hc in Hc'. by injection Hc' as <-.
    + exfalso. apply (Hone c' c e' e); try done.
      unfold cell. by rewrite (elem_alGet _ _ _ Hnd Hin).
      unfold cell. by rewrite Hg.
Qed.

Lemma result_first_grid data options t0 t1 c d p e :
  cell (timetable (generateTimetable data options t0 t1)) c d p = Some e ->
  d < Exporter.inferDays (timetable (generateTimetable data options t0 t1)) /\
  p < Exporter.inferPeriods (timetable (generateTimetable data options t0 t1)).
Proof.
  intros He.
  destruct (result_cells data options t0 t1 _ _ _ _ He) as (Hd & Hp & _).
  set (tt := timetable (generateTimetable data options t0 t1)) in *.
  destruct (reachable_inv data options (iterationsOf options)) as ([_ Hlen] & _).
  assert (rowsAtLeast (periodsPerDay data) tt) as Hrows.
  { apply rowsAtLeast_optLoop; [apply (optInit_inv data options)|].
    apply rowsAtLeast_greedy. }
  change (opt_timetable _) with tt in Hlen.
  unfold Exporter.inferDays, Exporter.inferPeriods, Exporter.firstGrid.
  destruct tt as [|[k g] tt']; [done|]. simpl.
  assert (Js.alGet ((k, g) :: tt') k = Some g) as Hg by (simpl; by rewrite decide_True).
  pose proof (Hlen _ _ Hg) as Hlg. pose proof (Hrows _ _ Hg) as Hrg.
  rewrite Hlg. destruct (workingDays data) as [|n] eqn:En; [lia|]. split; [done|].
  destruct g as [|row g]; [done|]. simpl.
  apply Forall_cons in Hrg as [Hrow _].
  destruct (length row); simpl; lia.
Qed.

(** X21 (the teacher and room views of a generated timetable).  Exported
    with the counts left to be inferred, the ['teacher'] view of a timetable
    that [generateTimetable] returned shows every lesson of the teacher: the
    cell for the lesson's day and period reads [classId:subjectId].  The
    ['room'] view does the same for every lesson held in the resource. *)
Theorem the_views_show_every_lesson (data : SchoolConfig) (options : Options)
    (t0 t1 : Z) (names : option (list string)) (c : string) (d p : nat)
    (e : Entry) (id : string) :
  let tt := timetable (generateTimetable data options t0 t1) in
  let auto := Exporter.mkViewOptions None None names in
  cell tt c d p = Some e -> unassigned e = false ->
  (teacherId e = Some id ->
   Exporter.generateCSVRowsForView tt "teacher" id auto !! S d ≫= (.!! S p) =
   Some (c ++ ":" ++ subjectId e)) /\
  (resourceId e = Some id ->
   Exporter.generateCSVRowsForView tt "room" id auto !! S d ≫= (.!! S p) =
   Some (c ++ ":" ++ subjectId e)).
Proof.
  intros tt auto He Hu.
  destruct (result_first_grid data options t0 t1 _ _ _ _ He) as [Hd Hp].
  fold tt in Hd, Hp.
  assert (noDoubleBooking tt) as Hndb.
  { destruct (reachable_inv data options (iterationsOf options)) as (_ & _ & Hdom & _).
    eapply dominated_noDoubleBooking; [done|]. apply greedy_inv. }
  assert (NoDup tt.*1) as Hnd
    by apply (reachable_inv data options (iterationsOf options)).
  split; intros Hk.
  - destruct (view_body tt "teacher" id auto) as (f & -> & _ & Hf & _).
    rewrite view_cell by done. rewrite (Hf eq_refl). f_equal.
    apply firstMatch_found; try done.
    intros c1 c2 e1 e2 Hne H1 H2 Hk1. by apply (Hndb c1 c2 d p e1 e2).
  - destruct (view_body tt "room" id auto) as (f & -> & _ & _ & Hf).
    rewrite view_cell by done. rewrite (Hf eq_refl). f_equal.
    apply firstMatch_found; try done.
    intros c1 c2 e1 e2 Hne H1 H2 Hk1. by apply (Hndb c1 c2 d p e1 e2).
Qed.

Lemma the_views_show_every_lesson_witness :
  let tt := timetable (generateTimetable labSchool (mkOptions None None) 0 0) in
  let auto := Exporter.mkViewOptions None None None in
  (Some "ta" = Some "ta" ->
   Exporter.generateCSVRowsForView tt "teacher" "ta" auto !! 2 ≫= (.!! 1) =
   Some ("c1" ++ ":" ++ "cs")) /\
  (Some "r2" = Some "ta" ->
   Exporter.generateCSVRowsForView tt "room" "ta" auto !! 2 ≫= (.!! 1) =
   Some ("c1" ++ ":" ++ "cs")).
Proof.
  apply (the_views_show_every_lesson labSchool (mkOptions None None) 0 0 None
           "c1" 1 0 (mkEntry "cs" (Some "ta") (Some "r2") false None false) "ta");
    reflexivity.
Defined.

(** ** The CSV text *)

Section Csv.
Import Exporter.

Lemma unquoted_app sep q a b :
  unquoted sep q (a ++ b) = unquoted sep q a + unquoted sep (closes q a) b.
Proof.
  revert q. induction a as [|c a IH]; intros q; simpl; [done|].
  destruct (Ascii.eqb c quote); rewrite IH; lia.
Qed.

Lemma closes_app q a b : closes q (a ++ b) = closes (closes q a) b.
Proof.
  revert q. induction a as [|c a IH]; intros q; simpl; [done|].
  by destruct (Ascii.eqb c quote).
Qed.

(** Inside a quoted field, the doubled text neither ends the field nor
    shows a separator. *)
Lemma doubleQuotes_inside sep s :
  unquoted sep true (doubleQuotes s) = 0 /\ closes true (doubleQuotes s) = true.
Proof.
  induction s as [|c s [IH1 IH2]]; simpl; [done|].
  destruct (Ascii.eqb c quote) eqn:E; simpl.
  - done.
  - rewrite E. rewrite andb_false_r. done.
Qed.

Lemma plain_outside sep s :
  needsQuotes s = false -> sep = comma \/ sep = newline ->
  unquoted sep false s = 0 /\ closes false s = false.
Proof.
  intros Hs Hsep. induction s as [|c s IH]; simpl in *; [done|].
  apply orb_false_iff in Hs as [Hc Hs].
  apply orb_false_iff in Hc as [Hc Hn]. apply orb_false_iff in Hc as [Hq Hcm].
  rewrite Hq. destruct (IH Hs) as [-> ->].
  destruct Hsep as [-> | ->]; by rewrite ?Hcm, ?Hn.
Qed.

Lemma escapeCSV_field sep s :
  sep = comma \/ sep = newline ->
  unquoted sep false (escapeCSV s) = 0 /\ closes false (escapeCSV s) = false.
Proof.
  intros Hsep. unfold escapeCSV. destruct (needsQuotes s) eqn:E.
  - change (String quote (doubleQuotes s ++ String quote ""))
      with (String quote "" ++ (doubleQuotes s ++ String quote "")).
    rewrite !unquoted_app, !closes_app.
    destruct (doubleQuotes_inside sep s) as [H1 H2].
    simpl. rewrite H1, H2. simpl. done.
  - by apply plain_outside.
Qed.

(** Fields that close their quotes, joined by a one-character separator
    that is not the quote. *)
Lemma join_fields sep c parts :
  Ascii.eqb c quote = false ->
  Forall (fun x => closes false x = false) parts ->
  unquoted sep false (join (String c "") parts) =
    sum_list_with (unquoted sep false) parts +
    (if Ascii.eqb c sep then length parts - 1 else 0) /\
  closes false (join (String c "") parts) = false.
Proof.
  intros Hc. induction parts as [|x parts IH]; intros Hall;
    [simpl; by destruct (Ascii.eqb c sep)|].
  apply Forall_cons in Hall as [Hx Hall]. destruct (IH Hall) as [IH1 IH2].
  destruct parts as [|y parts].
  - simpl. rewrite Hx. split; [|done]. destruct (Ascii.eqb c sep); lia.
  - change (join (String c "") (x :: y :: parts))
      with (x ++ String c "" ++ join (String c "") (y :: parts)).
    rewrite !unquoted_app, !closes_app, Hx. simpl. rewrite Hc.
    split; [|done]. simpl in IH1. rewrite IH1. simpl.
    destruct (Ascii.eqb c sep); simpl; lia.
Qed.

Lemma csv_line sep r :
  sep = comma \/ sep = newline ->
  unquoted sep false (join (String comma "") (map escapeCSV r)) =
    (if Ascii.eqb comma sep then length r - 1 else 0) /\
  closes false (join (String comma "") (map escapeCSV r)) = false.
Proof.
  intros Hsep.
  destruct (join_fields sep comma (map escapeCSV r)) as [H1 H2]; [done| |].
  - apply Forall_forall. intros x (s & -> & _)%list_elem_of_fmap.
    by apply (escapeCSV_field sep).
  - rewrite H1, H2, length_map. split; [|done].
    rewrite sum_list_with_zero; [done|].
    intros x (s & -> & _)%list_elem_of_fmap. by apply (escapeCSV_field sep).
Qed.

Lemma csv_text rows :
  unquoted newline false (csvText rows) = length rows - 1 /\
  unquoted comma false (csvText rows) =
    sum_list_with (fun r : list string => length r - 1) rows /\
  closes false (csvText rows) = false.
Proof.
  unfold csvText.
  set (lines := map (fun r => join (String comma "") (map escapeCSV r)) rows).
  assert (Forall (fun x => closes false x = false) lines) as Hcl.
  { apply Forall_forall. intros x (r & -> & _)%list_elem_of_fmap.
    apply (csv_line comma). by left. }
  destruct (join_fields newline newline lines) as [Hn Hc]; [done..|].
  destruct (join_fields comma newline lines) as [Hm _]; [done..|].
  split; [|split; [|done]].
  - rewrite Hn. unfold lines at 2. rewrite length_map, Ascii.eqb_refl.
    rewrite sum_list_with_zero; [done|].
    intros x (r & -> & _)%list_elem_of_fmap.
    apply (csv_line newline). by right.
  - rewrite Hm. simpl. rewrite Nat.add_0_r. unfold lines. clear.
    induction rows as [|r rows IH]; simpl; [done|].
    rewrite IH. f_equal. apply (csv_line comma). by left.
Qed.
End Csv.

(** X22 (the CSV text).  Read as CSV, where a quote opens or closes a
    quoted field, the text that [downloadCSV] builds from any rows,
    whatever characters their cells hold, has its quotes closed at the end,
    exactly one newline outside quotes between two consecutive rows and, in
    all, one comma outside quotes between two consecutive cells of a row:
    a cell never breaks a line or a field. *)
Theorem the_csv_text_keeps_rows_and_cells_apart (rows : list (list string)) :
  Exporter.unquoted Exporter.newline false (Exporter.csvText rows) =
    length rows - 1 /\
  Exporter.unquoted Exporter.comma false (Exporter.csvText rows) =
    sum_list_with (fun r : list string => length r - 1) rows /\
  Exporter.closes false (Exporter.csvText rows) = false.
Proof. apply csv_text. Qed.

(** ** The learned penalties of [learn.js] *)

Section LearnFacts.
Import Learn.

Lemma alGet_ensure_obj {V} (m : list (string * V)) k v0 k' :
  Js.alGet (match Js.alGet m k with Some _ => m | None => Js.objSet m k v0 end) k' =
  if decide (k = k') then Some (default v0 (Js.alGet m k)) else Js.alGet m k'.
Proof.
  destruct (Js.alGet m k) as [w|] eqn:E; simpl.
  - case_decide; [by subst|done].
  - by rewrite alGet_objSet.
Qed.

Lemma ensure_obj_NoDup {V} (m : list (string * V)) k v0 :
  NoDup m.*1 ->
  NoDup (match Js.alGet m k with Some _ => m | None => Js.objSet m k v0 end).*1.
Proof. intros H. destruct (Js.alGet m k); [done|]. by apply objSet_keys_NoDup. Qed.

(** Replacing the inner object of [a] by one that has [b] set to [v]. *)
Lemma lookup2_set (m : Nested) a b (f : option Z -> Z) a' b' :
  let m1 := match Js.alGet m a with Some _ => m | None => Js.objSet m a [] end in
  let inner := default [] (Js.alGet m1 a) in
  lookup2 (Js.alReplace m1 a (Js.objSet inner b (f (Js.alGet inner b)))) a' b' =
  if decide (a = a' /\ b = b') then Some (f (lookup2 m a b)) else lookup2 m a' b'.
Proof.
  intros m1 inner. unfold lookup2.
  assert (forall x, Js.alGet m1 x =
                    if decide (a = x) then Some (default [] (Js.alGet m a))
                    else Js.alGet m x) as Hm1 by (intros; apply alGet_ensure_obj).
  assert (inner = default [] (Js.alGet m a)) as Hinner.
  { unfold inner. rewrite Hm1. by rewrite decide_True. }
  rewrite alGet_alReplace, (Hm1 a). rewrite (decide_True (P := a = a)) by done.
  cbn [fmap option_fmap option_map].
  assert (Js.alGet inner b = match Js.alGet m a with
                             | Some i => Js.alGet i b
                             | None => None
                             end) as Hb.
  { rewrite Hinner. by destruct (Js.alGet m a). }
  destruct (decide (a = a')) as [<-|Ha].
  - rewrite alGet_objSet. destruct (decide (b = b')) as [<-|Hb'].
    + rewrite decide_True by done. by rewrite Hb.
    + rewrite decide_False by tauto. rewrite Hinner. by destruct (Js.alGet m a).
  - rewrite decide_False by tauto. by rewrite Hm1, decide_False.
Qed.

Lemma lookup2_incNested m a b a' b' :
  lookup2 (incNested m a b) a' b' =
  if decide (a = a' /\ b = b') then Some (default 0%Z (lookup2 m a b) + 1)%Z
  else lookup2 m a' b'.
Proof. apply (lookup2_set m a b (fun o => (default 0%Z o + 1)%Z)). Qed.

Lemma lookup2_setNested out a b v a' b' :
  lookup2 (setNested out a b v) a' b' =
  if decide (a = a' /\ b = b') then Some v else lookup2 out a' b'.
Proof. apply (lookup2_set out a b (fun _ => v)). Qed.

Lemma wfNested_set (m : Nested) a b v :
  wfNested m ->
  let m1 := match Js.alGet m a with Some _ => m | None => Js.objSet m a [] end in
  wfNested (Js.alReplace m1 a (Js.objSet (default [] (Js.alGet m1 a)) b v)).
Proof.
  intros [Hnd Hin] m1.
  assert (forall x, Js.alGet m1 x =
                    if decide (a = x) then Some (default [] (Js.alGet m a))
                    else Js.alGet m x) as Hm1 by (intros; apply alGet_ensure_obj).
  assert (forall x i, Js.alGet m1 x = Some i -> NoDup i.*1) as Hin1.
  { intros x i. rewrite Hm1. case_decide; [|apply Hin].
    intros [= <-]. destruct (Js.alGet m a) eqn:E; simpl; [by eapply Hin|constructor]. }
  split.
  - rewrite alReplace_keys. by apply ensure_obj_NoDup.
  - intros x i. rewrite alGet_alReplace. case_decide; [|apply Hin1].
    destruct (Js.alGet m1 a) as [i0|] eqn:E; [|done]. simpl. intros [= <-].
    apply objSet_keys_NoDup. by eapply Hin1.
Qed.

Lemma wfNested_incNested m a b : wfNested m -> wfNested (incNested m a b).
Proof. intros H. by apply wfNested_set. Qed.
End LearnFacts.

Section LearnCounts.
Import Learn.

(** One aggregate of [getAggregates], followed on its own: [field] picks
    the id, [pick] the aggregate. *)
Lemma aggregate_lookup (field : Lesson -> Field) (pick : Aggregates -> Nested)
    logs acc id n :
  id <> "" ->
  (forall acc entry,
      pick (aggregateStep acc entry) =
      match entry with
      | Some e =>
          match location e, movedAway e with
          | Some loc, Some b =>
              match loc_period loc with
              | Some period =>
                  if truthyField (field b)
                  then incNested (pick acc) (fieldString (field b)) (pretty period)
                  else pick acc
              | None => pick acc
              end
          | _, _ => pick acc
          end
      | None => pick acc
      end) ->
  wfNested (pick acc) ->
  let k := movesFrom field id n logs in
  wfNested (pick (fold_left aggregateStep logs acc)) /\
  lookup2 (pick (fold_left aggregateStep logs acc)) id (pretty n) =
    if k =? 0 then lookup2 (pick acc) id (pretty n)
    else Some (default 0%Z (lookup2 (pick acc) id (pretty n)) + Z.of_nat k)%Z.
Proof.
  intros Hid Hpick. revert acc.
  induction logs as [|entry logs IH]; intros acc Hwf; simpl; [done|].
  assert (wfNested (pick (aggregateStep acc entry))) as Hwf'.
  { rewrite Hpick. destruct entry as [e|]; [|done].
    destruct (location e) as [loc|]; [|done].
    destruct (movedAway e) as [b|]; [|done].
    destruct (loc_period loc); [|done].
    destruct (truthyField (field b)); [|done]. by apply wfNested_incNested. }
  destruct (IH _ Hwf') as [IHwf IHl]. split; [done|]. rewrite IHl. clear IH IHl.
  rewrite (Hpick acc entry).
  destruct entry as [e|]; [|by simpl].
  destruct (location e) as [loc|]; [|by simpl].
  destruct (movedAway e) as [b|]; [|by simpl].
  destruct (loc_period loc) as [period|] eqn:Ep.
  2: { rewrite bool_decide_eq_false_2 by done. by simpl. }
  destruct (truthyField (field b)) eqn:Et.
  - rewrite lookup2_incNested.
    destruct (field b) as [| |s] eqn:Ef; try done. simpl.
    destruct (decide (s = id /\ pretty period = pretty n)) as [[-> Hp]|Hne].
    + apply pretty_nat_inj in Hp as ->.
      rewrite !bool_decide_eq_true_2 by done. simpl.
      destruct (movesFrom field id n logs) as [|k]; simpl; f_equal; lia.
    + assert (bool_decide (Some period = Some n) && bool_decide (Str s = Str id)
              = false) as ->; [|done].
      apply andb_false_iff.
      destruct (decide (period = n)) as [->|Hpn].
      * right. apply bool_decide_eq_false. intros [= ->]. by apply Hne.
      * left. apply bool_decide_eq_false. by intros [= ->].
  - assert (bool_decide (field b = Str id) = false) as ->.
    { apply bool_decide_eq_false. intros Hf. rewrite Hf in Et. simpl in Et.
      unfold Js.truthyStr in Et. apply negb_false_iff, String.eqb_eq in Et. done. }
    by rewrite andb_false_r.
Qed.

Lemma penaltiesOf_lookup weight moves a b :
  wfNested moves ->
  lookup2 (penaltiesOf weight moves) a b =
  match lookup2 moves a b with
  | Some c => if (2 <=? c)%Z then Some (c * weight)%Z else None
  | None => None
  end.
Proof.
  intros [Hnd Hin]. unfold penaltiesOf.
  set (inner := fun (k : string) (out : Nested) (perMap : list (string * Z)) =>
                  fold_left
                    (fun out (pc : string * Z) =>
                       if (2 <=? snd pc)%Z
                       then setNested out k (fst pc) (snd pc * weight)%Z
                       else out) perMap out).
  assert (forall k perMap out,
             NoDup perMap.*1 ->
             lookup2 (inner k out perMap) a b =
             match (if decide (k = a) then Js.alGet perMap b else None) with
             | Some c => if (2 <=? c)%Z then Some (c * weight)%Z
                         else lookup2 out a b
             | None => lookup2 out a b
             end) as Hinner.
  { intros k perMap. induction perMap as [|[per c] perMap IH]; intros out Hnd';
      simpl.
    - by destruct (decide (k = a)).
    - apply NoDup_cons in Hnd' as [Hper Hnd'].
      change (inner k out ((per, c) :: perMap))
        with (inner k (if (2 <=? c)%Z then setNested out k per (c * weight)%Z
                       else out) perMap).
      rewrite IH by done.
      destruct (decide (k = a)) as [->|Hk].
      + destruct (decide (b = per)) as [->|Hb].
        * rewrite (proj2 (alGet_None perMap per) Hper).
          destruct (2 <=? c)%Z; [|done].
          rewrite lookup2_setNested. by rewrite decide_True.
        * destruct (Js.alGet perMap b) as [c'|]; [destruct (2 <=? c')%Z; [done|]|];
            (destruct (2 <=? c)%Z; [|done]);
            rewrite lookup2_setNested; by rewrite decide_False by (intros [? ?]; congruence).
      + destruct (2 <=? c)%Z; [|done].
        rewrite lookup2_setNested. by rewrite decide_False by tauto. }
  assert (forall (l : Nested) out,
             NoDup l.*1 -> (forall k i, Js.alGet l k = Some i -> NoDup i.*1) ->
             lookup2 (fold_left (fun out kv => inner (fst kv) out (snd kv)) l out) a b =
             match lookup2 l a b with
             | Some c => if (2 <=? c)%Z then Some (c * weight)%Z
                         else lookup2 out a b
             | None => lookup2 out a b
             end) as Houter.
  { induction l as [|[k i] l IH]; intros out Hnd' Hin'; [done|].
    rewrite fmap_cons in Hnd'. apply NoDup_cons in Hnd' as [Hk Hnd'].
    cbn [fold_left fst snd]. rewrite IH; [|done|].
    - assert (lookup2 ((k, i) :: l) a b =
              if decide (a = k) then Js.alGet i b else lookup2 l a b) as ->.
      { unfold lookup2. simpl. by case_decide. }
      rewrite Hinner by (apply (Hin' k); simpl; by rewrite decide_True).
      destruct (decide (a = k)) as [->|Ha].
      + rewrite decide_True by done.
        assert (lookup2 l k b = None) as ->.
        { unfold lookup2. by rewrite (proj2 (alGet_None l k) Hk). }
        done.
      + rewrite (decide_False (P := k = a)) by done. done.
    - intros k' i' Hk'. apply (Hin' k'). simpl.
      rewrite decide_False; [done|]. intros ->.
      apply alGet_Some_elem in Hk'. apply Hk, list_elem_of_fmap. by exists (k, i'). }
  change (lookup2 (fold_left (fun out kv => inner (fst kv) out (snd kv)) moves [])
                  a b =
          match lookup2 moves a b with
          | Some c => if (2 <=? c)%Z then Some (c * weight)%Z else None
          | None => None
          end).
  rewrite (Houter moves [] Hnd Hin).
  destruct (lookup2 moves a b) as [c|]; [|done]. by destruct (2 <=? c)%Z.
Qed.
End LearnCounts.

(** X23 (learned penalties).  For an edit log none of whose ids is a name
    inherited from [Object.prototype], and a non-empty id:
    [getPreferencePenalties] gives teacher [id] at period [n] the penalty
    5 times the number of log entries that moved a lesson of that teacher
    away from a cell of period [n], if that number is at least 2, and no
    penalty otherwise; for a subject it is 3 times the number, likewise. *)
Theorem penalties_count_the_moves_away (logs : list (option Learn.LogEntry))
    (id : string) (n : nat) :
  Learn.plainIds logs -> id <> "" ->
  let pen := Learn.getPreferencePenalties logs in
  let moved field := Z.of_nat (Learn.movesFrom field id n logs) in
  Learn.lookup2 (Learn.teacherPeriods pen) id (pretty n) =
    (if (2 <=? moved Learn.l_teacherId)%Z
     then Some (moved Learn.l_teacherId * 5)%Z else None) /\
  Learn.lookup2 (Learn.subjectPeriods pen) id (pretty n) =
    (if (2 <=? moved Learn.l_subjectId)%Z
     then Some (moved Learn.l_subjectId * 3)%Z else None).
Proof.
  intros _ Hid pen moved. unfold pen, Learn.getPreferencePenalties. simpl.
  assert (Learn.wfNested []) as Hwf0 by (split; [constructor | done]).
  destruct (aggregate_lookup Learn.l_teacherId Learn.teacherPeriodMoves
              logs (Learn.mkAggregates [] []) id n Hid) as [Hwt Ht]; [|done|].
  { intros acc [e|]; [|done]. simpl. destruct (Learn.location e) as [loc|]; [|done].
    destruct (Learn.loc_period loc); by destruct (Learn.movedAway e). }
  destruct (aggregate_lookup Learn.l_subjectId Learn.subjectPeriodMoves
              logs (Learn.mkAggregates [] []) id n Hid) as [Hws Hs]; [|done|].
  { intros acc [e|]; [|done]. simpl. destruct (Learn.location e) as [loc|]; [|done].
    destruct (Learn.loc_period loc); by destruct (Learn.movedAway e). }
  fold (Learn.getAggregates logs) in Hwt, Ht, Hws, Hs.
  rewrite !penaltiesOf_lookup by done. rewrite Ht, Hs. unfold moved. simpl.
  assert (forall (k : nat) (w : Z),
             match (if k =? 0 then None
                    else Some (default 0%Z None + Z.of_nat k)%Z) with
             | Some c => if (2 <=? c)%Z then Some (c * w)%Z else None
             | None => None
             end =
             if (2 <=? Z.of_nat k)%Z then Some (Z.of_nat k * w)%Z else None) as H.
  { intros k w. destruct k as [|k]; [done|]. simpl. done. }
  split; apply H.
Qed.

Lemma penalties_count_the_moves_away_witness :
  let pen := Learn.getPreferencePenalties Learn.demoLogs in
  let moved field := Z.of_nat (Learn.movesFrom field "t1" 2 Learn.demoLogs) in
  Learn.lookup2 (Learn.teacherPeriods pen) "t1" (pretty 2) =
    (if (2 <=? moved Learn.l_teacherId)%Z
     then Some (moved Learn.l_teacherId * 5)%Z else None) /\
  Learn.lookup2 (Learn.subjectPeriods pen) "t1" (pretty 2) =
    (if (2 <=? moved Learn.l_subjectId)%Z
     then Some (moved Learn.l_subjectId * 3)%Z else None).
Proof.
  apply (penalties_count_the_moves_away Learn.demoLogs "t1" 2); [|discriminate].
  intros e b s He Hb Hs Hin.
  assert (s = "s1" \/ s = "t1") as Hcases.
  { unfold Learn.demoLogs in He.
    repeat (apply elem_of_cons in He as [He|He];
            [try discriminate He; injection He as ->; simpl in Hb;
             injection Hb as <-; simpl in Hs;
             destruct Hs as [Hs|Hs]; injection Hs as <-; tauto|]).
    by apply elem_of_nil in He. }
  unfold Learn.inherited in Hin.
  destruct Hcases as [-> | ->];
    repeat (apply elem_of_cons in Hin as [Hin|Hin]; [discriminate Hin|]);
    by apply elem_of_nil in Hin.
Defined.

(** ** The validator *)

Section ValidatorFacts.
Import Validator.
Variable toStr : Value -> string.

Lemma unless_nil ok message : unless ok message = [] <-> ok = true.
Proof. unfold unless. by destruct ok. Qed.

Lemma mjoin_nil {A} (ls : list (list A)) :
  mjoin ls = [] <-> Forall (fun l => l = []) ls.
Proof.
  induction ls as [|l ls IH]; simpl; [done|].
  rewrite Forall_cons, <- IH. split.
  - by intros [-> ->]%app_eq_nil.
  - by intros [-> ->].
Qed.

Lemma mjoin_imap_nil {A B} (f : nat -> A -> list B) (l : list A) :
  mjoin (imap f l) = [] <-> forall i x, l !! i = Some x -> f i x = [].
Proof.
  rewrite mjoin_nil, Forall_lookup. split.
  - intros H i x Hx. apply (H i). by rewrite list_lookup_imap, Hx.
  - intros H i y. rewrite list_lookup_imap.
    destruct (l !! i) as [x|] eqn:E; [|done]. intros [= <-]. by eapply H.
Qed.

Lemma record_test v :
  negb (truthy v) || negb (isObject v) = false <-> record v.
Proof.
  unfold record. destruct (truthy v), (isObject v); simpl; split; try done;
    intros [? ?]; done.
Qed.

Lemma eachOf_nil name check v :
  eachOf name check v = [] <->
  exists l, v = Arr l /\ l <> [] /\ forall i x, l !! i = Some x -> check i x = [].
Proof.
  unfold eachOf. destruct v as [| | | | |[|x r]|]; try (split; [done|]).
  all: try by intros (l & [=] & _).
  - intros (l & [= <-] & Hne & _). done.
  - rewrite mjoin_imap_nil. split.
    + intros H. by exists (x :: r).
    + by intros (l & [= <-] & _ & H).
Qed.

Lemma checkSubject_nil i s : checkSubject i s = [] <-> subjectOk s.
Proof.
  unfold checkSubject, subjectOk. rewrite <- record_test.
  destruct (negb (truthy s) || negb (isObject s)); [split; [done|by intros [? _]]|].
  rewrite !app_nil, !unless_nil. tauto.
Qed.

Lemma firstNonBoolean_None p cells :
  firstNonBoolean p cells = None <-> Forall (fun c => isBoolean c = true) cells.
Proof.
  revert p. induction cells as [|c cells IH]; intros p; simpl; [done|].
  rewrite Forall_cons. destruct (isBoolean c); [rewrite IH; tauto|].
  split; [done|by intros [? _]].
Qed.

Lemma isLength_true len v :
  isLength len v = true <-> v = Number (Whole (Z.of_nat len)).
Proof.
  unfold isLength. destruct v as [| | |[z| |]| | |]; try (split; done).
  rewrite Z.eqb_eq. split; [by intros -> | by intros [= ->]].
Qed.

Lemma checkDay_nil i periodsPerDay d dayArr :
  checkDay toStr i periodsPerDay d dayArr = [] <->
  exists cells,
    dayArr = Arr cells /\ periodsPerDay = Number (Whole (Z.of_nat (length cells))) /\
    Forall (fun c => isBoolean c = true) cells.
Proof.
  unfold checkDay. destruct dayArr as [| | | | |cells|];
    try (split; [done|by intros (? & [=] & _)]).
  destruct (isLength (length cells) periodsPerDay) eqn:El.
  - apply isLength_true in El.
    destruct (firstNonBoolean 0 cells) eqn:Ef; split; try done.
    + intros (? & [= <-] & _ & H). apply (firstNonBoolean_None 0) in H. congruence.
    + intros _. exists cells. split; [done|]. split; [done|].
      by apply (firstNonBoolean_None 0).
  - split; [done|]. intros (? & [= <-] & H & _).
    apply isLength_true in H. congruence.
Qed.

Lemma checkAvailability_nil i workingDays periodsPerDay availability :
  checkAvailability toStr i workingDays periodsPerDay availability = [] <->
  exists rows,
    availability = Arr rows /\
    workingDays = Number (Whole (Z.of_nat (length rows))) /\
    Forall (fun r => exists cells,
                r = Arr cells /\
                periodsPerDay = Number (Whole (Z.of_nat (length cells))) /\
                Forall (fun c => isBoolean c = true) cells) rows.
Proof.
  unfold checkAvailability. destruct availability as [| | | | |rows|];
    try (split; [done|by intros (? & [=] & _)]).
  destruct (isLength (length rows) workingDays) eqn:El.
  - apply isLength_true in El. rewrite mjoin_imap_nil. split.
    + intros H. exists rows. split; [done|]. split; [done|].
      apply Forall_lookup. intros d r Hr. by apply (checkDay_nil i _ d), (H d).
    + intros (? & [= <-] & _ & H) d r Hr. apply checkDay_nil.
      by eapply Forall_lookup_1 in H.
  - split; [done|]. intros (? & [= <-] & H & _).
    apply isLength_true in H. congruence.
Qed.
Lemma checkTeacher_nil workingDays periodsPerDay i t :
  checkTeacher toStr workingDays periodsPerDay i t = [] <->
  record t /\ nonEmptyString (field t "id") = true /\
  nonEmptyString (field t "name") = true /\
  nonEmptyArray (field t "subjects") = true /\
  positiveNumber (field t "maxLoad") = true /\
  checkAvailability toStr i workingDays periodsPerDay (field t "availability") = [].
Proof.
  unfold checkTeacher. rewrite <- record_test.
  destruct (negb (truthy t) || negb (isObject t)); [split; [done|by intros [? _]]|].
  rewrite !app_nil, !unless_nil. tauto.
Qed.

Lemma checkClass_nil i c : checkClass i c = [] <-> classOk c.
Proof.
  unfold checkClass, classOk, checkMapping. rewrite <- !record_test.
  destruct (negb (truthy c) || negb (isObject c)); [split; [done|by intros [? _]]|].
  rewrite !app_nil, !unless_nil.
  destruct (negb (truthy (field c "subjects")) || negb (isObject (field c "subjects")));
    [split; [by intros (_ & _ & ?)|by intros (_ & _ & _ & ? & _)]|].
  rewrite !app_nil, !unless_nil, negb_true_iff, bool_decide_eq_false, mjoin_nil.
  rewrite Forall_fmap.
  match goal with
  | |- context [Forall ?P (entriesOf _)] =>
      assert (Forall P (entriesOf (field c "subjects")) <->
              Forall (fun kv : string * Value => nonNegativeNumber kv.2 = true)
                     (entriesOf (field c "subjects"))) as Hiff
  end.
  { apply Forall_iff. intros kv. simpl. apply unless_nil. }
  rewrite Hiff. tauto.
Qed.

Lemma positive_length v len :
  positiveNumber v = true -> v = Number (Whole (Z.of_nat len)) -> 0 < len.
Proof. intros H ->. simpl in H. destruct len; [done | lia]. Qed.

(** X24 (what the validator accepts).  [validateSchoolData] answers
    [valid: true] exactly for an object whose [workingDays] and
    [periodsPerDay] are whole positive numbers, whose [subjects], [teachers]
    and [classes] are non-empty arrays of well-formed records, and every
    teacher of which has an availability matrix of exactly [workingDays]
    rows of [periodsPerDay] booleans.  The two number tests alone let a
    fraction or [NaN] through; it is the comparison with the lengths of the
    teachers' matrices that rules them out. *)
Theorem valid_means_well_formed obj :
  valid (validateSchoolData toStr obj) = true <-> wellFormed obj.
Proof.
  unfold validateSchoolData, wellFormed. rewrite <- record_test.
  destruct (negb (truthy obj) || negb (isObject obj)); [split; [done|by intros [? _]]|].
  cbn [valid]. rewrite bool_decide_eq_true, !app_nil, !unless_nil, !eachOf_nil.
  set (wd := field obj "workingDays"). set (ppd := field obj "periodsPerDay").
  split.
  - intros (Hwd & Hppd & (ss & Hss & Hssne & Hsub) & (ts & Hts & Htsne & Hteach)
            & (cs & Hcs & Hcsne & Hcls)).
    split; [done|].
    assert (forall i t, ts !! i = Some t ->
              record t /\ nonEmptyString (field t "id") = true /\
              nonEmptyString (field t "name") = true /\
              nonEmptyArray (field t "subjects") = true /\
              positiveNumber (field t "maxLoad") = true /\
              exists rows,
                field t "availability" = Arr rows /\
                wd = Number (Whole (Z.of_nat (length rows))) /\
                Forall (fun r => exists cells,
                            r = Arr cells /\
                            ppd = Number (Whole (Z.of_nat (length cells))) /\
                            Forall (fun c => isBoolean c = true) cells) rows) as Ht.
    { intros i t Hi. specialize (Hteach i t Hi).
      apply checkTeacher_nil in Hteach as (? & ? & ? & ? & ? & Hav).
      apply checkAvailability_nil in Hav. tauto. }
    destruct ts as [|t0 ts']; [done|].
    destruct (Ht 0 t0 eq_refl) as (_ & _ & _ & _ & _ & rows0 & _ & Hwd0 & Hrows0).
    pose proof (positive_length _ _ Hwd Hwd0) as Hd.
    destruct rows0 as [|r0 rows0']; [simpl in Hd; lia|].
    apply Forall_cons in Hrows0 as [(cells0 & _ & Hppd0 & _) _].
    pose proof (positive_length _ _ Hppd Hppd0) as Hp.
    exists (length (r0 :: rows0')), (length cells0), ss, (t0 :: ts'), cs.
    repeat split; try done.
    + apply Forall_lookup. intros i s Hi. by apply (checkSubject_nil i), Hsub.
    + apply Forall_lookup. intros i t Hi.
      destruct (Ht i t Hi) as (? & ? & ? & ? & ? & rows & Hav & Hwd' & Hrows).
      unfold teacherOk, matrix. do 5 (split; [done|]).
      exists rows. split; [done|]. split.
      * assert (Z.of_nat (length rows) = Z.of_nat (length (r0 :: rows0')))
          as Heq by congruence.
        by apply Nat2Z.inj in Heq.
      * eapply Forall_impl; [done|]. intros r (cells & -> & Hc & Hb).
        exists cells. split; [done|]. split; [|done].
        assert (Z.of_nat (length cells) = Z.of_nat (length cells0))
          as Heq by congruence.
        by apply Nat2Z.inj in Heq.
    + apply Forall_lookup. intros i c Hi. by apply (checkClass_nil i), Hcls.
  - intros (_ & days & periods & ss & ts & cs & Hd & Hp & Hwd & Hppd & Hss & Hssne
            & Hsub & Hts & Htsne & Hteach & Hcs & Hcsne & Hcls).
    fold wd in Hwd. fold ppd in Hppd.
    split; [rewrite Hwd; simpl; destruct days; [lia|done]|].
    split; [rewrite Hppd; simpl; destruct periods; [lia|done]|].
    split; [|split].
    + exists ss. repeat split; try done. intros i s Hi. apply checkSubject_nil.
      by eapply Forall_lookup_1 in Hsub.
    + exists ts. repeat split; try done. intros i t Hi.
      eapply Forall_lookup_1 in Hteach; [|done].
      destruct Hteach as (? & ? & ? & ? & ? & rows & Hav & Hlen & Hrows).
      apply checkTeacher_nil. do 5 (split; [done|]).
      apply checkAvailability_nil. exists rows. split; [done|].
      split; [by rewrite Hlen|].
      eapply Forall_impl; [done|]. intros r (cells & -> & Hc & Hb).
      exists cells. split; [done|]. split; [by rewrite Hc | done].
    + exists cs. repeat split; try done. intros i c Hi. apply checkClass_nil.
      by eapply Forall_lookup_1 in Hcls.
Qed.
End ValidatorFacts.

(** ** The grids of the setup page against the validator *)

Section SetupFacts.
Import Validator Setup.

Lemma orTrue_boolean v :
  (forall x, v = Some x -> booleanOrAbsent x = true) ->
  isBoolean (orTrue v) = true.
Proof.
  intros H. destruct v as [x|]; [|done].
  specialize (H x eq_refl). by destruct x.
Qed.

Lemma default_matrix days periods :
  matrix days periods (makeDefaultAvailability days periods).
Proof.
  exists (replicate days (Arr (replicate periods (Bool true)))).
  split; [done|]. split; [by rewrite length_replicate|].
  apply Forall_replicate. exists (replicate periods (Bool true)).
  split; [done|]. split; [by rewrite length_replicate|].
  by apply Forall_replicate.
Qed.

Lemma repaired_matrix days periods grid :
  repairable grid -> matrix days periods (ensureGrid days periods grid).
Proof.
  intros Hrep. unfold ensureGrid.
  destruct grid as [| | | | |rows|]; try apply default_matrix.
  case_bool_decide as Hlen; [|apply default_matrix].
  eexists. split; [done|]. split; [by rewrite length_map, length_seq|].
  apply Forall_map, Forall_forall. intros d _.
  eexists. split; [done|]. split; [by rewrite length_map, length_seq|].
  apply Forall_map, Forall_forall. intros p _.
  apply orTrue_boolean. intros x Hx.
  destruct (rows !! d) as [[| | | | |cells|]|] eqn:Hd; try done.
  specialize (Hrep rows d cells eq_refl Hd).
  by eapply Forall_lookup_1 in Hrep.
Qed.

Lemma matrix_accepted toStr i days periods v :
  matrix days periods v ->
  checkAvailability toStr i (Number (Whole (Z.of_nat days)))
    (Number (Whole (Z.of_nat periods))) v = [].
Proof.
  intros (rows & -> & <- & Hrows). apply checkAvailability_nil.
  exists rows. split; [done|]. split; [done|].
  eapply Forall_impl; [done|]. intros r (cells & -> & <- & Hb). by exists cells.
Qed.
End SetupFacts.

(** X25 (a matrix is left alone).  [ensureGrid] returns an availability
    matrix of [workingDays] rows of [periodsPerDay] booleans as it is: the
    normalisation of a form that is already well formed changes no cell. *)
Theorem ensureGrid_keeps_a_matrix (days periods : nat)
    (grid : Validator.Value) :
  Validator.matrix days periods grid ->
  Setup.ensureGrid days periods grid = grid.
Proof.
  intros (rows & -> & <- & Hrows). unfold Setup.ensureGrid.
  rewrite bool_decide_eq_true_2 by done. f_equal.
  apply list_eq. intros d. rewrite list_lookup_fmap.
  destruct (rows !! d) as [r|] eqn:Hd.
  - rewrite lookup_seq_lt by (by eapply lookup_lt_Some). simpl. rewrite Hd.
    pose proof (Forall_lookup_1 _ _ _ _ Hrows Hd) as (cells & -> & <- & Hb).
    do 2 f_equal. apply list_eq. intros p. rewrite list_lookup_fmap.
    destruct (cells !! p) as [c|] eqn:Hp.
    + rewrite lookup_seq_lt by (by eapply lookup_lt_Some). simpl.
      pose proof (Forall_lookup_1 _ _ _ _ Hb Hp) as Hc. simpl in Hc.
      rewrite Hp. by destruct c.
    + rewrite lookup_seq_ge; [done|]. by apply lookup_ge_None.
  - rewrite lookup_seq_ge; [done|]. by apply lookup_ge_None.
Qed.

Lemma ensureGrid_keeps_a_matrix_witness :
  Setup.ensureGrid 2 3 (Setup.makeDefaultAvailability 2 3) =
  Setup.makeDefaultAvailability 2 3.
Proof.
  apply (ensureGrid_keeps_a_matrix 2 3 (Setup.makeDefaultAvailability 2 3)).
  apply default_matrix.
Defined.

(** X26 (a repaired grid passes the validator).  Whatever was stored as a
    teacher's availability, if every cell of every array row of it is a
    boolean, [null] or [undefined], then what [ensureGrid] makes of it
    for [workingDays] days and [periodsPerDay] periods raises no
    availability error in [validateSchoolData] for these two numbers: rows
    are cut or filled to [periodsPerDay], a grid with another number of rows
    or no grid at all is replaced by the all-true one. *)
Theorem a_repaired_grid_passes_the_validator (toStr : Validator.Value -> string)
    (i days periods : nat) (grid : Validator.Value) :
  Setup.repairable grid ->
  Validator.checkAvailability toStr i
    (Validator.Number (Validator.Whole (Z.of_nat days)))
    (Validator.Number (Validator.Whole (Z.of_nat periods)))
    (Setup.ensureGrid days periods grid) = [].
Proof. intros H. by apply matrix_accepted, repaired_matrix. Qed.

Lemma a_repaired_grid_passes_the_validator_witness :
  Validator.checkAvailability (fun _ => "") 0
    (Validator.Number (Validator.Whole (Z.of_nat 3)))
    (Validator.Number (Validator.Whole (Z.of_nat 2)))
    (Setup.ensureGrid 3 2 Setup.patchyGrid) = [].
Proof.
  apply (a_repaired_grid_passes_the_validator (fun _ => "") 0 3 2
           Setup.patchyGrid).
  intros rows d cells [= <-] Hd.
  destruct d as [|[|[|d]]]; simpl in Hd; try discriminate Hd;
    injection Hd as <-; repeat constructor.
Defined.
